(** * Override extraction for Helm values files

    A shallow embedding of [compare_and_extract_diff] as it is written in
    [helm-remove-defaults/main.py] (the ruamel.yaml script) and in
    [helm-remove-defaults/main-ordered.py] (the PyYAML script), together with
    the properties of the two functions; then the [main] programs around
    them, and the schema scripts of [optimze-database-columns]. *)

From Stdlib Require Import List String ZArith Bool Arith Lia Permutation.
From Stdlib Require Import Floats.SpecFloat.
From Stdlib Require Import Ascii.
From Stdlib Require DecimalString.
Import ListNotations.

(* ================================================================== *)
(** ** Python values *)

(** The objects a YAML loader hands to the scripts: [None], [bool], [int],
    [float] (an IEEE binary64 value in the Standard Library's [spec_float]
    form), [str], [list] and [dict].  A [dict] keeps its entries in insertion
    order; its keys are strings. *)
Unset Elimination Schemes.
Inductive value : Type :=
| VNone
| VBool (b : bool)
| VInt (n : Z)
| VFloat (f : spec_float)
| VStr (s : string)
| VList (items : list value)
| VDict (entries : list (string * value)).
Set Elimination Schemes.

Definition dict : Type := list (string * value).

(** [type(v)] *)
Inductive pytype : Type :=
| NoneType | Tbool | Tint | Tfloat | Tstr | Tlist | Tdict.

Definition type_of (v : value) : pytype :=
  match v with
  | VNone => NoneType
  | VBool _ => Tbool
  | VInt _ => Tint
  | VFloat _ => Tfloat
  | VStr _ => Tstr
  | VList _ => Tlist
  | VDict _ => Tdict
  end.

Definition pytype_eqb (a b : pytype) : bool :=
  match a, b with
  | NoneType, NoneType | Tbool, Tbool | Tint, Tint | Tfloat, Tfloat
  | Tstr, Tstr | Tlist, Tlist | Tdict, Tdict => true
  | _, _ => false
  end.

(** [v is not None] *)
Definition is_not_none (v : value) : bool :=
  match v with VNone => false | _ => true end.

(** [isinstance(v, (CommentedMap, dict))] and
    [isinstance(v, (CommentedSeq, list))] *)
Definition isinstance_map (v : value) : bool :=
  match v with VDict _ => true | _ => false end.

Definition isinstance_seq (v : value) : bool :=
  match v with VList _ => true | _ => false end.

(* ------------------------------------------------------------------ *)
(** *** Dictionaries *)

Fixpoint dict_lookup (m : dict) (key : string) : option value :=
  match m with
  | [] => None
  | (k, v) :: m' => if String.eqb key k then Some v else dict_lookup m' key
  end.

(** [key in m] *)
Definition dict_contains (m : dict) (key : string) : bool :=
  match dict_lookup m key with Some _ => true | None => false end.

(** [m.get(key)]: the value, or [None] for a missing key *)
Definition dict_get (m : dict) (key : string) : value :=
  match dict_lookup m key with Some v => v | None => VNone end.

(** [m.keys()], and the order in which [for key in m] visits the keys *)
Definition dict_keys (m : dict) : list string := map fst m.

(** [m[key] = v]: a key already present keeps its position, a new key goes
    to the end. *)
Fixpoint dict_setitem (m : dict) (key : string) (v : value) : dict :=
  match m with
  | [] => [(key, v)]
  | (k, w) :: m' =>
      if String.eqb key k then (k, v) :: m' else (k, w) :: dict_setitem m' key v
  end.

(** Truth value of a dict: [bool(m)] is [len(m) != 0]. *)
Definition dict_truthy (m : dict) : bool :=
  match m with [] => false | _ :: _ => true end.

(* ------------------------------------------------------------------ *)
(** *** Equality, [==] and [!=] *)

(** [int == float] compares the exact mathematical values. *)
Definition int_float_eqb (n : Z) (f : spec_float) : bool :=
  match f with
  | S754_zero _ => Z.eqb n 0
  | S754_finite s m e =>
      let sm := if s then Z.neg m else Z.pos m in
      if Z.leb 0 e then Z.eqb n (sm * 2 ^ e) else Z.eqb (n * 2 ^ (- e)) sm
  | S754_infinity _ | S754_nan => false
  end.

(** [a == b].  [bool] is a subclass of [int] ([True == 1]), numbers compare
    by value across [bool], [int] and [float], a NaN equals nothing, a
    string equals only an equal string, lists compare element by element and
    dicts entry by entry whatever the order of their keys.

    CPython compares the elements of two containers with [x is y or x == y].
    An object is equal to itself for [==] unless it is a NaN or holds one,
    so the shortcut [x is y] changes the answer only when both containers
    hold a NaN: the loaders hand out one NaN object for every [.nan], and
    [[nan] == [nan]] is true of two loaded lists where it is false here.
    The function is [==] on every pair of trees of which one holds no NaN
    ([nan_free]); see [py_eq_is], which has the test, and
    [py_eq_is_agrees]. *)
Fixpoint py_eq (a b : value) {struct a} : bool :=
  match a, b with
  | VNone, VNone => true
  | VBool x, VBool y => Bool.eqb x y
  | VBool x, VInt n => Z.eqb (Z.b2z x) n
  | VBool x, VFloat f => int_float_eqb (Z.b2z x) f
  | VInt n, VBool y => Z.eqb n (Z.b2z y)
  | VInt n, VInt p => Z.eqb n p
  | VInt n, VFloat f => int_float_eqb n f
  | VFloat f, VBool y => int_float_eqb (Z.b2z y) f
  | VFloat f, VInt n => int_float_eqb n f
  | VFloat f, VFloat g => SFeqb f g
  | VStr s, VStr t => String.eqb s t
  | VList xs, VList ys =>
      (fix list_eq (xs ys : list value) {struct xs} : bool :=
         match xs, ys with
         | [], [] => true
         | x :: xs', y :: ys' => py_eq x y && list_eq xs' ys'
         | _, _ => false
         end) xs ys
  | VDict m, VDict n =>
      Nat.eqb (List.length m) (List.length n) &&
      (fix entries_eq (m : dict) {struct m} : bool :=
         match m with
         | [] => true
         | (k, v) :: m' =>
             match dict_lookup n k with
             | Some w => py_eq v w && entries_eq m'
             | None => false
             end
         end) m
  | _, _ => false
  end.

Definition py_ne (a b : value) : bool := negb (py_eq a b).


(* ------------------------------------------------------------------ *)
(** *** [copy.deepcopy] *)

Fixpoint deepcopy (v : value) : value :=
  match v with
  | VList items => VList (map deepcopy items)
  | VDict entries => VDict (map (fun kv => (fst kv, deepcopy (snd kv))) entries)
  | other => other
  end.

(** Nesting depth of a value. *)
Fixpoint height (v : value) : nat :=
  match v with
  | VList items => S (list_max (map height items))
  | VDict entries => S (list_max (map (fun kv => height (snd kv)) entries))
  | _ => 0
  end.

(* ================================================================== *)
(** ** Exceptions *)

Inductive exn : Type :=
| AttributeError | TypeError | KeyError | RecursionError.

Inductive outcome (A : Type) : Type :=
| Returns (a : A)
| Raises (e : exn).

Arguments Returns {A} a.
Arguments Raises {A} e.

Definition bind {A B : Type} (c : outcome A) (k : A -> outcome B) : outcome B :=
  match c with
  | Returns a => k a
  | Raises e => Raises e
  end.

Notation "x <- c ;; k" := (bind c (fun x => k))
  (at level 61, c at next level, right associativity).

(** [for x in xs: acc = body(acc, x)], stopping at the first exception. *)
Fixpoint for_each {A St : Type} (xs : list A) (acc : St)
    (body : St -> A -> outcome St) : outcome St :=
  match xs with
  | [] => Returns acc
  | x :: xs' => acc' <- body acc x ;; for_each xs' acc' body
  end.

(** [v.keys()] *)
Definition py_keys (v : value) : outcome (list string) :=
  match v with
  | VDict m => Returns (dict_keys m)
  | _ => Raises AttributeError
  end.

(** [v.get(key)] *)
Definition py_get (v : value) (key : string) : outcome value :=
  match v with
  | VDict m => Returns (dict_get m key)
  | _ => Raises AttributeError
  end.

(** [m[key]] on a dict *)
Definition dict_getitem (m : dict) (key : string) : outcome value :=
  match dict_lookup m key with
  | Some v => Returns v
  | None => Raises KeyError
  end.

(** [key in v] for a string [key] *)
Definition py_in (key : string) (v : value) : outcome bool :=
  match v with
  | VDict m => Returns (dict_contains m key)
  | VList items => Returns (existsb (py_eq (VStr key)) items)
  | VStr s => Returns (match index 0 key s with Some _ => true | None => false end)
  | VNone | VBool _ | VInt _ | VFloat _ => Raises TypeError
  end.

(** A Python result read as an optional tree: [None] is the absence of a
    difference. *)
Definition option_of (v : value) : option value :=
  if is_not_none v then Some v else None.

(* ================================================================== *)
(** ** main.py *)

Module Main.

(** The body of [compare_and_extract_diff], with the recursive call taken
    as [self]. *)
Definition compare_and_extract_diff_body
    (self : value -> value -> outcome value)
    (local_val default_val : value) : outcome value :=
  let local_is_map := isinstance_map local_val in
  let default_is_map := isinstance_map default_val in
  let local_is_seq := isinstance_seq local_val in
  let default_is_seq := isinstance_seq default_val in
  if negb (Bool.eqb local_is_map default_is_map)
     || negb (Bool.eqb local_is_seq default_is_seq)
  then Returns (if is_not_none local_val then local_val else VNone)
  else
    match local_val with
    | VDict local_entries =>
        diff_dict <-
          for_each (dict_keys local_entries) ([] : dict)
            (fun diff_dict key =>
               local_item <- dict_getitem local_entries key ;;
               default_item <- py_get default_val key ;;
               key_in_default <- py_in key default_val ;;
               if negb key_in_default then
                 if is_not_none local_item
                 then Returns (dict_setitem diff_dict key local_item)
                 else Returns diff_dict
               else
                 sub_diff <- self local_item default_item ;;
                 if is_not_none sub_diff
                 then Returns (dict_setitem diff_dict key sub_diff)
                 else Returns diff_dict) ;;
        Returns (if dict_truthy diff_dict then VDict diff_dict else VNone)
    | VList _ =>
        if py_ne local_val default_val then Returns local_val
        else Returns VNone
    | _ =>
        if py_ne local_val default_val then Returns local_val
        else Returns VNone
    end.

(** The recursion, unrolled [depth] times; a call nested deeper than
    [depth] gives up. *)
Fixpoint compare_upto (depth : nat) : value -> value -> outcome value :=
  match depth with
  | O => fun _ _ => Raises RecursionError
  | S depth' => compare_and_extract_diff_body (compare_upto depth')
  end.

(** [compare_and_extract_diff(local_val, default_val)]: every recursive
    call descends into [local_val], so [height local_val] unrollings are
    enough (see [Main_unfold]).  This is the function on a stack without a
    limit; [MainOnStack] runs it on the stack of the interpreter. *)
Definition compare_and_extract_diff (local_val default_val : value)
    : outcome value :=
  compare_upto (S (height local_val)) local_val default_val.

(** The value the call returns ([None] should it raise). *)
Definition diff (local_val default_val : value) : value :=
  match compare_and_extract_diff local_val default_val with
  | Returns v => v
  | Raises _ => VNone
  end.

(** The result as the caller reads it ([diff_values is not None]). *)
Definition extractOverrides (local_val default_val : value)
    : outcome (option value) :=
  r <- compare_and_extract_diff local_val default_val ;;
  Returns (option_of r).

End Main.

(* ================================================================== *)
(** ** main-ordered.py *)

Module MainOrdered.

(** A Python [set] of strings, as the list of its distinct elements. *)
Definition pyset : Type := list string.

(** [set(keys)] *)
Definition set_of (keys : list string) : pyset := nodup string_dec keys.

(** [a | b] *)
Definition set_union (a b : pyset) : pyset := nodup string_dec (a ++ b).

Section Body.

(** The order in which [for key in s] visits the elements of a set; it
    depends on the hashes of the strings and is not fixed by the
    language. *)
Variable set_iter : pyset -> list string.

Definition compare_and_extract_diff_body
    (self : value -> value -> outcome value)
    (local_val default_val : value) : outcome value :=
  if negb (pytype_eqb (type_of local_val) (type_of default_val)) then
    if is_not_none local_val then Returns (deepcopy local_val)
    else Returns VNone
  else
    match local_val with
    | VDict local_entries =>
        default_keys <- py_keys default_val ;;
        let all_keys :=
          set_union (set_of (dict_keys local_entries)) (set_of default_keys) in
        diff_dict <-
          for_each (set_iter all_keys) ([] : dict)
            (fun diff_dict key =>
               let local_item := dict_get local_entries key in
               default_item <- py_get default_val key ;;
               key_in_default <- py_in key default_val ;;
               if negb key_in_default then
                 if is_not_none local_item
                 then Returns (dict_setitem diff_dict key (deepcopy local_item))
                 else Returns diff_dict
               else if negb (dict_contains local_entries key) then
                 Returns diff_dict
               else
                 sub_diff <- self local_item default_item ;;
                 if is_not_none sub_diff
                 then Returns (dict_setitem diff_dict key sub_diff)
                 else Returns diff_dict) ;;
        Returns (if dict_truthy diff_dict then VDict diff_dict else VNone)
    | VList _ =>
        if py_ne local_val default_val then Returns (deepcopy local_val)
        else Returns VNone
    | _ =>
        if py_ne local_val default_val then Returns (deepcopy local_val)
        else Returns VNone
    end.

Fixpoint compare_upto (depth : nat) : value -> value -> outcome value :=
  match depth with
  | O => fun _ _ => Raises RecursionError
  | S depth' => compare_and_extract_diff_body (compare_upto depth')
  end.

Definition compare_and_extract_diff (local_val default_val : value)
    : outcome value :=
  compare_upto (S (height local_val)) local_val default_val.

Definition diff (local_val default_val : value) : value :=
  match compare_and_extract_diff local_val default_val with
  | Returns v => v
  | Raises _ => VNone
  end.

Definition extractOverrides (local_val default_val : value)
    : outcome (option value) :=
  r <- compare_and_extract_diff local_val default_val ;;
  Returns (option_of r).

End Body.

(** Two iteration orders a run can show: the order of insertion, and its
    reverse. *)
Definition insertion_order (s : pyset) : list string := s.
Definition reverse_order (s : pyset) : list string := rev s.

End MainOrdered.

(* ================================================================== *)
(** ** The two functions on the stack of the interpreter *)

(** The interpreter ends a computation whose calls nest deeper than its
    recursion limit with a [RecursionError].  The definitions above leave
    the stack out: they give the value that is returned when the stack
    suffices.  The definitions below run the same code with [frames], the
    number of nested calls that are still allowed, and raise
    [RecursionError] where the code would need more.

    What a step takes from the stack depends on the interpreter and on the
    types of the library, and is a parameter: [eq_frames] for one level of
    nesting of [==] (and for [==] on two scalars), [copy_frames] for one
    level of [copy.deepcopy] ([deepcopy] and the copier it calls), and
    [body_frames] for the other calls of the body of
    [compare_and_extract_diff] ([isinstance], [type(...) != type(...)],
    the methods of the mappings), which each call of the function is taken
    to need on top of its own frame. *)
Record interpreter : Type := {
  body_frames : nat;
  eq_frames : nat;
  copy_frames : nat
}.

(** [a == b] with [frames] left.  Two lists or two dicts of different
    lengths are unequal without a look at their elements; otherwise the
    elements are compared in order, one level deeper, up to the first that
    differs. *)
Fixpoint py_eq_within (py : interpreter) (frames : nat) (a b : value)
    {struct a} : outcome bool :=
  if frames <? eq_frames py then Raises RecursionError
  else
    match a, b with
    | VList xs, VList ys =>
        if negb (Nat.eqb (List.length xs) (List.length ys)) then Returns false
        else
          (fix list_eq (xs ys : list value) {struct xs} : outcome bool :=
             match xs, ys with
             | x :: xs', y :: ys' =>
                 same <- py_eq_within py (frames - eq_frames py) x y ;;
                 if same then list_eq xs' ys' else Returns false
             | _, _ => Returns true
             end) xs ys
    | VDict m, VDict n =>
        if negb (Nat.eqb (List.length m) (List.length n)) then Returns false
        else
          (fix entries_eq (m : dict) {struct m} : outcome bool :=
             match m with
             | [] => Returns true
             | (k, v) :: m' =>
                 match dict_lookup n k with
                 | Some w =>
                     same <- py_eq_within py (frames - eq_frames py) v w ;;
                     if same then entries_eq m' else Returns false
                 | None => Returns false
                 end
             end) m
    | _, _ => Returns (py_eq a b)
    end.

(** [a != b] with [frames] left. *)
Definition py_ne_within (py : interpreter) (frames : nat) (a b : value)
    : outcome bool :=
  same <- py_eq_within py frames a b ;;
  Returns (negb same).

(** [copy.deepcopy] of a key of a dict, a string, with [frames] left. *)
Definition copy_key (py : interpreter) (frames : nat) (key : string)
    : outcome string :=
  if frames <? copy_frames py then Raises RecursionError else Returns key.

(** [copy.deepcopy(v)] with [frames] left: the items of a list, and the
    values and the keys of a dict, are copied one level deeper. *)
Fixpoint deepcopy_within (py : interpreter) (frames : nat) (v : value)
    {struct v} : outcome value :=
  if frames <? copy_frames py then Raises RecursionError
  else
    match v with
    | VList items =>
        y <- (fix copy_items (items : list value) : outcome (list value) :=
                match items with
                | [] => Returns []
                | a :: items' =>
                    a' <- deepcopy_within py (frames - copy_frames py) a ;;
                    y <- copy_items items' ;;
                    Returns (a' :: y)
                end) items ;;
        Returns (VList y)
    | VDict entries =>
        y <- (fix copy_entries (entries : dict) : outcome dict :=
                match entries with
                | [] => Returns []
                | (key, item) :: entries' =>
                    item' <- deepcopy_within py (frames - copy_frames py) item ;;
                    key' <- copy_key py (frames - copy_frames py) key ;;
                    y <- copy_entries entries' ;;
                    Returns ((key', item') :: y)
                end) entries ;;
        Returns (VDict y)
    | other => Returns other
    end.

(* ------------------------------------------------------------------ *)
(** *** main.py *)

Module MainOnStack.

Section Interpreter.

Variable py : interpreter.

(** The body of [compare_and_extract_diff], run with [frames] left. *)
Definition compare_and_extract_diff_body (frames : nat)
    (self : value -> value -> outcome value)
    (local_val default_val : value) : outcome value :=
  let local_is_map := isinstance_map local_val in
  let default_is_map := isinstance_map default_val in
  let local_is_seq := isinstance_seq local_val in
  let default_is_seq := isinstance_seq default_val in
  if negb (Bool.eqb local_is_map default_is_map)
     || negb (Bool.eqb local_is_seq default_is_seq)
  then Returns (if is_not_none local_val then local_val else VNone)
  else
    match local_val with
    | VDict local_entries =>
        diff_dict <-
          for_each (dict_keys local_entries) ([] : dict)
            (fun diff_dict key =>
               local_item <- dict_getitem local_entries key ;;
               default_item <- py_get default_val key ;;
               key_in_default <- py_in key default_val ;;
               if negb key_in_default then
                 if is_not_none local_item
                 then Returns (dict_setitem diff_dict key local_item)
                 else Returns diff_dict
               else
                 sub_diff <- self local_item default_item ;;
                 if is_not_none sub_diff
                 then Returns (dict_setitem diff_dict key sub_diff)
                 else Returns diff_dict) ;;
        Returns (if dict_truthy diff_dict then VDict diff_dict else VNone)
    | VList _ =>
        differ <- py_ne_within py frames local_val default_val ;;
        if differ then Returns local_val else Returns VNone
    | _ =>
        differ <- py_ne_within py frames local_val default_val ;;
        if differ then Returns local_val else Returns VNone
    end.

(** [compare_and_extract_diff(local_val, default_val)], called with
    [frames] left: the call takes one frame, and what is left of them is
    what its body and the calls nested in it run with. *)
Fixpoint compare_and_extract_diff (frames : nat)
    : value -> value -> outcome value :=
  match frames with
  | O => fun _ _ => Raises RecursionError
  | S rest =>
      fun local_val default_val =>
        if rest <? body_frames py then Raises RecursionError
        else
          compare_and_extract_diff_body rest (compare_and_extract_diff rest)
            local_val default_val
  end.

Definition extractOverrides (frames : nat) (local_val default_val : value)
    : outcome (option value) :=
  r <- compare_and_extract_diff frames local_val default_val ;;
  Returns (option_of r).

End Interpreter.

End MainOnStack.

(* ------------------------------------------------------------------ *)
(** *** main-ordered.py *)

Module MainOrderedOnStack.

Section Interpreter.

Variable set_iter : MainOrdered.pyset -> list string.
Variable py : interpreter.

Definition compare_and_extract_diff_body (frames : nat)
    (self : value -> value -> outcome value)
    (local_val default_val : value) : outcome value :=
  if negb (pytype_eqb (type_of local_val) (type_of default_val)) then
    if is_not_none local_val then deepcopy_within py frames local_val
    else Returns VNone
  else
    match local_val with
    | VDict local_entries =>
        default_keys <- py_keys default_val ;;
        let all_keys :=
          MainOrdered.set_union (MainOrdered.set_of (dict_keys local_entries))
            (MainOrdered.set_of default_keys) in
        diff_dict <-
          for_each (set_iter all_keys) ([] : dict)
            (fun diff_dict key =>
               let local_item := dict_get local_entries key in
               default_item <- py_get default_val key ;;
               key_in_default <- py_in key default_val ;;
               if negb key_in_default then
                 if is_not_none local_item
                 then
                   copied <- deepcopy_within py frames local_item ;;
                   Returns (dict_setitem diff_dict key copied)
                 else Returns diff_dict
               else if negb (dict_contains local_entries key) then
                 Returns diff_dict
               else
                 sub_diff <- self local_item default_item ;;
                 if is_not_none sub_diff
                 then Returns (dict_setitem diff_dict key sub_diff)
                 else Returns diff_dict) ;;
        Returns (if dict_truthy diff_dict then VDict diff_dict else VNone)
    | VList _ =>
        differ <- py_ne_within py frames local_val default_val ;;
        if differ then deepcopy_within py frames local_val
        else Returns VNone
    | _ =>
        differ <- py_ne_within py frames local_val default_val ;;
        if differ then deepcopy_within py frames local_val
        else Returns VNone
    end.

Fixpoint compare_and_extract_diff (frames : nat)
    : value -> value -> outcome value :=
  match frames with
  | O => fun _ _ => Raises RecursionError
  | S rest =>
      fun local_val default_val =>
        if rest <? body_frames py then Raises RecursionError
        else
          compare_and_extract_diff_body rest (compare_and_extract_diff rest)
            local_val default_val
  end.

Definition extractOverrides (frames : nat) (local_val default_val : value)
    : outcome (option value) :=
  r <- compare_and_extract_diff frames local_val default_val ;;
  Returns (option_of r).

End Interpreter.

End MainOrderedOnStack.

(** Frames that are enough for a local tree of nesting depth [depth]: one
    for each nested call of the function, with a comparison and a copy at
    each level, and the needs of the body. *)
Definition stack_bound (py : interpreter) (depth : nat) : nat :=
  body_frames py + (1 + eq_frames py + copy_frames py) * S depth.

(** CPython 3 on the built-in [list] and [dict], as main-ordered.py has
    them: one level for [==], two frames for a level of [copy.deepcopy]
    ([deepcopy] and [_deepcopy_list], [_deepcopy_dict] or
    [_deepcopy_atomic]), one for the test [type(...) != type(...)]. *)
Definition cpython : interpreter :=
  {| body_frames := 1; eq_frames := 1; copy_frames := 2 |}.

(** [depth] mappings of one key, one in the other, around [leaf]. *)
Fixpoint nested (depth : nat) (leaf : value) : value :=
  match depth with
  | O => leaf
  | S depth' => VDict [("a"%string, nested depth' leaf)]
  end.

(* ================================================================== *)
(** ** The vocabulary of the specification *)

(** The four kinds of tree node. *)
Inductive kind : Type := Mapping | Sequence | Scalar | Null.

Definition kind_of (v : value) : kind :=
  match v with
  | VDict _ => Mapping
  | VList _ => Sequence
  | VNone => Null
  | VBool _ | VInt _ | VFloat _ | VStr _ => Scalar
  end.

Definition kind_eqb (a b : kind) : bool :=
  match a, b with
  | Mapping, Mapping | Sequence, Sequence | Scalar, Scalar | Null, Null => true
  | _, _ => false
  end.

(** Every dict has pairwise distinct keys, at every depth. *)
Fixpoint distinct (ks : list string) : bool :=
  match ks with
  | [] => true
  | k :: ks' => negb (existsb (String.eqb k) ks') && distinct ks'
  end.

Fixpoint well_formed (v : value) : bool :=
  match v with
  | VList items => forallb well_formed items
  | VDict entries =>
      distinct (map fst entries)
      && forallb (fun kv => well_formed (snd kv)) entries
  | _ => true
  end.

(** No float in the tree is a NaN. *)
Fixpoint nan_free (v : value) : bool :=
  match v with
  | VFloat S754_nan => false
  | VList items => forallb nan_free items
  | VDict entries => forallb (fun kv => nan_free (snd kv)) entries
  | _ => true
  end.

(** Scalar equality in the words of the specification: the same logical
    type and the same value. *)
Definition scalar_equal (a b : value) : bool :=
  match a, b with
  | VBool x, VBool y => Bool.eqb x y
  | VInt n, VInt p => Z.eqb n p
  | VFloat f, VFloat g => SFeqb f g
  | VStr s, VStr t => String.eqb s t
  | _, _ => false
  end.

(** Structural equality in the words of the specification: scalars by
    [scalar_equal], sequences of the same length element by element,
    mappings with the same keys and equal values whatever the key order. *)
Fixpoint structural_equal (a b : value) {struct a} : bool :=
  match a, b with
  | VNone, VNone => true
  | VList xs, VList ys =>
      (fix seq_equal (xs ys : list value) {struct xs} : bool :=
         match xs, ys with
         | [], [] => true
         | x :: xs', y :: ys' => structural_equal x y && seq_equal xs' ys'
         | _, _ => false
         end) xs ys
  | VDict m, VDict n =>
      Nat.eqb (List.length m) (List.length n) &&
      (fix map_equal (m : dict) {struct m} : bool :=
         match m with
         | [] => true
         | (k, v) :: m' =>
             match dict_lookup n k with
             | Some w => structural_equal v w && map_equal m'
             | None => false
             end
         end) m
  | _, _ => scalar_equal a b
  end.

(** Modelled from the spec: the merge of an override tree onto the defaults
    is done by Helm, outside this repository.  The override wins on every
    conflict; two mappings are merged key by key, and keys the override does
    not mention keep their default. *)
Fixpoint merge (base override : value) {struct override} : value :=
  match override, base with
  | VDict oe, VDict be =>
      VDict
        ((fix merge_entries (oe : dict) (acc : dict) {struct oe} : dict :=
            match oe with
            | [] => acc
            | (k, ov) :: oe' =>
                merge_entries oe'
                  (dict_setitem acc k
                     (match dict_lookup be k with
                      | Some bv => merge bv ov
                      | None => ov
                      end))
            end) oe be)
  | _, _ => override
  end.

(** The entries of [merge] on two mappings, as a loop over the override. *)
Definition merge_entries (be oe acc : dict) : dict :=
  fold_left
    (fun acc kv =>
       dict_setitem acc (fst kv)
         (match dict_lookup be (fst kv) with
          | Some bv => merge bv (snd kv)
          | None => snd kv
          end))
    oe acc.

(** The defaults after the caller has applied a result of the script: left
    alone when there is no difference. *)
Definition apply_diff (default result : value) : value :=
  if is_not_none result then merge default result else default.

(** [key in v] for a tree: only a mapping has keys. *)
Definition has_key (v : value) (key : string) : bool :=
  match v with VDict m => dict_contains m key | _ => false end.

(** The entry of [key] in the defaults, if the defaults are a mapping that
    has it. *)
Definition entry_at (default : value) (key : string) : option value :=
  match default with VDict de => dict_lookup de key | _ => None end.

Definition or_null (o : option value) : value :=
  match o with Some v => v | None => VNone end.

(** What the round trip promises of [merged] with respect to [local]:
    outside mappings the two are [same]; inside mappings every key of
    [local] is reproduced, unless [dropped] excuses it from the local and
    the default value of that key.  Keys of [merged] that [local] does not
    have are not looked at. *)
Section Reproduces.

Variable same : value -> value -> bool.
Variable dropped : value -> option value -> bool.

Fixpoint reproduces (local default merged : value) {struct local} : bool :=
  match local, merged with
  | VDict le, VDict me =>
      (fix each (le : dict) {struct le} : bool :=
         match le with
         | [] => true
         | (k, lv) :: le' =>
             (dropped lv (entry_at default k)
              || match dict_lookup me k with
                 | Some mv => reproduces lv (or_null (entry_at default k)) mv
                 | None => false
                 end)
             && each le'
         end) le
  | _, _ => same local merged
  end.

End Reproduces.

(** The very same tree: the same constructors and contents, the keys of
    every mapping in the same order. *)
Definition float_identical (f g : spec_float) : bool :=
  match f, g with
  | S754_zero s, S754_zero t => Bool.eqb s t
  | S754_infinity s, S754_infinity t => Bool.eqb s t
  | S754_nan, S754_nan => true
  | S754_finite s m e, S754_finite t n d =>
      Bool.eqb s t && Pos.eqb m n && Z.eqb e d
  | _, _ => false
  end.

Fixpoint value_eqb (a b : value) {struct a} : bool :=
  match a, b with
  | VNone, VNone => true
  | VBool x, VBool y => Bool.eqb x y
  | VInt n, VInt p => Z.eqb n p
  | VFloat f, VFloat g => float_identical f g
  | VStr s, VStr t => String.eqb s t
  | VList xs, VList ys =>
      (fix items_eqb (xs ys : list value) {struct xs} : bool :=
         match xs, ys with
         | [], [] => true
         | x :: xs', y :: ys' => value_eqb x y && items_eqb xs' ys'
         | _, _ => false
         end) xs ys
  | VDict m, VDict n =>
      (fix entries_eqb (m n : dict) {struct m} : bool :=
         match m, n with
         | [], [] => true
         | (k, v) :: m', (k', w) :: n' =>
             String.eqb k k' && value_eqb v w && entries_eqb m' n'
         | _, _ => false
         end) m n
  | _, _ => false
  end.

(** The same value for Python: the very same tree, or one equal for [==]. *)
Definition same_value (a b : value) : bool := value_eqb a b || py_eq a b.

(** The exception of the specification: a local null over a non-null
    default. *)
Definition null_over_non_null (lv : value) (dv : option value) : bool :=
  match lv, dv with
  | VNone, Some d => is_not_none d
  | _, _ => false
  end.

(** The exception the code makes: every local null. *)
Definition local_null (lv : value) (dv : option value) : bool :=
  negb (is_not_none lv).

(** The entries a mapping comparison collects, for the keys [ks] in turn. *)
Definition entry_diff (diff : value -> value -> value)
    (le de : dict) (key : string) : option value :=
  match dict_lookup le key with
  | None => None
  | Some local_item =>
      if dict_contains de key
      then option_of (diff local_item (dict_get de key))
      else option_of local_item
  end.

Definition collect_from (f : string -> option value)
    (ks : list string) (acc : dict) : dict :=
  fold_left
    (fun acc k => match f k with Some v => dict_setitem acc k v | None => acc end)
    ks acc.

Definition finish (m : dict) : value :=
  if dict_truthy m then VDict m else VNone.

(** Two scalars of different types that [==] identifies ([True] and [1],
    [1] and [1.0]): the two scripts differ exactly there.  [type_coherent]
    says that no such pair is met while descending the mappings. *)
Fixpoint type_coherent (local default : value) {struct local} : bool :=
  match local, default with
  | VDict le, VDict de =>
      (fix each (le : dict) {struct le} : bool :=
         match le with
         | [] => true
         | (k, lv) :: le' =>
             match dict_lookup de k with
             | Some dv => type_coherent lv dv
             | None => true
             end && each le'
         end) le
  | _, _ =>
      pytype_eqb (type_of local) (type_of default) || negb (py_eq local default)
  end.

(** The same tree up to the order of the keys of its mappings. *)
Inductive same_content : value -> value -> Prop :=
| same_refl : forall v, same_content v v
| same_dict : forall m n,
    (forall k, dict_lookup m k = None <-> dict_lookup n k = None) ->
    (forall k a b,
        dict_lookup m k = Some a -> dict_lookup n k = Some b ->
        same_content a b) ->
    same_content (VDict m) (VDict n).

(** The keys of [ks] that occur in [sel], in the order of [ks]. *)
Definition keys_in_order_of (ks sel : list string) : list string :=
  filter (fun k => existsb (String.eqb k) sel) ks.

(** The rule for a node where both trees are scalars or both are null,
    with [eqv] as the equality of scalars: no result when both are null or
    the scalars are equal, the local value otherwise. *)
Definition is_leaf_pair (a b : value) : bool :=
  match kind_of a, kind_of b with
  | Scalar, Scalar | Null, Null => true
  | _, _ => false
  end.

Definition scalar_null_rule (eqv : value -> value -> bool)
    (extract : value -> value -> outcome (option value)) (a b : value) : Prop :=
  extract a b =
  Returns (if (negb (is_not_none a) && negb (is_not_none b)) || eqv a b
           then None else Some a).


(** Two results agree: both absent, or both present with the same content. *)
Definition results_agree (r1 r2 : outcome (option value)) : Prop :=
  match r1, r2 with
  | Returns None, Returns None => True
  | Returns (Some a), Returns (Some b) => same_content a b
  | _, _ => False
  end.

(* ================================================================== *)
(** ** The two programs around the comparison *)

(** [bool(v)], the truth value of an object. *)
Definition float_is_zero (f : spec_float) : bool :=
  match f with S754_zero _ => true | _ => false end.

Definition truthy (v : value) : bool :=
  match v with
  | VNone => false
  | VBool b => b
  | VInt n => negb (Z.eqb n 0)
  | VFloat f => negb (float_is_zero f)
  | VStr s => negb (String.eqb s EmptyString)
  | VList items => match items with [] => false | _ :: _ => true end
  | VDict m => dict_truthy m
  end.

(** [s.split(sep, 1)] for a separator of one character: the text before
    the first [sep] and the text after it, or [s] alone without a [sep]. *)
Fixpoint split_at_first (sep : ascii) (s : string) : option (string * string) :=
  match s with
  | EmptyString => None
  | String c rest =>
      if Ascii.eqb c sep then Some (EmptyString, rest)
      else match split_at_first sep rest with
           | Some (before, after) => Some (String c before, after)
           | None => None
           end
  end.

Definition split_once (sep : ascii) (s : string) : list string :=
  match split_at_first sep s with
  | Some (before, after) => [before; after]
  | None => [s]
  end.

(** A line feed. *)
Definition nl : string := String (Ascii.ascii_of_nat 10) EmptyString.

(** The command line, as [argparse] hands it over. *)
Record arguments : Type := {
  local_values_file : string;
  repo : string;
  chart : string;
  version : string;
  output : option string;
  add_repo : bool;
  update_repo : bool
}.

(** [if args.output:] and the path it then uses: an option that was not
    given, or was given empty, sends the result to standard output. *)
Definition output_path (a : arguments) : option string :=
  match output a with
  | Some path => if String.eqb path EmptyString then None else Some path
  | None => None
  end.

(** What a run does to the outside: the commands it starts, the files it
    opens for reading and the text it writes to files and to standard
    output, in order.  The diagnostics it prints on [sys.stderr] are left
    out. *)
Inductive event : Type :=
| RunHelm (command : list string)
| ReadFile (path : string)
| WriteFile (path : string) (content : string)
| Print (text : string).

(** The outside of a run.  [helm_stdout] is the standard output of a
    command that ends with status 0, given what the run has done so far
    ([None]: the executable is missing or the status is not 0);
    [file_text] is the text of a file that can be read; [yaml_load] is the
    loader ([None]: the text is not YAML) and [yaml_dump] the dumper of the
    library the program uses; [writable] tells whether a file can be opened
    for writing. *)
Record world : Type := {
  helm_stdout : list event -> list string -> option string;
  file_text : string -> option string;
  yaml_load : string -> option value;
  yaml_dump : value -> string;
  writable : string -> bool
}.

(** How a run stops before the end of [main]: [sys.exit(code)], or an
    exception that nothing catches. *)
Inductive stop : Type :=
| SysExit (code : Z)
| Crash.

Inductive step (A : Type) : Type :=
| Go (a : A) (trace : list event)
| Halt (how : stop) (trace : list event).

Arguments Go {A} a trace.
Arguments Halt {A} how trace.

Definition prog (A : Type) : Type := list event -> step A.

Definition ret {A : Type} (a : A) : prog A := fun t => Go a t.

Definition and_then {A B : Type} (c : prog A) (k : A -> prog B) : prog B :=
  fun t =>
    match c t with
    | Go a t' => k a t'
    | Halt how t' => Halt how t'
    end.

Notation "x <~ c ;; k" := (and_then c (fun x => k))
  (at level 61, c at next level, right associativity).

Definition emit (e : event) : prog unit := fun t => Go tt (t ++ [e]).

Definition sys_exit {A : Type} (code : Z) : prog A :=
  fun t => Halt (SysExit code) t.

(** The call of a function that can raise: an exception is not caught. *)
Definition call {A : Type} (o : outcome A) : prog A :=
  fun t =>
    match o with
    | Returns a => Go a t
    | Raises _ => Halt Crash t
    end.

Definition trace_of {A : Type} (s : step A) : list event :=
  match s with
  | Go _ t => t
  | Halt _ t => t
  end.

Definition HELM_EXECUTABLE : string := "helm".

(** [run_helm_command(args_list)], the same in both programs: the standard
    output of the command, or [sys.exit(1)] on every failure. *)
Definition run_helm_command (w : world) (args_list : list string) : prog string :=
  fun t =>
    let command := HELM_EXECUTABLE :: args_list in
    match helm_stdout w t command with
    | Some stdout => Go stdout (t ++ [RunHelm command])
    | None => Halt (SysExit 1) (t ++ [RunHelm command])
    end.

(** The comment block both programs put before the result. *)
Definition header (chart_ref version local_file : string) : string :=
  ("# Values overriding chart defaults" ++ nl
   ++ "# Generated by helm-values-differ script" ++ nl
   ++ "# Chart: " ++ chart_ref ++ ":" ++ version ++ nl
   ++ "# Based on local file: " ++ local_file ++ nl
   ++ "---" ++ nl)%string.

(** The part of [main] that both programs share word for word: the chart
    reference, and the optional [helm repo add] and [helm repo update]. *)
Definition prepare_repo (w : world) (a : arguments) : prog string :=
  let chart_ref := (repo a ++ "/" ++ chart a)%string in
  chart_ref <~
    (if add_repo a then
       match split_once "="%char (repo a) with
       | [repo_name; repo_url] =>
           _ <~ run_helm_command w ["repo"; "add"; repo_name; repo_url]%string ;;
           ret (repo_name ++ "/" ++ chart a)%string
       | _ => ret chart_ref
       end
     else ret chart_ref) ;;
  _ <~ (if update_repo a
        then _ <~ run_helm_command w ["repo"; "update"]%string ;; ret tt
        else ret tt) ;;
  ret chart_ref.

(** Writing [content] to the file [path]; [on_failure] is what happens when
    the file cannot be opened. *)
Definition write_file (w : world) (path content : string)
    (on_failure : prog unit) : prog unit :=
  if writable w path then emit (WriteFile path content) else on_failure.

(* ------------------------------------------------------------------ *)
(** *** main.py *)

Module MainProgram.

(** [load_yaml_data(yaml_string_or_stream)]: an empty document becomes an
    empty map, every other document is returned as it is (with a warning
    when it is not a map), a text that does not parse ends the program. *)
Definition load_yaml_data (w : world) (text : string) : prog value :=
  match yaml_load w text with
  | Some data => ret (if is_not_none data then data else VDict [])
  | None => sys_exit 1
  end.

(** The test of [main] on [diff_values]: the result is not [None], and is a
    map or a sequence that is not empty, or is a scalar. *)
Definition output_generated (diff_values : value) : bool :=
  is_not_none diff_values
  && ((isinstance_map diff_values && truthy diff_values)
      || (isinstance_seq diff_values && truthy diff_values)
      || negb (isinstance_map diff_values || isinstance_seq diff_values)).

Definition main (w : world) (a : arguments) : prog unit :=
  chart_ref <~ prepare_repo w a ;;
  default_values_yaml_str <~
    run_helm_command w ["show"; "values"; chart_ref; "--version"; version a]%string ;;
  default_values <~ load_yaml_data w default_values_yaml_str ;;
  _ <~ emit (ReadFile (local_values_file a)) ;;
  local_values <~
    (match file_text w (local_values_file a) with
     | Some text => load_yaml_data w text
     | None => sys_exit 1
     end) ;;
  diff_values <~ call (Main.compare_and_extract_diff local_values default_values) ;;
  if negb (output_generated diff_values) then
    match output_path a with
    | Some path => write_file w path EmptyString (ret tt)
    | None => ret tt
    end
  else
    let header := header chart_ref (version a) (local_values_file a) in
    match output_path a with
    | Some path =>
        write_file w path (header ++ yaml_dump w diff_values) (sys_exit 1)
    | None =>
        _ <~ emit (Print header) ;;
        emit (Print (yaml_dump w diff_values))
    end.

End MainProgram.

(* ------------------------------------------------------------------ *)
(** *** main-ordered.py *)

Module MainOrderedProgram.

(** [load_yaml_file(filepath)] *)
Definition load_yaml_file (w : world) (filepath : string) : prog value :=
  _ <~ emit (ReadFile filepath) ;;
  match file_text w filepath with
  | Some text =>
      match yaml_load w text with
      | Some data => ret data
      | None => sys_exit 1
      end
  | None => sys_exit 1
  end.

Definition main (set_iter : MainOrdered.pyset -> list string)
    (w : world) (a : arguments) : prog unit :=
  chart_ref <~ prepare_repo w a ;;
  default_values_yaml <~
    run_helm_command w ["show"; "values"; chart_ref; "--version"; version a]%string ;;
  default_values <~
    (match yaml_load w default_values_yaml with
     | Some default_values =>
         ret (if is_not_none default_values then default_values else VDict [])
     | None => sys_exit 1
     end) ;;
  local_values <~ load_yaml_file w (local_values_file a) ;;
  let local_values :=
    if is_not_none local_values then local_values else VDict [] in
  diff_values <~
    call (MainOrdered.compare_and_extract_diff set_iter local_values default_values) ;;
  let output_yaml :=
    if is_not_none diff_values && truthy diff_values
    then yaml_dump w diff_values
    else EmptyString in
  if String.eqb output_yaml EmptyString then
    match output_path a with
    | Some path => write_file w path EmptyString (fun t => Halt Crash t)
    | None => ret tt
    end
  else
    match output_path a with
    | Some path =>
        write_file w path
          (header chart_ref (version a) (local_values_file a) ++ output_yaml)
          (sys_exit 1)
    | None =>
        _ <~ emit (Print ("# Values overriding chart defaults" ++ nl)) ;;
        _ <~ emit (Print ("# Generated by helm-values-differ script" ++ nl)) ;;
        _ <~ emit (Print ("# Chart: " ++ chart_ref ++ ":" ++ version a ++ nl)) ;;
        _ <~ emit (Print ("# Based on local file: " ++ local_values_file a ++ nl)) ;;
        _ <~ emit (Print ("---" ++ nl)) ;;
        emit (Print (output_yaml ++ nl))
    end.

End MainOrderedProgram.

(* ------------------------------------------------------------------ *)
(** *** Reading a run *)

(** The chart reference [main] ends up with, and the commands it means to
    run, in order. *)
Definition chart_reference (a : arguments) : string :=
  if add_repo a then
    match split_once "="%char (repo a) with
    | [repo_name; _] => (repo_name ++ "/" ++ chart a)%string
    | _ => (repo a ++ "/" ++ chart a)%string
    end
  else (repo a ++ "/" ++ chart a)%string.

Definition repo_commands (a : arguments) : list (list string) :=
  (if add_repo a then
     match split_once "="%char (repo a) with
     | [repo_name; repo_url] => [["helm"; "repo"; "add"; repo_name; repo_url]%string]
     | _ => []
     end
   else [])
  ++ (if update_repo a then [["helm"; "repo"; "update"]%string] else []).

Definition show_command (a : arguments) : list string :=
  ["helm"; "show"; "values"; chart_reference a; "--version"; version a]%string.

Definition planned_commands (a : arguments) : list (list string) :=
  repo_commands a ++ [show_command a].

(** A loaded document with [None] replaced by an empty map. *)
Definition or_empty_map (v : value) : value :=
  if is_not_none v then v else VDict [].

(** The end of [main] in main.py, from the test on [diff_values] on. *)
Definition main_py_put_out (w : world) (a : arguments) (chart_ref : string)
    (diff_values : value) : prog unit :=
  if negb (MainProgram.output_generated diff_values) then
    match output_path a with
    | Some path => write_file w path EmptyString (ret tt)
    | None => ret tt
    end
  else
    let header := header chart_ref (version a) (local_values_file a) in
    match output_path a with
    | Some path =>
        write_file w path (header ++ yaml_dump w diff_values) (sys_exit 1)
    | None =>
        _ <~ emit (Print header) ;;
        emit (Print (yaml_dump w diff_values))
    end.

(** The end of [main] in main-ordered.py, from [output_yaml] on. *)
Definition main_ordered_put_out (w : world) (a : arguments) (chart_ref : string)
    (diff_values : value) : prog unit :=
  let output_yaml :=
    if is_not_none diff_values && truthy diff_values
    then yaml_dump w diff_values
    else EmptyString in
  if String.eqb output_yaml EmptyString then
    match output_path a with
    | Some path => write_file w path EmptyString (fun t => Halt Crash t)
    | None => ret tt
    end
  else
    match output_path a with
    | Some path =>
        write_file w path
          (header chart_ref (version a) (local_values_file a) ++ output_yaml)
          (sys_exit 1)
    | None =>
        _ <~ emit (Print ("# Values overriding chart defaults" ++ nl)) ;;
        _ <~ emit (Print ("# Generated by helm-values-differ script" ++ nl)) ;;
        _ <~ emit (Print ("# Chart: " ++ chart_ref ++ ":" ++ version a ++ nl)) ;;
        _ <~ emit (Print ("# Based on local file: " ++ local_values_file a ++ nl)) ;;
        _ <~ emit (Print ("---" ++ nl)) ;;
        emit (Print (output_yaml ++ nl))
    end.

(** The documents a run gets hold of: what [helm show values] prints after
    the repository commands parses to [dv], and the local file to [lv]. *)
Definition loads (w : world) (a : arguments) (dv lv : value) : Prop :=
  (exists dtext,
      helm_stdout w (map RunHelm (repo_commands a)) (show_command a) = Some dtext
      /\ yaml_load w dtext = Some dv)
  /\ (exists ltext,
         file_text w (local_values_file a) = Some ltext
         /\ yaml_load w ltext = Some lv).

(** What a run has when it comes to putting out a result: the two
    documents, and the trace of the commands and of the opening of the
    local file. *)
Definition compared (w : world) (a : arguments) (diff : value -> value -> value)
    (d : value) (t : list event) : Prop :=
  t = map RunHelm (planned_commands a) ++ [ReadFile (local_values_file a)]
  /\ exists dv lv,
       loads w a dv lv /\ d = diff (or_empty_map lv) (or_empty_map dv).

(** A run that stops before it compares anything: after one of the
    commands, or after opening the local file. *)
Definition stops_early (a : arguments) (t : list event) : Prop :=
  (exists n, 0 < n <= List.length (planned_commands a)
             /\ t = map RunHelm (firstn n (planned_commands a)))
  \/ t = map RunHelm (planned_commands a) ++ [ReadFile (local_values_file a)].

Definition is_helm (e : event) : bool :=
  match e with RunHelm _ => true | _ => false end.

(** An event that puts out no text: no print, and no write but of an empty
    file. *)
Definition silent (e : event) : bool :=
  match e with
  | WriteFile _ content => String.eqb content EmptyString
  | Print _ => false
  | RunHelm _ | ReadFile _ => true
  end.

(** The text a run prints on standard output, and the text it writes to
    the file [path]. *)
Fixpoint printed (t : list event) : string :=
  match t with
  | [] => EmptyString
  | Print text :: t' => (text ++ printed t')%string
  | _ :: t' => printed t'
  end.

Fixpoint written (path : string) (t : list event) : string :=
  match t with
  | [] => EmptyString
  | WriteFile p content :: t' =>
      if String.eqb p path then (content ++ written path t')%string
      else written path t'
  | _ :: t' => written path t'
  end.

(** A trace that begins with the planned commands, in order, and has no
    other command; what is not a command comes after all of them. *)
Definition commands_first (a : arguments) (t : list event) : Prop :=
  exists n rest,
    0 < n <= List.length (planned_commands a)
    /\ t = map RunHelm (firstn n (planned_commands a)) ++ rest
    /\ forallb (fun e => negb (is_helm e)) rest = true
    /\ (rest <> [] -> n = List.length (planned_commands a)).

(** The character [c] occurs in [s]. *)
Fixpoint has_char (c : ascii) (s : string) : bool :=
  match s with
  | EmptyString => false
  | String c' rest => Ascii.eqb c' c || has_char c rest
  end.

(** A world and a command line for examples: every helm command prints
    [dtext] and ends well, the local file holds [ltext], the loader reads
    [dtext] as [dv] and [ltext] as [lv], the dumper prints ["dump"], and
    files can be written when [can_write]. *)
Definition example_world (dtext ltext : string) (dv lv : value)
    (can_write : bool) : world :=
  {| helm_stdout := fun _ _ => Some dtext;
     file_text := fun _ => Some ltext;
     yaml_load := fun text =>
       if String.eqb text ltext then Some lv
       else if String.eqb text dtext then Some dv
       else None;
     yaml_dump := fun _ => "dump"%string;
     writable := fun _ => can_write |}.

Definition example_arguments (o : option string) : arguments :=
  {| local_values_file := "values.yaml";
     repo := "bitnami";
     chart := "nginx";
     version := "1.0.0";
     output := o;
     add_repo := false;
     update_repo := false |}.

(** A command line with [--add-repo] and a repository given as [name=url]. *)
Definition example_add_repo_arguments : arguments :=
  {| local_values_file := "values.yaml";
     repo := "bitnami=https://charts.example";
     chart := "nginx";
     version := "1.0.0";
     output := None;
     add_repo := true;
     update_repo := false |}.

(** The same command line with another [--output]. *)
Definition with_output (a : arguments) (o : option string) : arguments :=
  {| local_values_file := local_values_file a;
     repo := repo a;
     chart := chart a;
     version := version a;
     output := o;
     add_repo := add_repo a;
     update_repo := update_repo a |}.

(** An empty document: nothing at all, an empty map or an empty sequence. *)
Definition is_empty_document (v : value) : bool :=
  match v with
  | VNone | VDict [] | VList [] => true
  | _ => false
  end.

(* ================================================================== *)
(** ** The schema scripts (optimze-database-columns) *)

(** [str(n)] for an [int]. *)
Definition str_of_int (n : Z) : string :=
  DecimalString.NilZero.string_of_int (Z.to_int n).

(** [bool(n)] for an [Optional[int]]. *)
Definition int_truthy (n : option Z) : bool :=
  match n with
  | Some n => negb (Z.eqb n 0)
  | None => false
  end.

(** [s.split(sep)[0]]: the text before the first [sep], or all of [s]. *)
Definition before_first (sep : ascii) (s : string) : string :=
  match split_at_first sep s with
  | Some (before, _) => before
  | None => s
  end.

(** A row of [information_schema.columns], as [analyze_database] selects
    it. *)
Record schema_column : Type := {
  column_name : string;
  data_type : string;
  character_maximum_length : option Z;
  numeric_precision : option Z;
  numeric_scale : option Z;
  is_nullable : string;
  column_default : option string
}.

(** An entry of [schema_info], a line of the report ([nullable] is the
    key ['is_nullable']). *)
Record report_row : Type := {
  database : string;
  table : string;
  column : string;
  current_type : string;
  max_length : option Z;
  nullable : string;
  has_default : bool;
  optimized_type : string;
  analysis_time : string
}.

(** The keys of [config.json] that [get_all_databases] reads. *)
Record config : Type := {
  central_db : string;
  tenant_db_pattern : option string
}.

Module MariaDBSchemaOptimizer.

Definition excluded_dbs : list string :=
  ["information_schema"; "performance_schema"; "mysql"; "sys"]%string.

(** [get_all_databases], from the answer [dbs] of [SHOW DATABASES] on. *)
Definition get_all_databases (config : config) (dbs : list string) : list string :=
  let db_pattern :=
    match tenant_db_pattern config with
    | Some pattern => pattern
    | None => "tenant_1"%string
    end in
  filter
    (fun db =>
       negb (existsb (String.eqb db) excluded_dbs)
       && (String.eqb db (central_db config)
           || String.prefix (before_first "%" db_pattern) db))
    dbs.

Section Lower.

(** [str.lower] *)
Variable lower : string -> string.

(** [suggest_optimized_type(column, max_length)] *)
Definition suggest_optimized_type (column : schema_column)
    (max_length : option Z) : string :=
  let data_type := lower (data_type column) in
  let char_max_length := character_maximum_length column in
  let num_precision := numeric_precision column in
  let num_scale := numeric_scale column in
  if String.eqb data_type "varchar" || String.eqb data_type "char" then
    match max_length with
    | None =>
        (data_type
         ++ match char_max_length with
            | Some n =>
                if negb (Z.eqb n 0) then "(" ++ str_of_int n ++ ")"
                else EmptyString
            | None => EmptyString
            end)%string
    | Some max_length =>
        if (max_length <=? 8)%Z && String.eqb data_type "varchar" then
          ("CHAR(" ++ str_of_int max_length ++ ")")%string
        else if (max_length <=? 255)%Z then
          ("VARCHAR(" ++ str_of_int max_length ++ ")")%string
        else if (max_length <=? 65535)%Z then "TEXT"%string
        else if (max_length <=? 16777215)%Z then "MEDIUMTEXT"%string
        else "LONGTEXT"%string
    end
  else if String.eqb data_type "int" || String.eqb data_type "bigint"
          || String.eqb data_type "smallint" || String.eqb data_type "tinyint" then
    match max_length with
    | None => data_type
    | Some max_length =>
        if String.eqb data_type "int" && (max_length <? 5)%Z then
          "SMALLINT"%string
        else if String.eqb data_type "int" && (max_length <? 3)%Z then
          "TINYINT"%string
        else if String.eqb data_type "bigint" && (max_length <? 10)%Z then
          "INT"%string
        else data_type
    end
  else if String.eqb data_type "decimal" then
    match num_precision, num_scale with
    | Some p, Some s =>
        if negb (Z.eqb p 0) && negb (Z.eqb s 0) then
          ("DECIMAL(" ++ str_of_int p ++ "," ++ str_of_int s ++ ")")%string
        else "DECIMAL(10,2)"%string
    | _, _ => "DECIMAL(10,2)"%string
    end
  else if String.eqb data_type "datetime" || String.eqb data_type "timestamp" then
    data_type
  else data_type.

(** The entry [analyze_database] appends for a column of [table] whose
    longest value has [max_length] characters; [now] is
    [datetime.now().isoformat()]. *)
Definition schema_entry (database table : string) (column : schema_column)
    (max_length : option Z) (now : string) : report_row :=
  {| database := database;
     table := table;
     column := column_name column;
     current_type := data_type column;
     max_length := max_length;
     nullable := is_nullable column;
     has_default := match column_default column with Some _ => true | None => false end;
     optimized_type := suggest_optimized_type column max_length;
     analysis_time := now |}.

(** [optimizations] of [generate_summary_report]: the entries whose two
    types differ, letter case apart. *)
Definition optimizations (data : list report_row) : nat :=
  List.length
    (filter
       (fun row =>
          negb (String.eqb (lower (optimized_type row)) (lower (current_type row))))
       data).

End Lower.

End MariaDBSchemaOptimizer.

(** A type whose suggestion is the type itself: no text, no decimal, and
    no [int] or [bigint] that was measured. *)
Definition keeps_type (lower : string -> string) (column : schema_column)
    (max_length : option Z) : Prop :=
  let data_type := lower (data_type column) in
  data_type <> "varchar"%string /\ data_type <> "char"%string
  /\ data_type <> "decimal"%string
  /\ (max_length = None
      \/ (data_type <> "int"%string /\ data_type <> "bigint"%string)).

(** [str.lower] on the letters of ASCII, for examples. *)
Definition ascii_lower_char (c : ascii) : ascii :=
  let n := nat_of_ascii c in
  if (65 <=? n) && (n <=? 90) then ascii_of_nat (n + 32) else c.

Fixpoint ascii_lower (s : string) : string :=
  match s with
  | EmptyString => EmptyString
  | String c rest => String (ascii_lower_char c) (ascii_lower rest)
  end.

Definition example_column (type : string) (length precision scale : option Z)
    : schema_column :=
  {| column_name := "amount";
     data_type := type;
     character_maximum_length := length;
     numeric_precision := precision;
     numeric_scale := scale;
     is_nullable := "YES";
     column_default := None |}.

(* ------------------------------------------------------------------ *)
(** *** build-sql.py *)

Module BuildSql.

(** A row as [csv.DictReader] yields it: the text under each name of the
    header, and [None] under the names a short line has no value for. *)
Definition row : Type := list (string * option string).

Fixpoint row_lookup (r : row) (key : string) : option (option string) :=
  match r with
  | [] => None
  | (k, v) :: rest => if String.eqb k key then Some v else row_lookup rest key
  end.

(** What ends the work on a row: the [ValueError] the loop raises itself,
    or the [AttributeError] of [None.strip()]. *)
Inductive row_error : Type :=
| MissingValue
| NotText.

Section Strip.

(** [str.strip] *)
Variable strip : string -> string.

(** [row.get(key, "").strip()] *)
Definition get_stripped (r : row) (key : string) : string + row_error :=
  match row_lookup r key with
  | None => inl (strip EmptyString)
  | Some (Some text) => inl (strip text)
  | Some None => inr NotText
  end.

Definition non_empty (s : string) : bool := negb (String.eqb s EmptyString).

Definition alter_query (db tbl col current optimized : string) : string :=
  ("-- Cambio recomendado para " ++ db ++ "." ++ tbl ++ "." ++ col ++ nl
   ++ "-- Tipo actual: " ++ current ++ " | Tipo sugerido: " ++ optimized ++ nl
   ++ "ALTER TABLE " ++ db ++ "." ++ tbl ++ " MODIFY COLUMN " ++ col ++ " "
   ++ optimized ++ ";" ++ nl ++ nl)%string.

(** The body of the inner [try] for one row. *)
Definition row_query (r : row) : string + row_error :=
  match get_stripped r "database" with
  | inr e => inr e
  | inl db =>
  match get_stripped r "table" with
  | inr e => inr e
  | inl tbl =>
  match get_stripped r "column" with
  | inr e => inr e
  | inl col =>
  match get_stripped r "current_type" with
  | inr e => inr e
  | inl current =>
  match get_stripped r "optimized_type" with
  | inr e => inr e
  | inl optimized =>
      if negb (non_empty db && non_empty tbl && non_empty col
               && non_empty current && non_empty optimized)
      then inr MissingValue
      else inl (alter_query db tbl col current optimized)
  end end end end end.

(** [generate_alter_queries], from the rows of the CSV file on: a row that
    raises is reported and passed over. *)
Definition generate_alter_queries (rows : list row) : list string :=
  fold_left
    (fun queries r =>
       match row_query r with
       | inl alter_query => queries ++ [alter_query]
       | inr _ => queries
       end)
    rows [].

(** The text of a field that holds text, stripped. *)
Definition stripped (r : row) (key : string) : option string :=
  match row_lookup r key with
  | Some (Some text) => Some (strip text)
  | _ => None
  end.

(** A row with text that is not blank in each of the five fields. *)
Definition complete (r : row) : bool :=
  forallb
    (fun key =>
       match stripped r key with
       | Some text => non_empty text
       | None => false
       end)
    ["database"; "table"; "column"; "current_type"; "optimized_type"]%string.

Definition text_of (r : row) (key : string) : string :=
  match stripped r key with
  | Some text => text
  | None => EmptyString
  end.

(** The statement for a complete row. *)
Definition statement_of (r : row) : string :=
  alter_query (text_of r "database") (text_of r "table") (text_of r "column")
    (text_of r "current_type") (text_of r "optimized_type").

End Strip.

End BuildSql.

(* ================================================================== *)
(** ** Basic facts *)

Lemma list_max_In (n : nat) (l : list nat) : In n l -> n <= list_max l.
Proof.
  intros Hin.
  assert (H : Forall (fun k => k <= list_max l) l)
    by (apply list_max_le; apply Nat.le_refl).
  rewrite Forall_forall in H. now apply H.
Qed.

Lemma height_item (x : value) (items : list value) :
  In x items -> height x < height (VList items).
Proof.
  intros Hin. simpl. apply Nat.lt_succ_r, list_max_In.
  now apply in_map.
Qed.

Lemma height_entry (k : string) (v : value) (m : dict) :
  In (k, v) m -> height v < height (VDict m).
Proof.
  intros Hin. simpl. apply Nat.lt_succ_r, list_max_In.
  change (height v) with ((fun kv : string * value => height (snd kv)) (k, v)).
  now apply in_map.
Qed.

Lemma height_induction (P : value -> Prop) :
  (forall v, (forall w, height w < height v -> P w) -> P v) ->
  forall v, P v.
Proof.
  intros step v.
  remember (height v) as n eqn:Hn. revert v Hn.
  induction n as [n IH] using lt_wf_ind.
  intros v ->. apply step. intros w Hw. now apply (IH (height w)).
Qed.

Lemma dict_lookup_In (m : dict) (k : string) (v : value) :
  dict_lookup m k = Some v -> In (k, v) m.
Proof.
  induction m as [|[k0 w] m IH]; simpl; [discriminate|].
  destruct (String.eqb_spec k k0) as [->|Hne].
  - intros [= ->]. now left.
  - intros H. right. now apply IH.
Qed.

Lemma dict_lookup_height (m : dict) (k : string) (v : value) :
  dict_lookup m k = Some v -> height v < height (VDict m).
Proof. intros H. eapply height_entry, dict_lookup_In, H. Qed.

Lemma dict_lookup_None (m : dict) (k : string) :
  dict_lookup m k = None <-> ~ In k (dict_keys m).
Proof.
  induction m as [|[k0 w] m IH]; simpl.
  - tauto.
  - destruct (String.eqb_spec k k0) as [->|Hne].
    + split; [discriminate|]. intros H. exfalso. apply H. now left.
    + rewrite IH. split.
      * intros H [Heq|Hin]; [now apply Hne|now apply H].
      * intros H Hin. apply H. now right.
Qed.

Lemma dict_lookup_keys (m : dict) (k : string) :
  In k (dict_keys m) -> exists v, dict_lookup m k = Some v.
Proof.
  intros Hin. destruct (dict_lookup m k) as [v|] eqn:E.
  - now exists v.
  - apply dict_lookup_None in E. contradiction.
Qed.

Lemma dict_contains_keys (m : dict) (k : string) :
  dict_contains m k = true <-> In k (dict_keys m).
Proof.
  unfold dict_contains. split.
  - intros H. destruct (dict_lookup m k) eqn:E; [|discriminate].
    destruct (in_dec string_dec k (dict_keys m)) as [Hin|Hout]; [assumption|].
    apply dict_lookup_None in Hout. congruence.
  - intros Hin. apply dict_lookup_keys in Hin as [v ->]. reflexivity.
Qed.

Lemma dict_lookup_setitem (m : dict) (k k' : string) (v : value) :
  dict_lookup (dict_setitem m k v) k' =
  if String.eqb k' k then Some v else dict_lookup m k'.
Proof.
  induction m as [|[k0 w] m IH]; simpl.
  - reflexivity.
  - destruct (String.eqb_spec k k0) as [->|Hne]; simpl.
    + destruct (String.eqb k' k0); reflexivity.
    + rewrite IH.
      destruct (String.eqb_spec k' k0) as [->|Hne'].
      * destruct (String.eqb_spec k0 k) as [Heq|_]; [now symmetry in Heq|reflexivity].
      * reflexivity.
Qed.

Lemma dict_keys_setitem (m : dict) (k : string) (v : value) :
  dict_keys (dict_setitem m k v) =
  if dict_contains m k then dict_keys m else dict_keys m ++ [k].
Proof.
  unfold dict_contains.
  induction m as [|[k0 w] m IH]; simpl.
  - reflexivity.
  - destruct (String.eqb_spec k k0) as [->|Hne]; simpl.
    + reflexivity.
    + rewrite IH. now destruct (dict_lookup m k).
Qed.

Lemma dict_truthy_setitem (m : dict) (k : string) (v : value) :
  dict_truthy (dict_setitem m k v) = true.
Proof.
  destruct m as [|[k0 w] m]; simpl; [reflexivity|].
  now destruct (String.eqb k k0).
Qed.

Lemma option_of_Some (v r : value) : option_of v = Some r -> r = v /\ v <> VNone.
Proof.
  unfold option_of. destruct v; simpl; intros [= <-]; split; congruence.
Qed.

Lemma option_of_None (v : value) : option_of v = None <-> v = VNone.
Proof.
  unfold option_of. destruct v; simpl; split; congruence.
Qed.

Lemma deepcopy_id (v : value) : deepcopy v = v.
Proof.
  induction v as [v IH] using height_induction.
  destruct v as [| | | | |items|entries]; simpl; try reflexivity.
  - f_equal. rewrite <- (map_id items) at 2. apply map_ext_in.
    intros x Hx. apply IH. now apply height_item.
  - f_equal. rewrite <- (map_id entries) at 2. apply map_ext_in.
    intros [k x] Hx. simpl. f_equal. apply IH. eapply height_entry, Hx.
Qed.

(* ------------------------------------------------------------------ *)
(** *** Loops *)

Lemma for_each_ext (A St : Type) (f g : St -> A -> outcome St) (xs : list A) :
  (forall acc x, In x xs -> f acc x = g acc x) ->
  forall acc, for_each xs acc f = for_each xs acc g.
Proof.
  induction xs as [|x xs IH]; intros Hfg acc; simpl.
  - reflexivity.
  - rewrite Hfg by now left.
    destruct (g acc x) as [acc'|e]; simpl; [|reflexivity].
    apply IH. intros acc0 y Hy. apply Hfg. now right.
Qed.

Lemma for_each_pure (A St : Type) (f : St -> A -> outcome St) (step : St -> A -> St)
    (xs : list A) :
  (forall acc x, In x xs -> f acc x = Returns (step acc x)) ->
  forall acc, for_each xs acc f = Returns (fold_left step xs acc).
Proof.
  induction xs as [|x xs IH]; intros Hf acc; simpl.
  - reflexivity.
  - rewrite Hf by now left. simpl.
    apply IH. intros acc0 y Hy. apply Hf. now right.
Qed.

(* ------------------------------------------------------------------ *)
(** *** What a mapping comparison collects *)

Lemma lookup_collect (f : string -> option value) (ks : list string) :
  forall (acc : dict) (k : string),
    dict_lookup (collect_from f ks acc) k =
    if in_dec string_dec k ks
    then match f k with Some v => Some v | None => dict_lookup acc k end
    else dict_lookup acc k.
Proof.
  unfold collect_from.
  induction ks as [|k0 ks IH]; intros acc k; simpl.
  - reflexivity.
  - rewrite IH.
    assert (Hstep :
      dict_lookup (match f k0 with Some v => dict_setitem acc k0 v | None => acc end) k
      = if String.eqb k k0
        then match f k0 with Some v => Some v | None => dict_lookup acc k end
        else dict_lookup acc k).
    { destruct (f k0) as [v|].
      - apply dict_lookup_setitem.
      - now destruct (String.eqb k k0). }
    rewrite Hstep.
    destruct (string_dec k0 k) as [->|Hne].
    + rewrite String.eqb_refl.
      destruct (in_dec string_dec k ks); now destruct (f k).
    + destruct (String.eqb_spec k k0) as [Heq|_]; [now symmetry in Heq|].
      destruct (in_dec string_dec k ks); reflexivity.
Qed.

Lemma keys_collect (f : string -> option value) (ks : list string) :
  NoDup ks ->
  forall acc : dict,
    (forall k, In k ks -> ~ In k (dict_keys acc)) ->
    dict_keys (collect_from f ks acc) =
    dict_keys acc ++ filter (fun k => match f k with Some _ => true | None => false end) ks.
Proof.
  unfold collect_from.
  induction ks as [|k0 ks IH]; intros Hnd acc Hfresh; simpl.
  - now rewrite app_nil_r.
  - inversion Hnd as [|? ? Hk0 Hnd']; subst.
    destruct (f k0) as [v|] eqn:E.
    + rewrite IH; [|assumption|].
      * rewrite dict_keys_setitem.
        destruct (dict_contains acc k0) eqn:C.
        -- apply dict_contains_keys in C. exfalso. apply (Hfresh k0); [now left|assumption].
        -- now rewrite <- app_assoc.
      * intros k Hk. rewrite dict_keys_setitem.
        destruct (dict_contains acc k0).
        -- apply Hfresh. now right.
        -- rewrite in_app_iff. intros [Hin|[->|[]]].
           ++ apply (Hfresh k); [now right|assumption].
           ++ contradiction.
    + apply IH; [assumption|]. intros k Hk. apply Hfresh. now right.
Qed.

Lemma finish_None (m : dict) : finish m = VNone <-> m = [].
Proof. unfold finish. destruct m; simpl; split; congruence. Qed.

Lemma finish_Some (m : dict) : m <> [] -> finish m = VDict m.
Proof. unfold finish. destruct m; simpl; congruence. Qed.

(* ================================================================== *)
(** ** main.py: the recursion and its result *)

Lemma Main_body_ext (f g : value -> value -> outcome value) (l d : value) :
  (forall l' d', height l' < height l -> f l' d' = g l' d') ->
  Main.compare_and_extract_diff_body f l d =
  Main.compare_and_extract_diff_body g l d.
Proof.
  intros Hfg. unfold Main.compare_and_extract_diff_body.
  destruct (negb _ || negb _); [reflexivity|].
  destruct l as [| | | | | items | le]; try reflexivity.
  f_equal. apply for_each_ext. intros acc k _.
  unfold dict_getitem.
  destruct (dict_lookup le k) as [li|] eqn:E; simpl; [|reflexivity].
  destruct (py_get d k) as [di|]; simpl; [|reflexivity].
  destruct (py_in k d) as [b|]; simpl; [|reflexivity].
  destruct (negb b); [reflexivity|].
  rewrite Hfg; [reflexivity|]. eapply dict_lookup_height, E.
Qed.

Lemma Main_upto_stable (n m : nat) :
  forall l d, height l < n -> height l < m ->
    Main.compare_upto n l d = Main.compare_upto m l d.
Proof.
  revert m. induction n as [|n IH]; intros m l d Hn Hm; [lia|].
  destruct m as [|m]; [lia|]. simpl.
  apply Main_body_ext. intros l' d' Hl'. apply IH; lia.
Qed.

(** The function satisfies the recursive equation of the source. *)
Lemma Main_unfold (l d : value) :
  Main.compare_and_extract_diff l d =
  Main.compare_and_extract_diff_body Main.compare_and_extract_diff l d.
Proof.
  unfold Main.compare_and_extract_diff at 1. simpl.
  apply Main_body_ext. intros l' d' Hl'.
  unfold Main.compare_and_extract_diff. apply Main_upto_stable; lia.
Qed.

Lemma guard_false_dict (le : dict) (d : value) :
  negb (Bool.eqb (isinstance_map (VDict le)) (isinstance_map d))
  || negb (Bool.eqb (isinstance_seq (VDict le)) (isinstance_seq d)) = false ->
  exists de, d = VDict de.
Proof. destruct d; simpl; try discriminate. intros _. now eexists. Qed.

Lemma Main_loop_step (le de : dict) (acc : dict) (k : string) :
  In k (dict_keys le) ->
  (forall li, dict_lookup le k = Some li ->
     Main.compare_and_extract_diff li (dict_get de k) =
     Returns (Main.diff li (dict_get de k))) ->
  (local_item <- dict_getitem le k ;;
   default_item <- py_get (VDict de) k ;;
   key_in_default <- py_in k (VDict de) ;;
   if negb key_in_default then
     if is_not_none local_item
     then Returns (dict_setitem acc k local_item)
     else Returns acc
   else
     sub_diff <- Main.compare_and_extract_diff local_item default_item ;;
     if is_not_none sub_diff
     then Returns (dict_setitem acc k sub_diff)
     else Returns acc)
  = Returns (match entry_diff Main.diff le de k with
             | Some v => dict_setitem acc k v
             | None => acc
             end).
Proof.
  intros Hin Hrec. unfold entry_diff, dict_getitem.
  destruct (dict_lookup_keys _ _ Hin) as [li E]. rewrite E. simpl.
  specialize (Hrec li E).
  destruct (dict_contains de k); simpl.
  - rewrite Hrec. simpl. unfold option_of.
    now destruct (is_not_none (Main.diff li (dict_get de k))).
  - unfold option_of. now destruct (is_not_none li).
Qed.

Lemma Main_returns (l : value) :
  forall d, Main.compare_and_extract_diff l d = Returns (Main.diff l d).
Proof.
  induction l as [l IH] using height_induction. intros d.
  assert (Hex : exists v, Main.compare_and_extract_diff l d = Returns v).
  { rewrite Main_unfold. unfold Main.compare_and_extract_diff_body.
    destruct (negb _ || negb _) eqn:G; [eexists; reflexivity|].
    destruct l as [| | | | | items | le];
      try (destruct (py_ne _ d); eexists; reflexivity).
    destruct (guard_false_dict _ _ G) as [de ->].
    erewrite for_each_ext.
    2:{ intros acc k Hk. apply Main_loop_step; [exact Hk|].
        intros li E. apply IH. eapply dict_lookup_height, E. }
    erewrite for_each_pure by (intros; reflexivity).
    simpl. eexists; reflexivity. }
  destruct Hex as [v Hv]. unfold Main.diff. now rewrite Hv.
Qed.

Lemma Main_extract (l d : value) :
  Main.extractOverrides l d = Returns (option_of (Main.diff l d)).
Proof. unfold Main.extractOverrides. now rewrite Main_returns. Qed.

(** A mapping against a mapping. *)
Lemma Main_diff_dict (le de : dict) :
  Main.diff (VDict le) (VDict de) =
  finish (collect_from (entry_diff Main.diff le de) (dict_keys le) []).
Proof.
  unfold Main.diff at 1. rewrite Main_unfold.
  unfold Main.compare_and_extract_diff_body. simpl.
  erewrite for_each_ext.
  2:{ intros acc k Hk. apply Main_loop_step; [exact Hk|].
      intros li _. apply Main_returns. }
  erewrite for_each_pure by (intros; reflexivity).
  reflexivity.
Qed.

(** Every other pair of nodes. *)
Lemma Main_diff_leaf (l d : value) :
  isinstance_map l && isinstance_map d = false ->
  Main.diff l d =
  if negb (kind_eqb (kind_of l) (kind_of d)) || py_ne l d then l else VNone.
Proof.
  intros Hnd. unfold Main.diff. rewrite Main_unfold.
  unfold Main.compare_and_extract_diff_body, py_ne.
  destruct l, d; try discriminate Hnd; simpl; try reflexivity;
    match goal with
    | |- context [if negb ?c then _ else _] => now destruct c
    end.
Qed.

(* ================================================================== *)
(** ** main-ordered.py: the recursion and its result *)

Section MainOrderedRecursion.

Variable set_iter : MainOrdered.pyset -> list string.

Lemma MO_body_ext (f g : value -> value -> outcome value) (l d : value) :
  (forall l' d', height l' < height l -> f l' d' = g l' d') ->
  MainOrdered.compare_and_extract_diff_body set_iter f l d =
  MainOrdered.compare_and_extract_diff_body set_iter g l d.
Proof.
  intros Hfg. unfold MainOrdered.compare_and_extract_diff_body.
  destruct (negb _); [reflexivity|].
  destruct l as [| | | | | items | le]; try reflexivity.
  destruct (py_keys d) as [dks|]; simpl; [|reflexivity].
  f_equal. apply for_each_ext. intros acc k _.
  destruct (py_get d k) as [di|]; simpl; [|reflexivity].
  destruct (py_in k d) as [b|]; simpl; [|reflexivity].
  destruct (negb b); [reflexivity|].
  unfold dict_contains, dict_get.
  destruct (dict_lookup le k) as [li|] eqn:E; simpl; [|reflexivity].
  rewrite Hfg; [reflexivity|]. eapply dict_lookup_height, E.
Qed.

Lemma MO_upto_stable (n m : nat) :
  forall l d, height l < n -> height l < m ->
    MainOrdered.compare_upto set_iter n l d =
    MainOrdered.compare_upto set_iter m l d.
Proof.
  revert m. induction n as [|n IH]; intros m l d Hn Hm; [lia|].
  destruct m as [|m]; [lia|]. simpl.
  apply MO_body_ext. intros l' d' Hl'. apply IH; lia.
Qed.

(** The function satisfies the recursive equation of the source. *)
Lemma MO_unfold (l d : value) :
  MainOrdered.compare_and_extract_diff set_iter l d =
  MainOrdered.compare_and_extract_diff_body set_iter
    (MainOrdered.compare_and_extract_diff set_iter) l d.
Proof.
  unfold MainOrdered.compare_and_extract_diff at 1. simpl.
  apply MO_body_ext. intros l' d' Hl'.
  unfold MainOrdered.compare_and_extract_diff. apply MO_upto_stable; lia.
Qed.

Lemma MO_loop_step (le de : dict) (acc : dict) (k : string) :
  (forall li, dict_lookup le k = Some li ->
     MainOrdered.compare_and_extract_diff set_iter li (dict_get de k) = Returns ((MainOrdered.diff set_iter) li (dict_get de k))) ->
  (let local_item := dict_get le k in
   default_item <- py_get (VDict de) k ;;
   key_in_default <- py_in k (VDict de) ;;
   if negb key_in_default then
     if is_not_none local_item
     then Returns (dict_setitem acc k (deepcopy local_item))
     else Returns acc
   else if negb (dict_contains le k) then
     Returns acc
   else
     sub_diff <- MainOrdered.compare_and_extract_diff set_iter local_item default_item ;;
     if is_not_none sub_diff
     then Returns (dict_setitem acc k sub_diff)
     else Returns acc)
  = Returns (match entry_diff (MainOrdered.diff set_iter) le de k with
             | Some v => dict_setitem acc k v
             | None => acc
             end).
Proof.
  intros Hrec. unfold entry_diff. cbv zeta. simpl py_get. simpl py_in.
  destruct (dict_lookup le k) as [li|] eqn:E.
  - assert (Hget : dict_get le k = li) by (unfold dict_get; now rewrite E).
    assert (Hin : dict_contains le k = true)
      by (unfold dict_contains; now rewrite E).
    rewrite Hget, Hin. specialize (Hrec li eq_refl).
    destruct (dict_contains de k); simpl.
    + rewrite Hrec. simpl. unfold option_of.
      now destruct (is_not_none ((MainOrdered.diff set_iter) li (dict_get de k))).
    + rewrite deepcopy_id. unfold option_of. now destruct (is_not_none li).
  - assert (Hget : dict_get le k = VNone) by (unfold dict_get; now rewrite E).
    assert (Hin : dict_contains le k = false)
      by (unfold dict_contains; now rewrite E).
    rewrite Hget, Hin. now destruct (dict_contains de k).
Qed.

Lemma type_eq_dict (le : dict) (d : value) :
  negb (pytype_eqb (type_of (VDict le)) (type_of d)) = false ->
  exists de, d = VDict de.
Proof. destruct d; simpl; try discriminate. intros _. now eexists. Qed.

Lemma MO_returns (l : value) :
  forall d, MainOrdered.compare_and_extract_diff set_iter l d = Returns ((MainOrdered.diff set_iter) l d).
Proof.
  induction l as [l IH] using height_induction. intros d.
  assert (Hex : exists v, MainOrdered.compare_and_extract_diff set_iter l d = Returns v).
  { rewrite MO_unfold. unfold MainOrdered.compare_and_extract_diff_body.
    destruct (negb _) eqn:G; [destruct (is_not_none l); eexists; reflexivity|].
    destruct l as [| | | | | items | le];
      try (destruct (py_ne _ d); eexists; reflexivity).
    destruct (type_eq_dict _ _ G) as [de ->]. simpl py_keys.
    unfold bind at 1.
    erewrite for_each_ext.
    2:{ intros acc k Hk. apply MO_loop_step.
        intros li E. apply IH. eapply dict_lookup_height, E. }
    erewrite for_each_pure by (intros; reflexivity).
    simpl. eexists; reflexivity. }
  destruct Hex as [v Hv]. unfold MainOrdered.diff. now rewrite Hv.
Qed.

Lemma MO_extract (l d : value) :
  MainOrdered.extractOverrides set_iter l d = Returns (option_of ((MainOrdered.diff set_iter) l d)).
Proof.
  unfold MainOrdered.extractOverrides. now rewrite MO_returns.
Qed.

(** A mapping against a mapping. *)
Lemma MO_diff_dict (le de : dict) :
  (MainOrdered.diff set_iter) (VDict le) (VDict de) =
  finish (collect_from (entry_diff (MainOrdered.diff set_iter) le de)
            (set_iter (MainOrdered.set_union
                         (MainOrdered.set_of (dict_keys le))
                         (MainOrdered.set_of (dict_keys de)))) []).
Proof.
  unfold MainOrdered.diff at 1. rewrite MO_unfold.
  unfold MainOrdered.compare_and_extract_diff_body. simpl.
  erewrite for_each_ext.
  2:{ intros acc k Hk. apply MO_loop_step.
      intros li _. apply MO_returns. }
  erewrite for_each_pure by (intros; reflexivity).
  reflexivity.
Qed.

(** Every other pair of nodes. *)
Lemma MO_diff_leaf (l d : value) :
  isinstance_map l && isinstance_map d = false ->
  (MainOrdered.diff set_iter) l d =
  if negb (pytype_eqb (type_of l) (type_of d)) || py_ne l d then l else VNone.
Proof.
  intros Hnd. unfold MainOrdered.diff. rewrite MO_unfold.
  unfold MainOrdered.compare_and_extract_diff_body, py_ne.
  rewrite !deepcopy_id.
  destruct l, d; try discriminate Hnd; simpl; try reflexivity;
    match goal with
    | |- context [if negb ?c then _ else _] => now destruct c
    end.
Qed.

End MainOrderedRecursion.

(* ================================================================== *)
(** ** The scenarios of the specification *)

Example scenario_changed_key :
  Main.extractOverrides
    (VDict [("a"%string, VInt 1); ("b"%string, VInt 2)])
    (VDict [("a"%string, VInt 1); ("b"%string, VInt 3)])
  = Returns (Some (VDict [("b"%string, VInt 2)]))
  /\ MainOrdered.extractOverrides MainOrdered.insertion_order
       (VDict [("a"%string, VInt 1); ("b"%string, VInt 2)])
       (VDict [("a"%string, VInt 1); ("b"%string, VInt 3)])
     = Returns (Some (VDict [("b"%string, VInt 2)])).
Proof. split; reflexivity. Qed.

Example scenario_nested_key :
  Main.extractOverrides
    (VDict [("a"%string, VDict [("x"%string, VInt 1); ("y"%string, VInt 2)])])
    (VDict [("a"%string, VDict [("x"%string, VInt 1); ("y"%string, VInt 1)])])
  = Returns (Some (VDict [("a"%string, VDict [("y"%string, VInt 2)])]))
  /\ MainOrdered.extractOverrides MainOrdered.insertion_order
       (VDict [("a"%string, VDict [("x"%string, VInt 1); ("y"%string, VInt 2)])])
       (VDict [("a"%string, VDict [("x"%string, VInt 1); ("y"%string, VInt 1)])])
     = Returns (Some (VDict [("a"%string, VDict [("y"%string, VInt 2)])])).
Proof. split; reflexivity. Qed.

Example scenario_sequence_replaced :
  Main.extractOverrides
    (VDict [("tags"%string, VList [VStr "x"])])
    (VDict [("tags"%string, VList [VStr "x"; VStr "y"])])
  = Returns (Some (VDict [("tags"%string, VList [VStr "x"])]))
  /\ MainOrdered.extractOverrides MainOrdered.insertion_order
       (VDict [("tags"%string, VList [VStr "x"])])
       (VDict [("tags"%string, VList [VStr "x"; VStr "y"])])
     = Returns (Some (VDict [("tags"%string, VList [VStr "x"])])).
Proof. split; reflexivity. Qed.

Example scenario_empty_local :
  Main.extractOverrides (VDict []) (VDict [("a"%string, VInt 1)]) = Returns None
  /\ MainOrdered.extractOverrides MainOrdered.insertion_order
       (VDict []) (VDict [("a"%string, VInt 1)]) = Returns None.
Proof. split; reflexivity. Qed.

Example scenario_new_key :
  Main.extractOverrides (VDict [("newKey"%string, VStr "v")]) (VDict [])
  = Returns (Some (VDict [("newKey"%string, VStr "v")]))
  /\ MainOrdered.extractOverrides MainOrdered.insertion_order
       (VDict [("newKey"%string, VStr "v")]) (VDict [])
     = Returns (Some (VDict [("newKey"%string, VStr "v")])).
Proof. split; reflexivity. Qed.

(* ================================================================== *)
(** ** Properties of the two scripts *)

Lemma kinds_differ (l d : value) :
  kind_of l <> kind_of d ->
  isinstance_map l && isinstance_map d = false
  /\ kind_eqb (kind_of l) (kind_of d) = false
  /\ pytype_eqb (type_of l) (type_of d) = false.
Proof. destruct l, d; simpl; intros H; try (now repeat split); now elim H. Qed.

Lemma kinds_equal_dict (le : dict) (d : value) :
  kind_of (VDict le) = kind_of d -> exists de, d = VDict de.
Proof. destruct d; simpl; try discriminate. intros _. now eexists. Qed.

Lemma kinds_equal_not_dict (l d : value) :
  isinstance_map l = false -> isinstance_map l && isinstance_map d = false.
Proof. now intros ->. Qed.

Lemma lookup_collect_nil (f : string -> option value) (ks : list string)
    (k : string) :
  dict_lookup (collect_from f ks []) k =
  if in_dec string_dec k ks then f k else None.
Proof.
  rewrite lookup_collect. simpl.
  destruct (in_dec string_dec k ks); [now destruct (f k)|reflexivity].
Qed.

Lemma collect_all_none (f : string -> option value) (ks : list string)
    (acc : dict) :
  (forall k, In k ks -> f k = None) -> collect_from f ks acc = acc.
Proof.
  unfold collect_from. revert acc.
  induction ks as [|k ks IH]; intros acc Hf; simpl; [reflexivity|].
  rewrite (Hf k) by now left. apply IH. intros k' Hk'. apply Hf. now right.
Qed.

Lemma option_of_finish (m : dict) (D : value) :
  option_of (finish m) = Some D -> D = VDict m /\ m <> [].
Proof.
  unfold finish. destruct m as [|e m]; simpl; [discriminate|].
  intros [= <-]. split; [reflexivity|discriminate].
Qed.

Lemma leaf_result (c : bool) (l : value) :
  isinstance_map l = false ->
  forall m, option_of (if c then l else VNone) <> Some (VDict m).
Proof.
  intros Hl m. destruct c; [|discriminate].
  intros H. apply option_of_Some in H as [<- _]. discriminate Hl.
Qed.

(** C7 — kind mismatch: when the kinds of the two trees differ, the result
    is the whole local tree if local is not null, and absent if it is. *)
Theorem C7_kind_mismatch (set_iter : MainOrdered.pyset -> list string)
    (l d : value) :
  kind_of l <> kind_of d ->
  Main.extractOverrides l d = Returns (if is_not_none l then Some l else None)
  /\ MainOrdered.extractOverrides set_iter l d =
     Returns (if is_not_none l then Some l else None).
Proof.
  intros Hk. destruct (kinds_differ _ _ Hk) as (Hnd & Hkind & Htype).
  rewrite Main_extract, MO_extract, Main_diff_leaf, MO_diff_leaf by assumption.
  rewrite Hkind, Htype. simpl. now split.
Qed.

Lemma C7_kind_mismatch_witness :
  kind_of (VDict [("a"%string, VInt 1)]) <> kind_of (VInt 5)
  /\ Main.extractOverrides (VDict [("a"%string, VInt 1)]) (VInt 5)
     = Returns (Some (VDict [("a"%string, VInt 1)]))
  /\ MainOrdered.extractOverrides MainOrdered.insertion_order
       (VDict [("a"%string, VInt 1)]) (VInt 5)
     = Returns (Some (VDict [("a"%string, VInt 1)])).
Proof.
  split; [discriminate|].
  apply (C7_kind_mismatch MainOrdered.insertion_order
           (VDict [("a"%string, VInt 1)]) (VInt 5)).
  discriminate.
Defined.

(** C10 — no empty mapping: when the kinds of the two trees match, a result
    that is a mapping has at least one key; a comparison of mappings in
    which every local key matches its default has no result at all. *)
Theorem C10_no_empty_mapping (set_iter : MainOrdered.pyset -> list string)
    (l d : value) :
  kind_of l = kind_of d ->
  (forall m, Main.extractOverrides l d = Returns (Some (VDict m)) -> m <> [])
  /\ (forall m, MainOrdered.extractOverrides set_iter l d
                = Returns (Some (VDict m)) -> m <> [])
  /\ (forall le de, l = VDict le -> d = VDict de ->
        (forall k li, dict_lookup le k = Some li ->
           dict_contains de k = true
           /\ Main.extractOverrides li (dict_get de k) = Returns None) ->
        Main.extractOverrides l d = Returns None)
  /\ (forall le de, l = VDict le -> d = VDict de ->
        (forall k li, dict_lookup le k = Some li ->
           dict_contains de k = true
           /\ MainOrdered.extractOverrides set_iter li (dict_get de k)
              = Returns None) ->
        MainOrdered.extractOverrides set_iter l d = Returns None).
Proof.
  intros Hk. repeat apply conj.
  - intros m. rewrite Main_extract. intros [= H].
    destruct (isinstance_map l) eqn:Hl.
    + destruct l; try discriminate Hl.
      destruct (kinds_equal_dict _ _ Hk) as [de ->].
      rewrite Main_diff_dict in H.
      apply option_of_finish in H as [[= <-] Hne]. exact Hne.
    + rewrite Main_diff_leaf in H by now apply kinds_equal_not_dict.
      now apply leaf_result in H.
  - intros m. rewrite MO_extract. intros [= H].
    destruct (isinstance_map l) eqn:Hl.
    + destruct l; try discriminate Hl.
      destruct (kinds_equal_dict _ _ Hk) as [de ->].
      rewrite MO_diff_dict in H.
      apply option_of_finish in H as [[= <-] Hne]. exact Hne.
    + rewrite MO_diff_leaf in H by now apply kinds_equal_not_dict.
      now apply leaf_result in H.
  - intros le de -> -> Hall. rewrite Main_extract, Main_diff_dict.
    rewrite collect_all_none; [reflexivity|].
    intros k _. unfold entry_diff.
    destruct (dict_lookup le k) as [li|] eqn:E; [|reflexivity].
    destruct (Hall k li E) as [-> Hsub].
    rewrite Main_extract in Hsub. now injection Hsub.
  - intros le de -> -> Hall. rewrite MO_extract, MO_diff_dict.
    rewrite collect_all_none; [reflexivity|].
    intros k _. unfold entry_diff.
    destruct (dict_lookup le k) as [li|] eqn:E; [|reflexivity].
    destruct (Hall k li E) as [-> Hsub].
    rewrite MO_extract in Hsub. now injection Hsub.
Qed.

Lemma C10_no_empty_mapping_witness :
  kind_of (VDict [("a"%string, VInt 1); ("b"%string, VInt 2)])
  = kind_of (VDict [("a"%string, VInt 1); ("b"%string, VInt 3)])
  /\ [("b"%string, VInt 2)] <> [].
Proof.
  split; [reflexivity|].
  apply (C10_no_empty_mapping MainOrdered.insertion_order
           (VDict [("a"%string, VInt 1); ("b"%string, VInt 2)])
           (VDict [("a"%string, VInt 1); ("b"%string, VInt 3)])
           eq_refl).
  reflexivity.
Defined.

Lemma Main_diff_null (d : value) : Main.diff VNone d = VNone.
Proof.
  rewrite Main_diff_leaf by reflexivity.
  now destruct (negb _ || _).
Qed.

Lemma MO_diff_null (set_iter : MainOrdered.pyset -> list string) (d : value) :
  MainOrdered.diff set_iter VNone d = VNone.
Proof.
  rewrite MO_diff_leaf by reflexivity.
  now destruct (negb _ || _).
Qed.

Lemma entry_diff_null (diff : value -> value -> value) (le de : dict)
    (k : string) :
  (forall d, diff VNone d = VNone) ->
  dict_lookup le k = Some VNone -> entry_diff diff le de k = None.
Proof.
  intros Hnull E. unfold entry_diff. rewrite E, Hnull.
  now destruct (dict_contains de k).
Qed.

Lemma collected_key_dropped (f : string -> option value) (ks : list string)
    (k : string) (D : value) :
  f k = None ->
  option_of (finish (collect_from f ks [])) = Some D -> has_key D k = false.
Proof.
  intros Hf H. apply option_of_finish in H as [-> _].
  unfold has_key, dict_contains. rewrite lookup_collect_nil, Hf.
  now destruct (in_dec string_dec k ks).
Qed.

(** C5 — dropped nulls: a key whose local value is null and which the
    defaults do not have is left out of the result; a local null against a
    non-null default gives no result; comparing [{a: null}] with [{a: 1}]
    gives no result. *)
Theorem C5_dropped_null (set_iter : MainOrdered.pyset -> list string)
    (le de : dict) (k : string) (d : value) :
  dict_lookup le k = Some VNone ->
  dict_contains de k = false ->
  is_not_none d = true ->
  (forall D, Main.extractOverrides (VDict le) (VDict de) = Returns (Some D) ->
             has_key D k = false)
  /\ (forall D, MainOrdered.extractOverrides set_iter (VDict le) (VDict de)
                = Returns (Some D) -> has_key D k = false)
  /\ Main.extractOverrides VNone d = Returns None
  /\ MainOrdered.extractOverrides set_iter VNone d = Returns None
  /\ Main.extractOverrides (VDict [("a"%string, VNone)])
       (VDict [("a"%string, VInt 1)]) = Returns None
  /\ MainOrdered.extractOverrides set_iter (VDict [("a"%string, VNone)])
       (VDict [("a"%string, VInt 1)]) = Returns None.
Proof.
  intros Hk Hde Hd. repeat apply conj.
  - intros D. rewrite Main_extract, Main_diff_dict. intros [= H].
    eapply collected_key_dropped; [|exact H].
    apply entry_diff_null; [apply Main_diff_null|exact Hk].
  - intros D. rewrite MO_extract, MO_diff_dict. intros [= H].
    eapply collected_key_dropped; [|exact H].
    apply entry_diff_null; [apply MO_diff_null|exact Hk].
  - now rewrite Main_extract, Main_diff_null.
  - now rewrite MO_extract, MO_diff_null.
  - reflexivity.
  - rewrite MO_extract, MO_diff_dict.
    rewrite collect_all_none; [reflexivity|].
    intros key _. unfold entry_diff. simpl dict_lookup.
    destruct (String.eqb key "a"); [|reflexivity].
    rewrite MO_diff_null. now destruct (dict_contains _ key).
Qed.

Lemma C5_dropped_null_witness :
  has_key (VDict [("b"%string, VInt 2)]) "a"%string = false.
Proof.
  apply (C5_dropped_null MainOrdered.insertion_order
           [("a"%string, VNone); ("b"%string, VInt 2)] [] "a"%string (VInt 1)
           eq_refl eq_refl eq_refl).
  reflexivity.
Defined.

(** C4, as the code has it — at a node where both trees are scalars or both
    are null, main-ordered.py gives no result exactly when both are null or
    the scalars have the same type and the same value, and the local value
    otherwise; main.py does the same with Python's [==] as the equality of
    scalars, which identifies [True], [1] and [1.0].  Under both equalities
    the string ["1"] differs from the integer [1]. *)
Theorem C4_scalar_rule (set_iter : MainOrdered.pyset -> list string)
    (a b : value) :
  is_leaf_pair a b = true ->
  scalar_null_rule scalar_equal (MainOrdered.extractOverrides set_iter) a b
  /\ scalar_null_rule py_eq Main.extractOverrides a b
  /\ scalar_equal (VStr "1") (VInt 1) = false
  /\ py_eq (VStr "1") (VInt 1) = false.
Proof.
  intros Hleaf. unfold scalar_null_rule.
  rewrite Main_extract, MO_extract.
  rewrite Main_diff_leaf, MO_diff_leaf by (now destruct a).
  unfold py_ne.
  destruct a, b; try discriminate Hleaf; simpl; repeat apply conj;
    try reflexivity;
    match goal with
    | |- context [negb ?c] => now destruct c
    end.
Qed.

Lemma C4_scalar_rule_witness :
  scalar_null_rule py_eq Main.extractOverrides (VInt 1) (VInt 2).
Proof.
  apply (C4_scalar_rule MainOrdered.insertion_order (VInt 1) (VInt 2) eq_refl).
Defined.

(** C4, as stated, fails in main.py: [True] and [1] are scalars of
    different types, yet comparing them gives no result. *)
Lemma C4_counterexample :
  ~ scalar_null_rule scalar_equal Main.extractOverrides (VBool true) (VInt 1).
Proof. unfold scalar_null_rule. vm_compute. discriminate. Qed.


(* ================================================================== *)
(** ** Equality of a tree with itself *)

Lemma py_eq_list (xs ys : list value) :
  py_eq (VList xs) (VList ys) = true <->
  Forall2 (fun x y => py_eq x y = true) xs ys.
Proof.
  simpl. revert ys.
  induction xs as [|x xs IH]; intros [|y ys]; split; intros H;
    try discriminate; try constructor; try solve [inversion H].
  - now apply andb_true_iff in H.
  - apply IH. now apply andb_true_iff in H.
  - inversion H; subst. apply andb_true_iff. split; [assumption|now apply IH].
Qed.

Lemma py_eq_dict (m n : dict) :
  py_eq (VDict m) (VDict n) =
  Nat.eqb (List.length m) (List.length n)
  && forallb (fun kv => match dict_lookup n (fst kv) with
                        | Some w => py_eq (snd kv) w
                        | None => false
                        end) m.
Proof.
  simpl. f_equal.
  induction m as [|[k v] m IH]; simpl; [reflexivity|].
  destruct (dict_lookup n k); [|reflexivity]. now rewrite IH.
Qed.

Lemma distinct_lookup (m : dict) (k : string) (v : value) :
  distinct (map fst m) = true -> In (k, v) m -> dict_lookup m k = Some v.
Proof.
  induction m as [|[k0 w] m IH]; simpl; [contradiction|].
  intros Hd Hin. apply andb_true_iff in Hd as [Hfresh Hd].
  destruct Hin as [[= -> ->]|Hin].
  - now rewrite String.eqb_refl.
  - destruct (String.eqb_spec k k0) as [->|Hne]; [|now apply IH].
    exfalso. apply negb_true_iff in Hfresh.
    assert (Hex : existsb (String.eqb k0) (map fst m) = true).
    { apply existsb_exists. exists k0. split; [|apply String.eqb_refl].
      change k0 with (fst (k0, v)). now apply in_map. }
    congruence.
Qed.

Lemma well_formed_item (xs : list value) (x : value) :
  well_formed (VList xs) = true -> In x xs -> well_formed x = true.
Proof. simpl. intros H Hin. rewrite forallb_forall in H. now apply H. Qed.

Lemma well_formed_entry (m : dict) (k : string) (v : value) :
  well_formed (VDict m) = true -> In (k, v) m -> well_formed v = true.
Proof.
  simpl. intros H Hin. apply andb_true_iff in H as [_ H].
  rewrite forallb_forall in H. now apply (H (k, v)).
Qed.

Lemma well_formed_distinct (m : dict) :
  well_formed (VDict m) = true -> distinct (map fst m) = true.
Proof. simpl. intros H. now apply andb_true_iff in H. Qed.

Lemma nan_free_item (xs : list value) (x : value) :
  nan_free (VList xs) = true -> In x xs -> nan_free x = true.
Proof. simpl. intros H Hin. rewrite forallb_forall in H. now apply H. Qed.

Lemma nan_free_entry (m : dict) (k : string) (v : value) :
  nan_free (VDict m) = true -> In (k, v) m -> nan_free v = true.
Proof.
  simpl. intros H Hin. rewrite forallb_forall in H. now apply (H (k, v)).
Qed.

Lemma SFeqb_refl (f : spec_float) : f <> S754_nan -> SFeqb f f = true.
Proof.
  unfold SFeqb. destruct f as [s|s| |s m e]; simpl; intros Hf.
  - reflexivity.
  - now destruct s.
  - now elim Hf.
  - destruct s; rewrite Z.compare_refl, Pos.compare_refl; reflexivity.
Qed.

(** [x == x] holds for every tree without a NaN. *)
Lemma py_eq_refl (v : value) :
  well_formed v = true -> nan_free v = true -> py_eq v v = true.
Proof.
  induction v as [v IH] using height_induction. intros Hwf Hnan.
  destruct v as [| x | n | f | s | xs | m].
  - reflexivity.
  - simpl. now destruct x.
  - simpl. apply Z.eqb_refl.
  - simpl. apply SFeqb_refl. intros ->. discriminate Hnan.
  - simpl. apply String.eqb_refl.
  - apply py_eq_list.
    assert (Hall : forall x, In x xs -> py_eq x x = true).
    { intros x Hx. apply IH; [now apply height_item| |].
      - eapply well_formed_item; eassumption.
      - eapply nan_free_item; eassumption. }
    clear -Hall. induction xs as [|x xs IHxs]; constructor.
    + apply Hall. now left.
    + apply IHxs. intros y Hy. apply Hall. now right.
  - rewrite py_eq_dict, Nat.eqb_refl. simpl. apply forallb_forall.
    intros [k v] Hin. simpl.
    rewrite (distinct_lookup m k v (well_formed_distinct m Hwf) Hin).
    apply IH.
    + eapply height_entry, Hin.
    + eapply well_formed_entry; eassumption.
    + eapply nan_free_entry; eassumption.
Qed.





(* ================================================================== *)
(** ** Merging a result back onto the defaults *)

Lemma merge_dict (be oe : dict) :
  merge (VDict be) (VDict oe) = VDict (merge_entries be oe be).
Proof.
  simpl. f_equal. unfold merge_entries. generalize be at 2 4 as acc.
  induction oe as [|[k ov] oe IH]; intros acc; simpl; [reflexivity|].
  apply IH.
Qed.

Lemma merge_leaf (base override : value) :
  isinstance_map override && isinstance_map base = false ->
  merge base override = override.
Proof. destruct override, base; try discriminate; reflexivity. Qed.

Lemma merge_entries_lookup (be oe : dict) :
  NoDup (dict_keys oe) ->
  forall (acc : dict) (k : string),
    dict_lookup (merge_entries be oe acc) k =
    match dict_lookup oe k with
    | Some ov => Some (match dict_lookup be k with
                       | Some bv => merge bv ov
                       | None => ov
                       end)
    | None => dict_lookup acc k
    end.
Proof.
  unfold merge_entries.
  induction oe as [|[k0 ov0] oe IH]; intros Hnd acc k; simpl; [reflexivity|].
  inversion Hnd as [|? ? Hk0 Hnd']; subst.
  rewrite IH by assumption. rewrite dict_lookup_setitem.
  destruct (String.eqb_spec k k0) as [->|Hne]; [|reflexivity].
  apply dict_lookup_None in Hk0. now rewrite Hk0.
Qed.

Lemma setitem_NoDup (m : dict) (k : string) (v : value) :
  NoDup (dict_keys m) -> NoDup (dict_keys (dict_setitem m k v)).
Proof.
  intros Hnd. rewrite dict_keys_setitem.
  destruct (dict_contains m k) eqn:C; [assumption|].
  eapply Permutation_NoDup; [apply Permutation_cons_append|].
  constructor; [|assumption].
  intros Hin. apply dict_contains_keys in Hin. congruence.
Qed.

Lemma collect_NoDup (f : string -> option value) (ks : list string) :
  forall acc : dict,
    NoDup (dict_keys acc) -> NoDup (dict_keys (collect_from f ks acc)).
Proof.
  unfold collect_from.
  induction ks as [|k ks IH]; intros acc Hnd; simpl; [assumption|].
  apply IH. destruct (f k); [now apply setitem_NoDup|assumption].
Qed.

Lemma reproduces_dict (same : value -> value -> bool)
    (dropped : value -> option value -> bool) (le : dict) (d : value) (me : dict) :
  reproduces same dropped (VDict le) d (VDict me) =
  forallb
    (fun kv =>
       dropped (snd kv) (entry_at d (fst kv))
       || match dict_lookup me (fst kv) with
          | Some mv =>
              reproduces same dropped (snd kv) (or_null (entry_at d (fst kv))) mv
          | None => false
          end) le.
Proof.
  simpl. induction le as [|[k lv] le IH]; simpl; [reflexivity|].
  now rewrite IH.
Qed.

Lemma reproduces_leaf (same : value -> value -> bool)
    (dropped : value -> option value -> bool) (l d m : value) :
  isinstance_map l && isinstance_map m = false ->
  reproduces same dropped l d m = same l m.
Proof. destruct l, m; try discriminate; reflexivity. Qed.

Lemma value_eqb_refl (v : value) : value_eqb v v = true.
Proof.
  induction v as [v IH] using height_induction.
  destruct v as [| x | n | f | s | xs | m]; simpl.
  - reflexivity.
  - now destruct x.
  - apply Z.eqb_refl.
  - destruct f as [t|t| |t p e]; simpl; try reflexivity; try (now destruct t).
    rewrite Pos.eqb_refl, Z.eqb_refl. now destruct t.
  - apply String.eqb_refl.
  - assert (Hall : forall x, In x xs -> value_eqb x x = true)
      by (intros x Hx; apply IH; now apply height_item).
    clear IH. induction xs as [|x xs IHxs]; [reflexivity|].
    rewrite Hall by now left. apply IHxs. intros y Hy. apply Hall. now right.
  - assert (Hall : forall k v, In (k, v) m -> value_eqb v v = true)
      by (intros k v Hv; apply IH; eapply height_entry, Hv).
    clear IH. induction m as [|[k v] m IHm]; [reflexivity|].
    rewrite String.eqb_refl, (Hall k v) by now left. apply IHm.
    intros k' v' Hv'. apply (Hall k'). now right.
Qed.

(** A tree reproduces itself. *)
Lemma reproduces_refl (l : value) :
  well_formed l = true ->
  forall d, reproduces same_value local_null l d l = true.
Proof.
  induction l as [l IH] using height_induction. intros Hwf d.
  destruct (isinstance_map l) eqn:Hl.
  - destruct l as [| | | | | |m]; try discriminate Hl.
    rewrite reproduces_dict. apply forallb_forall.
    intros [k v] Hin. simpl.
    rewrite (distinct_lookup m k v (well_formed_distinct m Hwf) Hin).
    rewrite IH; [apply orb_true_r| |].
    + eapply height_entry, Hin.
    + eapply well_formed_entry; eassumption.
  - rewrite reproduces_leaf by now rewrite Hl.
    unfold same_value. now rewrite value_eqb_refl.
Qed.

(* ================================================================== *)
(** ** What the two scripts have in common *)

(** Both functions compare two mappings key by key, over a list of keys
    that covers the local ones, and decide every other pair of nodes by a
    test that is at least as fine as [!=]. *)
Section Engine.

Variable diff : value -> value -> value.
Variable order : dict -> dict -> list string.
Variable strict : value -> value -> bool.

Hypothesis engine_dict : forall le de,
  diff (VDict le) (VDict de) =
  finish (collect_from (entry_diff diff le de) (order le de) []).

Hypothesis engine_leaf : forall l d,
  isinstance_map l && isinstance_map d = false ->
  diff l d = if strict l d || py_ne l d then l else VNone.

Hypothesis strict_same_type : forall l d,
  type_of l = type_of d -> strict l d = false.

Hypothesis order_covers : forall le de k,
  In k (dict_keys le) -> In k (order le de).

Lemma engine_self (x : value) :
  well_formed x = true -> nan_free x = true -> diff x x = VNone.
Proof.
  induction x as [x IH] using height_induction. intros Hwf Hnan.
  destruct (isinstance_map x) eqn:Hx.
  - destruct x as [| | | | | |m]; try discriminate Hx.
    rewrite engine_dict, collect_all_none; [reflexivity|].
    intros k _. unfold entry_diff, dict_contains, dict_get.
    destruct (dict_lookup m k) as [v|] eqn:E; [|reflexivity].
    apply dict_lookup_In in E.
    rewrite IH; [reflexivity| | |].
    + eapply height_entry, E.
    + eapply well_formed_entry; eassumption.
    + eapply nan_free_entry; eassumption.
  - rewrite engine_leaf by now rewrite Hx.
    unfold py_ne. rewrite strict_same_type, py_eq_refl by auto.
    reflexivity.
Qed.

Lemma engine_collected (le de : dict) (k : string) :
  dict_lookup
    (collect_from (entry_diff diff le de) (order le de) []) k
  = entry_diff diff le de k.
Proof.
  rewrite lookup_collect_nil.
  destruct (in_dec string_dec k (order le de)) as [|Hout]; [reflexivity|].
  unfold entry_diff.
  destruct (dict_lookup le k) as [li|] eqn:E; [|reflexivity].
  exfalso. apply Hout, order_covers.
  apply dict_lookup_In in E. change k with (fst (k, li)). now apply in_map.
Qed.

(** Merging the result onto the defaults gives back the local tree, up
    to [same_value], but for the keys only the defaults have and the keys that
    are null locally. *)
Lemma engine_round_trip (l : value) :
  forall d,
    well_formed l = true -> is_not_none l = true ->
    reproduces same_value local_null l d (apply_diff d (diff l d)) = true.
Proof.
  induction l as [l IH] using height_induction. intros d Hwf Hnn.
  destruct (isinstance_map l && isinstance_map d) eqn:Hdd.
  - destruct l as [| | | | | |le]; try discriminate Hdd.
    destruct d as [| | | | | |de]; try discriminate Hdd.
    rewrite engine_dict.
    pose proof (engine_collected le de) as Hlook.
    pose proof (collect_NoDup (entry_diff diff le de) (order le de) []
                  (NoDup_nil _)) as Hnd.
    set (m := collect_from (entry_diff diff le de) (order le de) []) in *.
    assert (Hmerged : forall k lv dv,
              dict_lookup le k = Some lv -> is_not_none lv = true ->
              dict_lookup de k = Some dv ->
              reproduces same_value local_null lv dv
                (apply_diff dv (diff lv dv)) = true).
    { intros k lv dv E Hlv _. apply dict_lookup_In in E. apply IH.
      - eapply height_entry, E.
      - eapply well_formed_entry; eassumption.
      - exact Hlv. }
    assert (Hkept : forall k lv,
              dict_lookup le k = Some lv -> is_not_none lv = true ->
              dict_lookup de k = None ->
              reproduces same_value local_null lv VNone lv = true).
    { intros k lv E _ _. apply dict_lookup_In in E. apply reproduces_refl.
      eapply well_formed_entry; eassumption. }
    assert (Hentry : forall k lv,
              dict_lookup le k = Some lv -> is_not_none lv = true ->
              dict_lookup m k =
              match dict_lookup de k with
              | Some dv => option_of (diff lv dv)
              | None => Some lv
              end).
    { intros k lv E Hlv. rewrite Hlook. unfold entry_diff, dict_contains, dict_get.
      rewrite E. destruct (dict_lookup de k); [reflexivity|].
      unfold option_of. now rewrite Hlv. }
    unfold apply_diff, finish.
    destruct (dict_truthy m) eqn:Hm; simpl is_not_none; cbv iota.
    + rewrite merge_dict, reproduces_dict. apply forallb_forall.
      intros [k lv] Hin. simpl. unfold local_null.
      destruct (is_not_none lv) eqn:Hlv; [simpl|reflexivity].
      pose proof (distinct_lookup le k lv (well_formed_distinct le Hwf) Hin) as E.
      rewrite merge_entries_lookup by exact Hnd.
      rewrite (Hentry k lv E Hlv).
      destruct (dict_lookup de k) as [dv|] eqn:Ed; simpl.
      * specialize (Hmerged k lv dv E Hlv Ed). unfold apply_diff in Hmerged.
        unfold option_of.
        destruct (is_not_none (diff lv dv)); exact Hmerged.
      * now apply (Hkept k lv).
    + rewrite reproduces_dict. apply forallb_forall.
      intros [k lv] Hin. simpl. unfold local_null.
      destruct (is_not_none lv) eqn:Hlv; [simpl|reflexivity].
      pose proof (distinct_lookup le k lv (well_formed_distinct le Hwf) Hin) as E.
      pose proof (Hentry k lv E Hlv) as Hk.
      destruct m; [|discriminate Hm]. simpl in Hk.
      destruct (dict_lookup de k) as [dv|] eqn:Ed; [|discriminate Hk].
      simpl. specialize (Hmerged k lv dv E Hlv Ed).
      unfold apply_diff in Hmerged. symmetry in Hk.
      apply option_of_None in Hk. now rewrite Hk in Hmerged.
  - rewrite engine_leaf by assumption. unfold apply_diff, py_ne.
    destruct (strict l d || negb (py_eq l d)) eqn:C.
    + rewrite Hnn, merge_leaf by assumption.
      now apply reproduces_refl.
    + apply orb_false_iff in C as [_ C]. apply negb_false_iff in C.
      simpl. rewrite reproduces_leaf by assumption.
      unfold same_value. rewrite C. apply orb_true_r.
Qed.

(** A key that the local tree does not have is not in the result. *)
Lemma engine_local_keys (l d : value) (k : string) :
  has_key l k = false -> has_key (diff l d) k = false.
Proof.
  intros Hk.
  destruct (isinstance_map l && isinstance_map d) eqn:Hdd.
  - destruct l as [| | | | | |le]; try discriminate Hdd.
    destruct d as [| | | | | |de]; try discriminate Hdd.
    rewrite engine_dict. unfold finish.
    destruct (dict_truthy _); [|reflexivity].
    simpl in *. unfold dict_contains in *.
    rewrite engine_collected. unfold entry_diff.
    now destruct (dict_lookup le k).
  - rewrite engine_leaf by assumption.
    now destruct (strict l d || py_ne l d).
Qed.

End Engine.

Lemma Main_strict_same_type (l d : value) :
  type_of l = type_of d -> negb (kind_eqb (kind_of l) (kind_of d)) = false.
Proof. destruct l, d; simpl; congruence. Qed.

Lemma MO_strict_same_type (l d : value) :
  type_of l = type_of d -> negb (pytype_eqb (type_of l) (type_of d)) = false.
Proof. destruct l, d; simpl; congruence. Qed.

(** C2, as the code has it — identity: comparing a tree that holds no NaN
    with itself gives no result. *)
Theorem C2_identity (set_iter : MainOrdered.pyset -> list string) (x : value) :
  well_formed x = true ->
  nan_free x = true ->
  Main.extractOverrides x x = Returns None
  /\ MainOrdered.extractOverrides set_iter x x = Returns None.
Proof.
  intros Hwf Hnan. rewrite Main_extract, MO_extract.
  rewrite (engine_self Main.diff (fun le _ => dict_keys le)
             (fun l d => negb (kind_eqb (kind_of l) (kind_of d)))
             Main_diff_dict Main_diff_leaf Main_strict_same_type x Hwf Hnan).
  rewrite (engine_self (MainOrdered.diff set_iter)
             (fun le de => set_iter (MainOrdered.set_union
                                       (MainOrdered.set_of (dict_keys le))
                                       (MainOrdered.set_of (dict_keys de))))
             (fun l d => negb (pytype_eqb (type_of l) (type_of d)))
             (MO_diff_dict set_iter) (MO_diff_leaf set_iter)
             MO_strict_same_type x Hwf Hnan).
  now split.
Qed.

Lemma C2_identity_witness :
  Main.extractOverrides
    (VDict [("a"%string, VList [VInt 1; VStr "x"]); ("b"%string, VNone)])
    (VDict [("a"%string, VList [VInt 1; VStr "x"]); ("b"%string, VNone)])
  = Returns None.
Proof.
  apply (C2_identity MainOrdered.insertion_order
           (VDict [("a"%string, VList [VInt 1; VStr "x"]); ("b"%string, VNone)])
           eq_refl eq_refl).
Defined.

(** C2, as stated, fails: a NaN differs from itself, so comparing the
    float NaN with itself returns it. *)
Lemma C2_counterexample :
  Main.extractOverrides (VFloat S754_nan) (VFloat S754_nan) <> Returns None.
Proof. vm_compute. discriminate. Qed.

(* ================================================================== *)
(** ** The order of the keys of a result *)

Lemma distinct_NoDup (ks : list string) : distinct ks = true -> NoDup ks.
Proof.
  induction ks as [|k ks IH]; simpl; intros H; constructor.
  - apply andb_true_iff in H as [H _]. apply negb_true_iff in H.
    intros Hin.
    assert (Hex : existsb (String.eqb k) ks = true).
    { apply existsb_exists. exists k. split; [exact Hin|apply String.eqb_refl]. }
    congruence.
  - apply IH. now apply andb_true_iff in H.
Qed.

Lemma filter_keys_in_order (p : string -> bool) (ks : list string) :
  filter p ks = keys_in_order_of ks (filter p ks).
Proof.
  unfold keys_in_order_of. apply filter_ext_in. intros k Hk.
  destruct (p k) eqn:Hp; symmetry.
  - apply existsb_exists. exists k. split; [|apply String.eqb_refl].
    apply filter_In. now split.
  - apply not_true_is_false. intros Hex.
    apply existsb_exists in Hex as (k' & Hin & Heq).
    apply String.eqb_eq in Heq. subst k'.
    apply filter_In in Hin as [_ Hin]. congruence.
Qed.

(** In main.py the keys of a result come in the order of the local
    mapping. *)
Lemma Main_order_preserved (le de m : dict) :
  distinct (dict_keys le) = true ->
  Main.extractOverrides (VDict le) (VDict de) = Returns (Some (VDict m)) ->
  dict_keys m = keys_in_order_of (dict_keys le) (dict_keys m).
Proof.
  intros Hd. rewrite Main_extract, Main_diff_dict. intros [= H].
  apply option_of_finish in H as [[= ->] _].
  rewrite keys_collect.
  - simpl. apply filter_keys_in_order.
  - now apply distinct_NoDup.
  - intros k _ [].
Qed.

(** In main-ordered.py the keys of a result come in the order in which the
    set of all keys is visited. *)
Lemma MO_order_of_set (set_iter : MainOrdered.pyset -> list string)
    (le de m : dict) :
  (forall s, Permutation s (set_iter s)) ->
  MainOrdered.extractOverrides set_iter (VDict le) (VDict de)
  = Returns (Some (VDict m)) ->
  dict_keys m =
  keys_in_order_of
    (set_iter (MainOrdered.set_union (MainOrdered.set_of (dict_keys le))
                                     (MainOrdered.set_of (dict_keys de))))
    (dict_keys m).
Proof.
  intros Hperm. rewrite MO_extract, MO_diff_dict. intros [= H].
  apply option_of_finish in H as [[= ->] _].
  rewrite keys_collect.
  - simpl. apply filter_keys_in_order.
  - eapply Permutation_NoDup; [apply Hperm|].
    unfold MainOrdered.set_union. apply NoDup_nodup.
  - intros k _ [].
Qed.

(** C3 — in main-ordered.py the order of the keys of a result is the order
    in which the set of keys is visited: on local [{b: 2, a: 3}] and
    defaults [{b: 0, a: 0}], a run that visits ["a"] before ["b"] returns
    [{a: 3, b: 2}], whose keys are not in the local order; main.py returns
    [{b: 2, a: 3}]. *)
Theorem C3_order_lost_in_main_ordered :
  MainOrdered.extractOverrides MainOrdered.reverse_order
    (VDict [("b"%string, VInt 2); ("a"%string, VInt 3)])
    (VDict [("b"%string, VInt 0); ("a"%string, VInt 0)])
  = Returns (Some (VDict [("a"%string, VInt 3); ("b"%string, VInt 2)]))
  /\ dict_keys [("a"%string, VInt 3); ("b"%string, VInt 2)]
     <> keys_in_order_of
          (dict_keys [("b"%string, VInt 2); ("a"%string, VInt 3)])
          (dict_keys [("a"%string, VInt 3); ("b"%string, VInt 2)])
  /\ Main.extractOverrides
       (VDict [("b"%string, VInt 2); ("a"%string, VInt 3)])
       (VDict [("b"%string, VInt 0); ("a"%string, VInt 0)])
     = Returns (Some (VDict [("b"%string, VInt 2); ("a"%string, VInt 3)])).
Proof.
  repeat apply conj; try reflexivity.
  intros H. vm_compute in H. discriminate H.
Qed.

(* ================================================================== *)
(** ** The two scripts against each other *)

Lemma type_coherent_dict (le de : dict) :
  type_coherent (VDict le) (VDict de) =
  forallb (fun kv => match dict_lookup de (fst kv) with
                     | Some dv => type_coherent (snd kv) dv
                     | None => true
                     end) le.
Proof.
  simpl. induction le as [|[k lv] le IH]; simpl; [reflexivity|].
  now rewrite IH.
Qed.

Lemma type_coherent_leaf (l d : value) :
  isinstance_map l && isinstance_map d = false ->
  type_coherent l d =
  pytype_eqb (type_of l) (type_of d) || negb (py_eq l d).
Proof. destruct l, d; try discriminate; reflexivity. Qed.

Lemma same_content_none (x y : value) :
  same_content x y -> (x = VNone <-> y = VNone).
Proof. intros H. destruct H; [tauto|]. split; discriminate. Qed.

Lemma same_content_option (x y : value) :
  same_content x y ->
  (option_of x = None <-> option_of y = None)
  /\ (forall a b, option_of x = Some a -> option_of y = Some b ->
        same_content a b).
Proof.
  intros H. split.
  - rewrite !option_of_None. now apply same_content_none.
  - intros a b Ha Hb.
    apply option_of_Some in Ha as [-> _]. apply option_of_Some in Hb as [-> _].
    exact H.
Qed.

Lemma dict_lookup_all_none (m : dict) :
  (forall k, dict_lookup m k = None) -> m = [].
Proof.
  destruct m as [|[k v] m]; [reflexivity|].
  intros H. specialize (H k). simpl in H.
  rewrite String.eqb_refl in H. discriminate.
Qed.

Lemma same_content_finish (m n : dict) :
  (forall k, dict_lookup m k = None <-> dict_lookup n k = None) ->
  (forall k a b, dict_lookup m k = Some a -> dict_lookup n k = Some b ->
     same_content a b) ->
  same_content (finish m) (finish n).
Proof.
  intros Hdom Hval.
  destruct m as [|e m].
  - rewrite (dict_lookup_all_none n); [constructor|].
    intros k. now apply Hdom.
  - destruct n as [|e' n].
    + assert (Hm : e :: m = []); [|discriminate Hm].
      apply dict_lookup_all_none. intros k. now apply Hdom.
    + unfold finish. simpl. now apply same_dict.
Qed.

Section Agreement.

Variable set_iter : MainOrdered.pyset -> list string.

(** Iterating over a set visits each of its elements once. *)
Hypothesis set_iter_perm : forall s, Permutation s (set_iter s).

Lemma set_iter_covers (le de : dict) (k : string) :
  In k (dict_keys le) ->
  In k (set_iter (MainOrdered.set_union
                    (MainOrdered.set_of (dict_keys le))
                    (MainOrdered.set_of (dict_keys de)))).
Proof.
  intros Hin. eapply Permutation_in; [apply set_iter_perm|].
  unfold MainOrdered.set_union, MainOrdered.set_of.
  apply nodup_In, in_or_app. left. now apply nodup_In.
Qed.

Lemma diffs_same_content (l : value) :
  forall d, type_coherent l d = true ->
    same_content (Main.diff l d) (MainOrdered.diff set_iter l d).
Proof.
  induction l as [l IH] using height_induction. intros d Hco.
  destruct (isinstance_map l && isinstance_map d) eqn:Hdd.
  - destruct l as [| | | | | |le]; try discriminate Hdd.
    destruct d as [| | | | | |de]; try discriminate Hdd.
    rewrite Main_diff_dict, MO_diff_dict.
    rewrite type_coherent_dict, forallb_forall in Hco.
    assert (Hentry : forall k,
      (entry_diff Main.diff le de k = None <->
       entry_diff (MainOrdered.diff set_iter) le de k = None)
      /\ (forall a b,
            entry_diff Main.diff le de k = Some a ->
            entry_diff (MainOrdered.diff set_iter) le de k = Some b ->
            same_content a b)).
    { intros k. unfold entry_diff.
      destruct (dict_lookup le k) as [li|] eqn:E.
      - unfold dict_contains, dict_get.
        destruct (dict_lookup de k) as [dv|] eqn:Ed.
        + apply same_content_option, IH.
          * eapply dict_lookup_height, E.
          * specialize (Hco (k, li) (dict_lookup_In _ _ _ E)).
            simpl in Hco. now rewrite Ed in Hco.
        + apply same_content_option. constructor.
      - split; [tauto|discriminate]. }
    assert (Hlook : forall k,
      dict_lookup (collect_from (entry_diff Main.diff le de) (dict_keys le) []) k
      = entry_diff Main.diff le de k
      /\ dict_lookup
           (collect_from (entry_diff (MainOrdered.diff set_iter) le de)
              (set_iter (MainOrdered.set_union
                           (MainOrdered.set_of (dict_keys le))
                           (MainOrdered.set_of (dict_keys de)))) []) k
         = entry_diff (MainOrdered.diff set_iter) le de k).
    { intros k. rewrite !lookup_collect_nil.
      destruct (dict_lookup le k) as [li|] eqn:E.
      - assert (Hin : In k (dict_keys le)).
        { apply dict_lookup_In in E. change k with (fst (k, li)).
          now apply in_map. }
        pose proof (set_iter_covers le de k Hin) as Hcov.
        split.
        + destruct (in_dec string_dec k (dict_keys le)); [reflexivity|contradiction].
        + destruct (in_dec string_dec k _); [reflexivity|contradiction].
      - unfold entry_diff. rewrite E.
        split; now destruct (in_dec string_dec k _). }
    apply same_content_finish.
    + intros k. destruct (Hlook k) as [-> ->]. apply Hentry.
    + intros k a b. destruct (Hlook k) as [-> ->]. apply Hentry.
  - rewrite Main_diff_leaf, MO_diff_leaf by assumption.
    rewrite type_coherent_leaf in Hco by assumption.
    unfold py_ne.
    destruct (pytype_eqb (type_of l) (type_of d)) eqn:Ht.
    + assert (Hk : kind_eqb (kind_of l) (kind_of d) = true)
        by (destruct l, d; try discriminate Ht; reflexivity).
      rewrite Hk. constructor.
    + simpl in Hco. rewrite Hco, orb_true_r. simpl. constructor.
Qed.

(** C9, as the code has it — on trees in which no two scalars of
    different types are identified by [==] where the mappings meet, the
    two scripts return the same result up to the order of the keys of its
    mappings: both nothing, or trees with the same keys and the same
    values. *)
Theorem C9_scripts_agree (l d : value) :
  type_coherent l d = true ->
  results_agree (Main.extractOverrides l d)
                (MainOrdered.extractOverrides set_iter l d).
Proof.
  intros Hco. rewrite Main_extract, MO_extract. unfold results_agree.
  destruct (same_content_option _ _ (diffs_same_content l d Hco)) as [Hn Hs].
  destruct (option_of (Main.diff l d)) as [a|];
    destruct (option_of (MainOrdered.diff set_iter l d)) as [b|].
  - now apply Hs.
  - destruct Hn as [_ Hn]. now discriminate Hn.
  - destruct Hn as [Hn _]. now discriminate Hn.
  - exact I.
Qed.

End Agreement.

Lemma C9_scripts_agree_witness :
  results_agree
    (Main.extractOverrides
       (VDict [("a"%string, VInt 1); ("b"%string, VInt 2)])
       (VDict [("b"%string, VInt 3); ("a"%string, VInt 1)]))
    (MainOrdered.extractOverrides MainOrdered.insertion_order
       (VDict [("a"%string, VInt 1); ("b"%string, VInt 2)])
       (VDict [("b"%string, VInt 3); ("a"%string, VInt 1)])).
Proof.
  apply (C9_scripts_agree MainOrdered.insertion_order
           (fun s => Permutation_refl s)
           (VDict [("a"%string, VInt 1); ("b"%string, VInt 2)])
           (VDict [("b"%string, VInt 3); ("a"%string, VInt 1)])
           eq_refl).
Defined.

(** C9, as stated, fails: on [True] against [1] main.py returns nothing and
    main-ordered.py returns [True]. *)
Lemma C9_counterexample :
  ~ results_agree
      (Main.extractOverrides (VBool true) (VInt 1))
      (MainOrdered.extractOverrides MainOrdered.insertion_order
         (VBool true) (VInt 1)).
Proof. intros H. vm_compute in H. exact H. Qed.

(* ================================================================== *)
(** ** The round trip *)

(** C1, as the code has it — round trip: when comparing [local] with
    [default] gives a result [D], merging [D] onto [default] reproduces
    [local] up to Python's [==] (a subtree is the very same, or equal for
    [==]), but for the keys that only [default] has and the keys that are
    null in [local]; and a key of [default] that [local] does not have is
    not a key of [D]. *)
Theorem C1_round_trip (set_iter : MainOrdered.pyset -> list string)
    (set_iter_perm : forall s, Permutation s (set_iter s))
    (local default D : value) :
  well_formed local = true ->
  (Main.extractOverrides local default = Returns (Some D) ->
   reproduces same_value local_null local default (merge default D) = true
   /\ (forall k, has_key default k = true -> has_key local k = false ->
                 has_key D k = false))
  /\ (MainOrdered.extractOverrides set_iter local default = Returns (Some D) ->
      reproduces same_value local_null local default (merge default D) = true
      /\ (forall k, has_key default k = true -> has_key local k = false ->
                    has_key D k = false)).
Proof.
  intros Hwf. split.
  - rewrite Main_extract. intros [= H]. apply option_of_Some in H as [-> Hne].
    assert (Hnn : is_not_none local = true).
    { destruct local; try reflexivity. elim Hne. apply Main_diff_null. }
    split.
    + pose proof (engine_round_trip Main.diff (fun le _ => dict_keys le)
                    (fun l d => negb (kind_eqb (kind_of l) (kind_of d)))
                    Main_diff_dict Main_diff_leaf (fun le de k H => H)
                    local default Hwf Hnn) as R.
      unfold apply_diff in R.
      destruct (Main.diff local default); try exact R. now elim Hne.
    + intros k _ Hk.
      apply (engine_local_keys Main.diff (fun le _ => dict_keys le)
               (fun l d => negb (kind_eqb (kind_of l) (kind_of d)))
               Main_diff_dict Main_diff_leaf (fun le de k H => H)).
      exact Hk.
  - rewrite MO_extract. intros [= H]. apply option_of_Some in H as [-> Hne].
    assert (Hnn : is_not_none local = true).
    { destruct local; try reflexivity. elim Hne. apply MO_diff_null. }
    split.
    + pose proof (engine_round_trip (MainOrdered.diff set_iter)
                    (fun le de => set_iter (MainOrdered.set_union
                                              (MainOrdered.set_of (dict_keys le))
                                              (MainOrdered.set_of (dict_keys de))))
                    (fun l d => negb (pytype_eqb (type_of l) (type_of d)))
                    (MO_diff_dict set_iter) (MO_diff_leaf set_iter)
                    (set_iter_covers set_iter set_iter_perm)
                    local default Hwf Hnn) as R.
      unfold apply_diff in R.
      destruct (MainOrdered.diff set_iter local default); try exact R.
      now elim Hne.
    + intros k _ Hk.
      apply (engine_local_keys (MainOrdered.diff set_iter)
               (fun le de => set_iter (MainOrdered.set_union
                                         (MainOrdered.set_of (dict_keys le))
                                         (MainOrdered.set_of (dict_keys de))))
               (fun l d => negb (pytype_eqb (type_of l) (type_of d)))
               (MO_diff_dict set_iter) (MO_diff_leaf set_iter)
               (set_iter_covers set_iter set_iter_perm)).
      exact Hk.
Qed.

Lemma C1_round_trip_witness :
  reproduces same_value local_null
    (VDict [("a"%string, VDict [("x"%string, VInt 1); ("y"%string, VInt 2)])])
    (VDict [("a"%string, VDict [("x"%string, VInt 1); ("y"%string, VInt 1)]);
            ("c"%string, VStr "kept")])
    (merge
       (VDict [("a"%string, VDict [("x"%string, VInt 1); ("y"%string, VInt 1)]);
               ("c"%string, VStr "kept")])
       (VDict [("a"%string, VDict [("y"%string, VInt 2)])]))
  = true.
Proof.
  destruct (C1_round_trip MainOrdered.insertion_order
              (fun s => Permutation_refl s)
              (VDict [("a"%string,
                       VDict [("x"%string, VInt 1); ("y"%string, VInt 2)])])
              (VDict [("a"%string,
                       VDict [("x"%string, VInt 1); ("y"%string, VInt 1)]);
                      ("c"%string, VStr "kept")])
              (VDict [("a"%string, VDict [("y"%string, VInt 2)])])
              eq_refl) as [H _].
  apply H. reflexivity.
Defined.

(** C1, as stated, fails: with the structural equality of the
    specification and its two exceptions, local [{a: True, b: 2}] against
    defaults [{a: 1, b: 3}] gives [{b: 2}] in main.py, and the merge
    [{a: 1, b: 2}] has the integer [1] where local has the boolean [True];
    main-ordered.py does the same inside a sequence. *)
Lemma C1_counterexample :
  (Main.extractOverrides
     (VDict [("a"%string, VBool true); ("b"%string, VInt 2)])
     (VDict [("a"%string, VInt 1); ("b"%string, VInt 3)])
   = Returns (Some (VDict [("b"%string, VInt 2)]))
   /\ reproduces structural_equal null_over_non_null
        (VDict [("a"%string, VBool true); ("b"%string, VInt 2)])
        (VDict [("a"%string, VInt 1); ("b"%string, VInt 3)])
        (merge (VDict [("a"%string, VInt 1); ("b"%string, VInt 3)])
               (VDict [("b"%string, VInt 2)]))
      = false)
  /\ (MainOrdered.extractOverrides MainOrdered.insertion_order
        (VDict [("a"%string, VList [VBool true]); ("b"%string, VInt 2)])
        (VDict [("a"%string, VList [VInt 1]); ("b"%string, VInt 3)])
      = Returns (Some (VDict [("b"%string, VInt 2)]))
      /\ reproduces structural_equal null_over_non_null
           (VDict [("a"%string, VList [VBool true]); ("b"%string, VInt 2)])
           (VDict [("a"%string, VList [VInt 1]); ("b"%string, VInt 3)])
           (merge (VDict [("a"%string, VList [VInt 1]); ("b"%string, VInt 3)])
                  (VDict [("b"%string, VInt 2)]))
         = false).
Proof. repeat apply conj; reflexivity. Qed.

(* ================================================================== *)
(** ** The runs of the two programs *)

Lemma prepare_repo_run (w : world) (a : arguments) (t : list event) :
  prepare_repo w a t = Go (chart_reference a) (t ++ map RunHelm (repo_commands a))
  \/ exists n,
       0 < n <= List.length (repo_commands a)
       /\ prepare_repo w a t
          = Halt (SysExit 1) (t ++ map RunHelm (firstn n (repo_commands a)))
       /\ exists t' c, helm_stdout w t' c = None.
Proof.
  unfold prepare_repo, chart_reference, repo_commands, and_then, split_once,
    run_helm_command, ret, HELM_EXECUTABLE.
  destruct (add_repo a); [destruct (split_at_first "=" (repo a)) as [[name url]|]|];
    destruct (update_repo a); simpl;
    repeat match goal with
           | |- context [helm_stdout w ?t ?c] =>
               destruct (helm_stdout w t c) eqn:?; simpl
           end;
    rewrite <- ?app_assoc, ?app_nil_r; simpl;
    first [ left; reflexivity
          | right; exists 1; simpl; split; [lia|split; [reflexivity|eauto]]
          | right; exists 2; simpl; split; [lia|split; [reflexivity|eauto]] ].
Qed.

Lemma planned_length (a : arguments) :
  List.length (planned_commands a) = S (List.length (repo_commands a)).
Proof. unfold planned_commands. rewrite length_app. simpl. lia. Qed.

Lemma planned_prefix (a : arguments) (n : nat) :
  n <= List.length (repo_commands a) ->
  firstn n (planned_commands a) = firstn n (repo_commands a).
Proof.
  intros Hn. unfold planned_commands. rewrite firstn_app.
  replace (n - List.length (repo_commands a)) with 0 by lia.
  simpl. apply app_nil_r.
Qed.

Lemma planned_trace (a : arguments) :
  map RunHelm (planned_commands a)
  = map RunHelm (repo_commands a) ++ [RunHelm (show_command a)].
Proof. unfold planned_commands. now rewrite map_app. Qed.

Lemma stops_after_all_commands (a : arguments) :
  stops_early a (map RunHelm (planned_commands a)).
Proof.
  left. exists (List.length (planned_commands a)). split.
  - rewrite planned_length. lia.
  - now rewrite firstn_all.
Qed.

Lemma with_output_same (a : arguments) : with_output a (output a) = a.
Proof. now destruct a. Qed.

(** A run of main.py either stops with status 1 before it compares
    anything, or gets hold of the two documents and puts out the result of
    comparing them; the [--output] option plays no part before that. *)
Lemma main_py_front (w : world) (a : arguments) :
  exists front : step value,
    (forall how t, front = Halt how t ->
       how = SysExit 1 /\ stops_early a t
       /\ ((exists t' c, helm_stdout w t' c = None)
           \/ forall dv lv, ~ loads w a dv lv))
    /\ (forall d t, front = Go d t -> compared w a Main.diff d t)
    /\ forall o,
         MainProgram.main w (with_output a o) []
         = match front with
           | Go d t => main_py_put_out w (with_output a o) (chart_reference a) d t
           | Halt how t => Halt how t
           end.
Proof.
  assert (Hmain : forall o,
            MainProgram.main w (with_output a o) []
            = match prepare_repo w a [] with
              | Go chart_ref t =>
                  match helm_stdout w t
                          ["helm"; "show"; "values"; chart_ref; "--version";
                           version a]%string with
                  | Some dtext =>
                      match yaml_load w dtext with
                      | Some dv =>
                          match file_text w (local_values_file a) with
                          | Some ltext =>
                              match yaml_load w ltext with
                              | Some lv =>
                                  main_py_put_out w (with_output a o) chart_ref
                                    (Main.diff (or_empty_map lv) (or_empty_map dv))
                                    ((t ++ [RunHelm ["helm"; "show"; "values";
                                                     chart_ref; "--version";
                                                     version a]%string])
                                     ++ [ReadFile (local_values_file a)])
                              | None =>
                                  Halt (SysExit 1)
                                    ((t ++ [RunHelm ["helm"; "show"; "values";
                                                     chart_ref; "--version";
                                                     version a]%string])
                                     ++ [ReadFile (local_values_file a)])
                              end
                          | None =>
                              Halt (SysExit 1)
                                ((t ++ [RunHelm ["helm"; "show"; "values";
                                                 chart_ref; "--version";
                                                 version a]%string])
                                 ++ [ReadFile (local_values_file a)])
                          end
                      | None =>
                          Halt (SysExit 1)
                            (t ++ [RunHelm ["helm"; "show"; "values"; chart_ref;
                                            "--version"; version a]%string])
                      end
                  | None =>
                      Halt (SysExit 1)
                        (t ++ [RunHelm ["helm"; "show"; "values"; chart_ref;
                                        "--version"; version a]%string])
                  end
              | Halt how t => Halt how t
              end).
  { intros o. unfold MainProgram.main, and_then.
    change (prepare_repo w (with_output a o)) with (prepare_repo w a).
    destruct (prepare_repo w a []) as [chart_ref t|how t]; [|reflexivity].
    unfold run_helm_command, HELM_EXECUTABLE. cbn [version with_output].
    destruct (helm_stdout w t _) as [dtext|]; [|reflexivity].
    unfold MainProgram.load_yaml_data at 1.
    destruct (yaml_load w dtext) as [dv|]; [|reflexivity].
    unfold ret at 1, emit at 1. cbn [local_values_file with_output].
    destruct (file_text w (local_values_file a)) as [ltext|]; [|reflexivity].
    unfold MainProgram.load_yaml_data.
    destruct (yaml_load w ltext) as [lv|]; [|reflexivity].
    unfold ret at 1, call. now rewrite Main_returns. }
  destruct (prepare_repo_run w a []) as [Hp | (n & Hn & Hp & Hfail)].
  2:{ exists (Halt (SysExit 1) (map RunHelm (firstn n (repo_commands a)))).
      split; [|split].
      - intros how t [= <- <-]. split; [reflexivity|]. split; [|now left].
        left. exists n. split.
        + rewrite planned_length. lia.
        + now rewrite planned_prefix by lia.
      - discriminate.
      - intros o. rewrite Hmain, Hp. reflexivity. }
  assert (Hshow : ["helm"; "show"; "values"; chart_reference a; "--version";
                   version a]%string = show_command a) by reflexivity.
  destruct (helm_stdout w (map RunHelm (repo_commands a)) (show_command a))
    as [dtext|] eqn:Hhelm.
  2:{ exists (Halt (SysExit 1) (map RunHelm (planned_commands a))).
      split; [|split].
      - intros how t [= <- <-]. split; [reflexivity|].
        split; [apply stops_after_all_commands|]. left. eauto.
      - discriminate.
      - intros o. rewrite Hmain, Hp. simpl app. rewrite ?Hshow, ?Hhelm.
        now rewrite planned_trace. }
  destruct (yaml_load w dtext) as [dv|] eqn:Hdv.
  2:{ exists (Halt (SysExit 1) (map RunHelm (planned_commands a))).
      split; [|split].
      - intros how t [= <- <-]. split; [reflexivity|].
        split; [apply stops_after_all_commands|]. right.
        intros dv lv [(dtext' & Hh & Hd) _]. congruence.
      - discriminate.
      - intros o. rewrite Hmain, Hp. simpl app. rewrite ?Hshow, ?Hhelm, ?Hdv.
        now rewrite planned_trace. }
  destruct (file_text w (local_values_file a)) as [ltext|] eqn:Hfile.
  2:{ exists (Halt (SysExit 1)
                (map RunHelm (planned_commands a)
                 ++ [ReadFile (local_values_file a)])).
      split; [|split].
      - intros how t [= <- <-]. split; [reflexivity|]. split; [now right|].
        right. intros dv' lv [_ (ltext & Hf & _)]. congruence.
      - discriminate.
      - intros o. rewrite Hmain, Hp. simpl app. rewrite ?Hshow, ?Hhelm, ?Hdv, ?Hfile.
        now rewrite planned_trace. }
  destruct (yaml_load w ltext) as [lv|] eqn:Hlv.
  2:{ exists (Halt (SysExit 1)
                (map RunHelm (planned_commands a)
                 ++ [ReadFile (local_values_file a)])).
      split; [|split].
      - intros how t [= <- <-]. split; [reflexivity|]. split; [now right|].
        right. intros dv' lv [_ (ltext' & Hf & Hl)]. congruence.
      - discriminate.
      - intros o. rewrite Hmain, Hp. simpl app.
        rewrite ?Hshow, ?Hhelm, ?Hdv, ?Hfile, ?Hlv.
        now rewrite planned_trace. }
  exists (Go (Main.diff (or_empty_map lv) (or_empty_map dv))
            (map RunHelm (planned_commands a)
             ++ [ReadFile (local_values_file a)])).
  split; [|split].
  - discriminate.
  - intros d t [= <- <-]. split; [reflexivity|].
    exists dv, lv. split; [|reflexivity].
    split; [exists dtext|exists ltext]; now split.
  - intros o. rewrite Hmain, Hp. simpl app.
    rewrite ?Hshow, ?Hhelm, ?Hdv, ?Hfile, ?Hlv.
    now rewrite planned_trace.
Qed.

(** The same for main-ordered.py. *)
Lemma main_ordered_front (set_iter : MainOrdered.pyset -> list string)
    (w : world) (a : arguments) :
  exists front : step value,
    (forall how t, front = Halt how t ->
       how = SysExit 1 /\ stops_early a t
       /\ ((exists t' c, helm_stdout w t' c = None)
           \/ forall dv lv, ~ loads w a dv lv))
    /\ (forall d t, front = Go d t -> compared w a (MainOrdered.diff set_iter) d t)
    /\ forall o,
         MainOrderedProgram.main set_iter w (with_output a o) []
         = match front with
           | Go d t =>
               main_ordered_put_out w (with_output a o) (chart_reference a) d t
           | Halt how t => Halt how t
           end.
Proof.
  assert (Hmain : forall o,
            MainOrderedProgram.main set_iter w (with_output a o) []
            = match prepare_repo w a [] with
              | Go chart_ref t =>
                  match helm_stdout w t
                          ["helm"; "show"; "values"; chart_ref; "--version";
                           version a]%string with
                  | Some dtext =>
                      match yaml_load w dtext with
                      | Some dv =>
                          match file_text w (local_values_file a) with
                          | Some ltext =>
                              match yaml_load w ltext with
                              | Some lv =>
                                  main_ordered_put_out w (with_output a o) chart_ref
                                    (MainOrdered.diff set_iter (or_empty_map lv) (or_empty_map dv))
                                    ((t ++ [RunHelm ["helm"; "show"; "values";
                                                     chart_ref; "--version";
                                                     version a]%string])
                                     ++ [ReadFile (local_values_file a)])
                              | None =>
                                  Halt (SysExit 1)
                                    ((t ++ [RunHelm ["helm"; "show"; "values";
                                                     chart_ref; "--version";
                                                     version a]%string])
                                     ++ [ReadFile (local_values_file a)])
                              end
                          | None =>
                              Halt (SysExit 1)
                                ((t ++ [RunHelm ["helm"; "show"; "values";
                                                 chart_ref; "--version";
                                                 version a]%string])
                                 ++ [ReadFile (local_values_file a)])
                          end
                      | None =>
                          Halt (SysExit 1)
                            (t ++ [RunHelm ["helm"; "show"; "values"; chart_ref;
                                            "--version"; version a]%string])
                      end
                  | None =>
                      Halt (SysExit 1)
                        (t ++ [RunHelm ["helm"; "show"; "values"; chart_ref;
                                        "--version"; version a]%string])
                  end
              | Halt how t => Halt how t
              end).
  { intros o. unfold MainOrderedProgram.main, and_then.
    change (prepare_repo w (with_output a o)) with (prepare_repo w a).
    destruct (prepare_repo w a []) as [chart_ref t|how t]; [|reflexivity].
    unfold run_helm_command, HELM_EXECUTABLE. cbn [version with_output].
    destruct (helm_stdout w t _) as [dtext|]; [|reflexivity].
    destruct (yaml_load w dtext) as [dv|]; [|reflexivity].
    unfold ret at 1, MainOrderedProgram.load_yaml_file, and_then, emit.
    cbn [local_values_file with_output].
    destruct (file_text w (local_values_file a)) as [ltext|]; [|reflexivity].
    destruct (yaml_load w ltext) as [lv|]; [|reflexivity].
    unfold ret at 1, call. now rewrite MO_returns. }
  destruct (prepare_repo_run w a []) as [Hp | (n & Hn & Hp & Hfail)].
  2:{ exists (Halt (SysExit 1) (map RunHelm (firstn n (repo_commands a)))).
      split; [|split].
      - intros how t [= <- <-]. split; [reflexivity|]. split; [|now left].
        left. exists n. split.
        + rewrite planned_length. lia.
        + now rewrite planned_prefix by lia.
      - discriminate.
      - intros o. rewrite Hmain, Hp. reflexivity. }
  assert (Hshow : ["helm"; "show"; "values"; chart_reference a; "--version";
                   version a]%string = show_command a) by reflexivity.
  destruct (helm_stdout w (map RunHelm (repo_commands a)) (show_command a))
    as [dtext|] eqn:Hhelm.
  2:{ exists (Halt (SysExit 1) (map RunHelm (planned_commands a))).
      split; [|split].
      - intros how t [= <- <-]. split; [reflexivity|].
        split; [apply stops_after_all_commands|]. left. eauto.
      - discriminate.
      - intros o. rewrite Hmain, Hp. simpl app. rewrite ?Hshow, ?Hhelm.
        now rewrite planned_trace. }
  destruct (yaml_load w dtext) as [dv|] eqn:Hdv.
  2:{ exists (Halt (SysExit 1) (map RunHelm (planned_commands a))).
      split; [|split].
      - intros how t [= <- <-]. split; [reflexivity|].
        split; [apply stops_after_all_commands|]. right.
        intros dv lv [(dtext' & Hh & Hd) _]. congruence.
      - discriminate.
      - intros o. rewrite Hmain, Hp. simpl app. rewrite ?Hshow, ?Hhelm, ?Hdv.
        now rewrite planned_trace. }
  destruct (file_text w (local_values_file a)) as [ltext|] eqn:Hfile.
  2:{ exists (Halt (SysExit 1)
                (map RunHelm (planned_commands a)
                 ++ [ReadFile (local_values_file a)])).
      split; [|split].
      - intros how t [= <- <-]. split; [reflexivity|]. split; [now right|].
        right. intros dv' lv [_ (ltext & Hf & _)]. congruence.
      - discriminate.
      - intros o. rewrite Hmain, Hp. simpl app. rewrite ?Hshow, ?Hhelm, ?Hdv, ?Hfile.
        now rewrite planned_trace. }
  destruct (yaml_load w ltext) as [lv|] eqn:Hlv.
  2:{ exists (Halt (SysExit 1)
                (map RunHelm (planned_commands a)
                 ++ [ReadFile (local_values_file a)])).
      split; [|split].
      - intros how t [= <- <-]. split; [reflexivity|]. split; [now right|].
        right. intros dv' lv [_ (ltext' & Hf & Hl)]. congruence.
      - discriminate.
      - intros o. rewrite Hmain, Hp. simpl app.
        rewrite ?Hshow, ?Hhelm, ?Hdv, ?Hfile, ?Hlv.
        now rewrite planned_trace. }
  exists (Go (MainOrdered.diff set_iter (or_empty_map lv) (or_empty_map dv))
            (map RunHelm (planned_commands a)
             ++ [ReadFile (local_values_file a)])).
  split; [|split].
  - discriminate.
  - intros d t [= <- <-]. split; [reflexivity|].
    exists dv, lv. split; [|reflexivity].
    split; [exists dtext|exists ltext]; now split.
  - intros o. rewrite Hmain, Hp. simpl app.
    rewrite ?Hshow, ?Hhelm, ?Hdv, ?Hfile, ?Hlv.
    now rewrite planned_trace.
Qed.

(* ------------------------------------------------------------------ *)
(** *** What a run puts out *)

Lemma string_app_assoc (x y z : string) :
  ((x ++ y) ++ z = x ++ (y ++ z))%string.
Proof. induction x as [|c x IH]; simpl; [reflexivity|now rewrite IH]. Qed.

Lemma string_app_nil_r (x : string) : (x ++ EmptyString = x)%string.
Proof. induction x as [|c x IH]; simpl; [reflexivity|now rewrite IH]. Qed.

Lemma printed_app (t u : list event) :
  printed (t ++ u) = (printed t ++ printed u)%string.
Proof.
  induction t as [|e t IH]; simpl; [reflexivity|].
  destruct e; try exact IH. now rewrite IH, string_app_assoc.
Qed.

Lemma written_app (path : string) (t u : list event) :
  written path (t ++ u) = (written path t ++ written path u)%string.
Proof.
  induction t as [|e t IH]; simpl; [reflexivity|].
  destruct e; try exact IH.
  destruct (String.eqb path0 path); [|exact IH].
  now rewrite IH, string_app_assoc.
Qed.

Lemma helm_trace_quiet (cs : list (list string)) (path : string) :
  printed (map RunHelm cs) = EmptyString
  /\ written path (map RunHelm cs) = EmptyString
  /\ forallb silent (map RunHelm cs) = true.
Proof. induction cs as [|c cs IH]; simpl; [now repeat split|exact IH]. Qed.

Lemma early_trace_quiet (a : arguments) (t : list event) (path : string) :
  stops_early a t ->
  printed t = EmptyString /\ written path t = EmptyString
  /\ forallb silent t = true.
Proof.
  intros [(n & _ & ->) | ->].
  - apply helm_trace_quiet.
  - rewrite printed_app, written_app, forallb_app.
    destruct (helm_trace_quiet (planned_commands a) path) as (-> & -> & ->).
    now repeat split.
Qed.

Lemma early_commands_first (a : arguments) (t : list event) :
  stops_early a t -> commands_first a t.
Proof.
  intros [(n & Hn & ->) | ->].
  - exists n, []. rewrite app_nil_r. repeat split; try lia. now intros [].
  - exists (List.length (planned_commands a)), [ReadFile (local_values_file a)].
    rewrite firstn_all, planned_length. repeat split; lia.
Qed.

Lemma put_out_commands_first (a : arguments) (rest : list event) :
  forallb (fun e => negb (is_helm e)) rest = true ->
  commands_first a
    ((map RunHelm (planned_commands a) ++ [ReadFile (local_values_file a)])
     ++ rest).
Proof.
  intros Hrest.
  exists (List.length (planned_commands a)),
    (ReadFile (local_values_file a) :: rest).
  rewrite firstn_all, planned_length, <- app_assoc. simpl.
  repeat split; try lia. exact Hrest.
Qed.

Lemma main_py_put_out_events (w : world) (a : arguments) (c : string)
    (d : value) (t : list event) :
  exists rest,
    trace_of (main_py_put_out w a c d t) = t ++ rest
    /\ forallb (fun e => negb (is_helm e)) rest = true.
Proof.
  unfold main_py_put_out, write_file, emit, and_then, ret, sys_exit.
  destruct (negb (MainProgram.output_generated d));
    destruct (output_path a) as [path|];
    try destruct (writable w path); simpl;
    first [ exists []; now rewrite app_nil_r
          | rewrite <- ?app_assoc; eexists; split; [reflexivity|reflexivity] ].
Qed.

Lemma main_ordered_put_out_events (w : world) (a : arguments) (c : string)
    (d : value) (t : list event) :
  exists rest,
    trace_of (main_ordered_put_out w a c d t) = t ++ rest
    /\ forallb (fun e => negb (is_helm e)) rest = true.
Proof.
  unfold main_ordered_put_out, write_file, emit, and_then, ret, sys_exit.
  destruct (String.eqb _ EmptyString);
    destruct (output_path a) as [path|];
    try destruct (writable w path); cbn [trace_of];
    first [ exists []; now rewrite app_nil_r
          | rewrite <- ?app_assoc; eexists; split; [reflexivity|reflexivity] ].
Qed.

Lemma main_py_commands_first (w : world) (a : arguments) :
  commands_first a (trace_of (MainProgram.main w a [])).
Proof.
  destruct (main_py_front w a) as (front & Hhalt & Hgo & Hmain).
  specialize (Hmain (output a)). rewrite with_output_same in Hmain.
  rewrite Hmain. destruct front as [d t|how t].
  - destruct (Hgo d t eq_refl) as [-> _].
    destruct (main_py_put_out_events w a (chart_reference a) d
                (map RunHelm (planned_commands a)
                 ++ [ReadFile (local_values_file a)])) as (rest & -> & Hrest).
    now apply put_out_commands_first.
  - apply early_commands_first. now apply (Hhalt how t).
Qed.

Lemma main_ordered_commands_first (set_iter : MainOrdered.pyset -> list string)
    (w : world) (a : arguments) :
  commands_first a (trace_of (MainOrderedProgram.main set_iter w a [])).
Proof.
  destruct (main_ordered_front set_iter w a) as (front & Hhalt & Hgo & Hmain).
  specialize (Hmain (output a)). rewrite with_output_same in Hmain.
  rewrite Hmain. destruct front as [d t|how t].
  - destruct (Hgo d t eq_refl) as [-> _].
    destruct (main_ordered_put_out_events w a (chart_reference a) d
                (map RunHelm (planned_commands a)
                 ++ [ReadFile (local_values_file a)])) as (rest & -> & Hrest).
    now apply put_out_commands_first.
  - apply early_commands_first. now apply (Hhalt how t).
Qed.

(** X1 — in both programs a run starts the helm commands it plans, in
    order ([repo add] and [repo update] when asked for, then
    [show values]) and at least the first of them; it opens the local file,
    writes or prints only after all of them have been run, and runs no
    other command. *)
Theorem X1_commands_first (set_iter : MainOrdered.pyset -> list string)
    (w : world) (a : arguments) :
  commands_first a (trace_of (MainProgram.main w a []))
  /\ commands_first a (trace_of (MainOrderedProgram.main set_iter w a [])).
Proof.
  split.
  - apply main_py_commands_first.
  - apply main_ordered_commands_first.
Qed.


Lemma split_at_first_app (sep : ascii) (name url : string) :
  has_char sep name = false ->
  split_at_first sep (name ++ String sep url) = Some (name, url).
Proof.
  induction name as [|c name IH]; simpl.
  - intros _. now rewrite Ascii.eqb_refl.
  - intros H. apply orb_false_iff in H as [Hc Hname].
    rewrite Hc, IH by exact Hname. reflexivity.
Qed.

Lemma split_at_first_None (sep : ascii) (s : string) :
  has_char sep s = false -> split_at_first sep s = None.
Proof.
  induction s as [|c s IH]; simpl; [reflexivity|].
  intros H. apply orb_false_iff in H as [Hc Hs].
  now rewrite Hc, IH.
Qed.

Lemma commands_first_head (a : arguments) (t : list event)
    (c : list string) (cs : list (list string)) :
  planned_commands a = c :: cs ->
  commands_first a t -> exists rest, t = RunHelm c :: rest.
Proof.
  intros Hplan (n & rest & Hn & -> & _). rewrite Hplan.
  destruct n as [|n]; [lia|]. simpl. eauto.
Qed.

(** X3 — with [--add-repo] and a [--repo] of the form [name=url], where
    [name] is the text before the first [=], both programs first run
    [helm repo add name url] and refer to the chart as [name/chart]; with
    [--add-repo] and a [--repo] without [=] no repository is added and the
    chart is [repo/chart]. *)
Theorem X3_add_repo (set_iter : MainOrdered.pyset -> list string)
    (w : world) (a : arguments) :
  add_repo a = true ->
  (forall name url,
      repo a = (name ++ "=" ++ url)%string -> has_char "=" name = false ->
      chart_reference a = (name ++ "/" ++ chart a)%string
      /\ (exists rest,
            trace_of (MainProgram.main w a [])
            = RunHelm ["helm"; "repo"; "add"; name; url]%string :: rest)
      /\ (exists rest,
            trace_of (MainOrderedProgram.main set_iter w a [])
            = RunHelm ["helm"; "repo"; "add"; name; url]%string :: rest))
  /\ (has_char "=" (repo a) = false ->
      chart_reference a = (repo a ++ "/" ++ chart a)%string
      /\ planned_commands a
         = (if update_repo a then [["helm"; "repo"; "update"]%string] else [])
           ++ [["helm"; "show"; "values"; (repo a ++ "/" ++ chart a)%string;
                "--version"; version a]%string]).
Proof.
  intros Hadd. split.
  - intros name url Hrepo Hname.
    assert (Hsplit : split_once "=" (repo a) = [name; url]).
    { unfold split_once. rewrite Hrepo. simpl append.
      now rewrite split_at_first_app. }
    assert (Hplan : planned_commands a
                    = ["helm"; "repo"; "add"; name; url]%string
                      :: (if update_repo a
                          then [["helm"; "repo"; "update"]%string] else [])
                         ++ [show_command a]).
    { unfold planned_commands, repo_commands. now rewrite Hadd, Hsplit. }
    repeat apply conj.
    + unfold chart_reference. now rewrite Hadd, Hsplit.
    + eapply commands_first_head; [exact Hplan|apply main_py_commands_first].
    + eapply commands_first_head;
        [exact Hplan|apply main_ordered_commands_first].
  - intros Hplain.
    assert (Hsplit : split_once "=" (repo a) = [repo a]).
    { unfold split_once. now rewrite split_at_first_None. }
    assert (Href : chart_reference a = (repo a ++ "/" ++ chart a)%string).
    { unfold chart_reference. now rewrite Hadd, Hsplit. }
    split; [exact Href|].
    unfold planned_commands, repo_commands, show_command.
    now rewrite Hadd, Hsplit, Href.
Qed.

Lemma X3_add_repo_witness :
  chart_reference example_add_repo_arguments = "bitnami/nginx"%string
  /\ exists rest,
       trace_of
         (MainProgram.main
            (example_world "a: 1" "a: 1" (VDict [("a"%string, VInt 1)])
               (VDict [("a"%string, VInt 1)]) true)
            example_add_repo_arguments [])
       = RunHelm ["helm"; "repo"; "add"; "bitnami"; "https://charts.example"]%string
         :: rest.
Proof.
  destruct (X3_add_repo MainOrdered.insertion_order
              (example_world "a: 1" "a: 1" (VDict [("a"%string, VInt 1)])
                 (VDict [("a"%string, VInt 1)]) true)
              example_add_repo_arguments eq_refl) as [Hsplit _].
  destruct (Hsplit "bitnami"%string "https://charts.example"%string
              eq_refl eq_refl) as (Hchart & Hmain & _).
  split; [exact Hchart|exact Hmain].
Defined.

Lemma loads_functional (w : world) (a : arguments) (dv lv dv' lv' : value) :
  loads w a dv lv -> loads w a dv' lv' -> dv = dv' /\ lv = lv'.
Proof.
  intros [(dt & Hh & Hd) (lt & Hf & Hl)] [(dt' & Hh' & Hd') (lt' & Hf' & Hl')].
  split; congruence.
Qed.

Lemma Main_diff_of_empty (lv d : value) :
  is_empty_document lv = true ->
  MainProgram.output_generated (Main.diff (or_empty_map lv) d) = false.
Proof.
  intros He.
  assert (Hl : or_empty_map lv = VDict [] \/ or_empty_map lv = VList []).
  { destruct lv as [| | | | |[|x xs]|[|e m]]; try discriminate He; auto. }
  destruct Hl as [-> | ->].
  - destruct (isinstance_map d) eqn:Hd.
    + destruct d; try discriminate Hd. now rewrite Main_diff_dict.
    + rewrite Main_diff_leaf by (simpl; exact Hd).
      now destruct (negb _ || _).
  - rewrite Main_diff_leaf by reflexivity. now destruct (negb _ || _).
Qed.

Lemma MO_diff_of_empty (set_iter : MainOrdered.pyset -> list string)
    (lv d : value) :
  is_empty_document lv = true ->
  is_not_none (MainOrdered.diff set_iter (or_empty_map lv) d)
  && truthy (MainOrdered.diff set_iter (or_empty_map lv) d) = false.
Proof.
  intros He.
  assert (Hl : or_empty_map lv = VDict [] \/ or_empty_map lv = VList []).
  { destruct lv as [| | | | |[|x xs]|[|e m]]; try discriminate He; auto. }
  destruct Hl as [-> | ->].
  - destruct (isinstance_map d) eqn:Hd.
    + destruct d; try discriminate Hd.
      rewrite MO_diff_dict, collect_all_none; [reflexivity|].
      intros k _. reflexivity.
    + rewrite MO_diff_leaf by (simpl; exact Hd).
      now destruct (negb _ || _).
  - rewrite MO_diff_leaf by reflexivity. now destruct (negb _ || _).
Qed.

Lemma front_trace_silent (a : arguments) :
  forallb silent
    (map RunHelm (planned_commands a) ++ [ReadFile (local_values_file a)])
  = true.
Proof.
  rewrite forallb_app.
  destruct (helm_trace_quiet (planned_commands a) EmptyString) as (_ & _ & ->).
  reflexivity.
Qed.

(** X4 — when the local values file is empty (no document, an empty map or
    an empty sequence), neither program puts out any text, whatever the
    defaults are and whatever else happens: it prints nothing and writes,
    at most, an empty file. *)
Theorem X4_empty_local_is_silent (set_iter : MainOrdered.pyset -> list string)
    (w : world) (a : arguments) :
  (forall ltext lv,
      file_text w (local_values_file a) = Some ltext ->
      yaml_load w ltext = Some lv -> is_empty_document lv = true) ->
  forallb silent (trace_of (MainProgram.main w a [])) = true
  /\ forallb silent (trace_of (MainOrderedProgram.main set_iter w a [])) = true.
Proof.
  intros Hempty. split.
  - destruct (main_py_front w a) as (front & Hhalt & Hgo & Hmain).
    specialize (Hmain (output a)). rewrite with_output_same in Hmain.
    rewrite Hmain. destruct front as [d t|how t].
    + destruct (Hgo d t eq_refl) as (-> & dv & lv & [_ (lt & Hf & Hl)] & ->).
      unfold main_py_put_out.
      rewrite (Main_diff_of_empty lv (or_empty_map dv) (Hempty lt lv Hf Hl)).
      unfold write_file, emit, ret. cbn [negb].
      destruct (output_path a) as [path|]; [destruct (writable w path)|];
        cbv beta iota; cbn [trace_of];
        first [ apply front_trace_silent
              | rewrite forallb_app, front_trace_silent; reflexivity ].
    + now apply (early_trace_quiet a t EmptyString), (Hhalt how t).
  - destruct (main_ordered_front set_iter w a) as (front & Hhalt & Hgo & Hmain).
    specialize (Hmain (output a)). rewrite with_output_same in Hmain.
    rewrite Hmain. destruct front as [d t|how t].
    + destruct (Hgo d t eq_refl) as (-> & dv & lv & [_ (lt & Hf & Hl)] & ->).
      unfold main_ordered_put_out.
      rewrite (MO_diff_of_empty set_iter lv (or_empty_map dv)
                 (Hempty lt lv Hf Hl)).
      unfold write_file, emit, ret. cbv beta iota zeta. cbn [String.eqb].
      destruct (output_path a) as [path|]; [destruct (writable w path)|];
        cbv beta iota; cbn [trace_of];
        first [ apply front_trace_silent
              | rewrite forallb_app, front_trace_silent; reflexivity ].
    + now apply (early_trace_quiet a t EmptyString), (Hhalt how t).
Qed.

Lemma X4_empty_local_is_silent_witness :
  forallb silent
    (trace_of
       (MainProgram.main
          (example_world "a: 1" EmptyString (VDict [("a"%string, VInt 1)]) VNone true)
          (example_arguments (Some "out.yaml"%string)) []))
  = true.
Proof.
  apply (X4_empty_local_is_silent MainOrdered.insertion_order
           (example_world "a: 1" EmptyString (VDict [("a"%string, VInt 1)]) VNone true)
           (example_arguments (Some "out.yaml"%string))).
  intros ltext lv [= <-]. simpl. now intros [= <-].
Defined.

Lemma main_py_loaded (w : world) (a : arguments) (dv lv : value) :
  (forall t c, helm_stdout w t c <> None) ->
  loads w a dv lv ->
  MainProgram.main w a []
  = main_py_put_out w a (chart_reference a)
      (Main.diff (or_empty_map lv) (or_empty_map dv))
      (map RunHelm (planned_commands a) ++ [ReadFile (local_values_file a)]).
Proof.
  intros Hhelm Hloads.
  destruct (main_py_front w a) as (front & Hhalt & Hgo & Hmain).
  specialize (Hmain (output a)). rewrite with_output_same in Hmain.
  rewrite Hmain. destruct front as [d t|how t].
  - destruct (Hgo d t eq_refl) as (-> & dv' & lv' & Hl' & ->).
    now destruct (loads_functional w a dv lv dv' lv' Hloads Hl') as [-> ->].
  - destruct (Hhalt how t eq_refl) as (_ & _ & [(t' & c & Hnone) | Hno]).
    + now elim (Hhelm t' c).
    + now elim (Hno dv lv).
Qed.

Lemma main_ordered_loaded (set_iter : MainOrdered.pyset -> list string)
    (w : world) (a : arguments) (dv lv : value) :
  (forall t c, helm_stdout w t c <> None) ->
  loads w a dv lv ->
  MainOrderedProgram.main set_iter w a []
  = main_ordered_put_out w a (chart_reference a)
      (MainOrdered.diff set_iter (or_empty_map lv) (or_empty_map dv))
      (map RunHelm (planned_commands a) ++ [ReadFile (local_values_file a)]).
Proof.
  intros Hhelm Hloads.
  destruct (main_ordered_front set_iter w a) as (front & Hhalt & Hgo & Hmain).
  specialize (Hmain (output a)). rewrite with_output_same in Hmain.
  rewrite Hmain. destruct front as [d t|how t].
  - destruct (Hgo d t eq_refl) as (-> & dv' & lv' & Hl' & ->).
    now destruct (loads_functional w a dv lv dv' lv' Hloads Hl') as [-> ->].
  - destruct (Hhalt how t eq_refl) as (_ & _ & [(t' & c & Hnone) | Hno]).
    + now elim (Hhelm t' c).
    + now elim (Hno dv lv).
Qed.

(** X5 — the normal run: when helm succeeds, the defaults and the local
    file are mappings and [--output] names a file that can be written,
    main.py runs the planned commands, opens the local file and writes the
    output file once: the header followed by the dump of the difference
    when the comparison finds one, and an empty file when it finds none.
    main-ordered.py does the same, but writes an empty file also when the
    dump of the difference is empty. *)
Theorem X5_mappings_to_file (set_iter : MainOrdered.pyset -> list string)
    (w : world) (a : arguments) (de le : dict) (path : string) :
  (forall t c, helm_stdout w t c <> None) ->
  loads w a (VDict de) (VDict le) ->
  output_path a = Some path ->
  writable w path = true ->
  (forall r,
      Main.extractOverrides (VDict le) (VDict de) = Returns r ->
      MainProgram.main w a []
      = Go tt
          (map RunHelm (planned_commands a)
           ++ [ReadFile (local_values_file a);
               WriteFile path
                 (match r with
                  | Some D =>
                      header (chart_reference a) (version a)
                        (local_values_file a) ++ yaml_dump w D
                  | None => EmptyString
                  end)]))
  /\ (forall r,
        MainOrdered.extractOverrides set_iter (VDict le) (VDict de) = Returns r ->
        MainOrderedProgram.main set_iter w a []
        = Go tt
            (map RunHelm (planned_commands a)
             ++ [ReadFile (local_values_file a);
                 WriteFile path
                   (match r with
                    | Some D =>
                        if String.eqb (yaml_dump w D) EmptyString
                        then EmptyString
                        else header (chart_reference a) (version a)
                               (local_values_file a) ++ yaml_dump w D
                    | None => EmptyString
                    end)])).
Proof.
  intros Hhelm Hloads Hpath Hw. split; intros r Hr.
  - rewrite Main_extract in Hr. injection Hr as <-.
    rewrite (main_py_loaded w a _ _ Hhelm Hloads).
    cbn [or_empty_map is_not_none]. rewrite Main_diff_dict.
    unfold main_py_put_out, write_file, emit. rewrite Hpath, Hw.
    destruct (collect_from _ _ _) as [|e m]; simpl;
      now rewrite <- app_assoc.
  - rewrite MO_extract in Hr. injection Hr as <-.
    rewrite (main_ordered_loaded set_iter w a _ _ Hhelm Hloads).
    cbn [or_empty_map is_not_none]. rewrite MO_diff_dict.
    unfold main_ordered_put_out, write_file, emit. rewrite Hpath, Hw.
    destruct (collect_from _ _ _) as [|e m]; simpl.
    + now rewrite <- app_assoc.
    + destruct (String.eqb (yaml_dump w _) EmptyString);
        now rewrite <- app_assoc.
Qed.

Lemma X5_mappings_to_file_witness :
  MainProgram.main
    (example_world "b: 3" "b: 2" (VDict [("b"%string, VInt 3)])
       (VDict [("b"%string, VInt 2)]) true)
    (example_arguments (Some "out.yaml"%string)) []
  = Go tt
      [RunHelm ["helm"; "show"; "values"; "bitnami/nginx"; "--version"; "1.0.0"]%string;
       ReadFile "values.yaml";
       WriteFile "out.yaml"
         (header "bitnami/nginx" "1.0.0" "values.yaml" ++ "dump")].
Proof.
  assert (Hhelm : forall (t : list event) (c : list string),
            helm_stdout
              (example_world "b: 3" "b: 2" (VDict [("b"%string, VInt 3)])
                 (VDict [("b"%string, VInt 2)]) true) t c <> None)
    by discriminate.
  assert (Hloads : loads
            (example_world "b: 3" "b: 2" (VDict [("b"%string, VInt 3)])
               (VDict [("b"%string, VInt 2)]) true)
            (example_arguments (Some "out.yaml"%string))
            (VDict [("b"%string, VInt 3)]) (VDict [("b"%string, VInt 2)])).
  { split; [exists "b: 3"%string|exists "b: 2"%string]; split; reflexivity. }
  exact (proj1 (X5_mappings_to_file MainOrdered.insertion_order
                  (example_world "b: 3" "b: 2" (VDict [("b"%string, VInt 3)])
                     (VDict [("b"%string, VInt 2)]) true)
                  (example_arguments (Some "out.yaml"%string))
                  [("b"%string, VInt 3)] [("b"%string, VInt 2)]
                  "out.yaml"%string Hhelm Hloads eq_refl eq_refl)
               (Some (VDict [("b"%string, VInt 2)])) eq_refl).
Defined.

Lemma front_trace_quiet (a : arguments) (path : string) :
  printed (map RunHelm (planned_commands a) ++ [ReadFile (local_values_file a)])
  = EmptyString
  /\ written path
       (map RunHelm (planned_commands a) ++ [ReadFile (local_values_file a)])
     = EmptyString.
Proof.
  rewrite printed_app, written_app.
  destruct (helm_trace_quiet (planned_commands a) path) as (-> & -> & _).
  now split.
Qed.

Lemma output_path_with (a : arguments) (path : string) :
  path <> EmptyString ->
  output_path (with_output a (Some path)) = Some path
  /\ output_path (with_output a None) = None.
Proof.
  intros Hne. unfold output_path. cbn [output with_output].
  destruct (String.eqb_spec path EmptyString); [contradiction|now split].
Qed.

(** X6 — standard output and the output file carry the same text: what
    main.py prints without [--output] is what it writes to the file with
    [--output], in every run; main-ordered.py prints that text too, with
    one more line feed at its end when there is a difference. *)
Theorem X6_stdout_matches_file (set_iter : MainOrdered.pyset -> list string)
    (w : world) (a : arguments) (path : string) :
  path <> EmptyString ->
  writable w path = true ->
  printed (trace_of (MainProgram.main w (with_output a None) []))
  = written path (trace_of (MainProgram.main w (with_output a (Some path)) []))
  /\ printed (trace_of (MainOrderedProgram.main set_iter w (with_output a None) []))
     = (let text :=
          written path
            (trace_of (MainOrderedProgram.main set_iter w
                         (with_output a (Some path)) [])) in
        if String.eqb text EmptyString then EmptyString
        else (text ++ nl)%string).
Proof.
  intros Hne Hw. destruct (output_path_with a path Hne) as [Hsome Hnone].
  split.
  - destruct (main_py_front w a) as (front & Hhalt & Hgo & Hmain).
    rewrite (Hmain None), (Hmain (Some path)).
    destruct front as [d t|how t].
    + destruct (Hgo d t eq_refl) as [-> _].
      destruct (front_trace_quiet a path) as [Hp Hwr].
      revert Hp Hwr.
      generalize (map RunHelm (planned_commands a)
                  ++ [ReadFile (local_values_file a)]).
      intros t0 Hp Hwr.
      unfold main_py_put_out, write_file, emit, and_then, ret.
      rewrite Hsome, Hnone, Hw. cbn [version local_values_file with_output].
      destruct (negb (MainProgram.output_generated d)); cbn [trace_of].
      * rewrite written_app, Hp, Hwr. cbn [written].
        now rewrite String.eqb_refl.
      * rewrite !printed_app, written_app, Hp, Hwr. cbn [printed written].
        rewrite String.eqb_refl. cbn [append].
        now rewrite !string_app_nil_r.
    + cbn [trace_of].
      destruct (Hhalt how t eq_refl) as (_ & Hearly & _).
      now destruct (early_trace_quiet a t path Hearly) as (-> & -> & _).
  - destruct (main_ordered_front set_iter w a) as (front & Hhalt & Hgo & Hmain).
    rewrite (Hmain None), (Hmain (Some path)).
    destruct front as [d t|how t].
    + destruct (Hgo d t eq_refl) as [-> _].
      destruct (front_trace_quiet a path) as [Hp Hwr].
      revert Hp Hwr.
      generalize (map RunHelm (planned_commands a)
                  ++ [ReadFile (local_values_file a)]).
      intros t0 Hp Hwr.
      unfold main_ordered_put_out, write_file, emit, and_then, ret.
      rewrite Hsome, Hnone, Hw. cbn [version local_values_file with_output].
      cbv zeta.
      destruct (String.eqb _ EmptyString) eqn:Hyaml; cbn [trace_of].
      * rewrite written_app, Hp, Hwr. cbn [written].
        now rewrite String.eqb_refl.
      * rewrite !printed_app, written_app, Hp, Hwr. cbn [printed written].
        rewrite String.eqb_refl. unfold header.
        rewrite ?string_app_nil_r, ?string_app_assoc.
        cbn [append String.eqb]. reflexivity.
    + cbn [trace_of].
      destruct (Hhalt how t eq_refl) as (_ & Hearly & _).
      now destruct (early_trace_quiet a t path Hearly) as (-> & -> & _).
Qed.

Lemma X6_stdout_matches_file_witness :
  printed
    (trace_of
       (MainProgram.main
          (example_world "b: 3" "b: 2" (VDict [("b"%string, VInt 3)])
             (VDict [("b"%string, VInt 2)]) true)
          (with_output (example_arguments None) None) []))
  = written "out.yaml"
      (trace_of
         (MainProgram.main
            (example_world "b: 3" "b: 2" (VDict [("b"%string, VInt 3)])
               (VDict [("b"%string, VInt 2)]) true)
            (with_output (example_arguments None) (Some "out.yaml"%string)) [])).
Proof.
  assert (Hne : "out.yaml"%string <> EmptyString) by discriminate.
  exact (proj1 (X6_stdout_matches_file MainOrdered.insertion_order
                  (example_world "b: 3" "b: 2" (VDict [("b"%string, VInt 3)])
                     (VDict [("b"%string, VInt 2)]) true)
                  (example_arguments None) "out.yaml"%string Hne eq_refl)).
Defined.

(** X7 — a local file whose document is a scalar that Python takes for
    false ([0], [0.0], [false] or the empty text) while the chart's
    defaults are a mapping: main.py treats the scalar as the difference and
    prints the header and its dump; main-ordered.py tests the difference
    for truth and prints nothing. *)
Theorem X7_falsy_scalar_document (set_iter : MainOrdered.pyset -> list string)
    (w : world) (a : arguments) (de : dict) (lv : value) :
  (forall t c, helm_stdout w t c <> None) ->
  loads w a (VDict de) lv ->
  is_not_none lv = true ->
  isinstance_map lv || isinstance_seq lv = false ->
  truthy lv = false ->
  output_path a = None ->
  MainProgram.main w a []
  = Go tt
      (map RunHelm (planned_commands a)
       ++ [ReadFile (local_values_file a);
           Print (header (chart_reference a) (version a) (local_values_file a));
           Print (yaml_dump w lv)])
  /\ MainOrderedProgram.main set_iter w a []
     = Go tt
         (map RunHelm (planned_commands a) ++ [ReadFile (local_values_file a)]).
Proof.
  intros Hhelm Hloads Hnone Hscalar Hfalse Hpath.
  apply orb_false_elim in Hscalar. destruct Hscalar as [Hmap Hseq].
  assert (Hleaf : isinstance_map lv && isinstance_map (VDict de) = false)
    by now rewrite Hmap.
  split.
  - rewrite (main_py_loaded w a _ _ Hhelm Hloads).
    unfold or_empty_map. rewrite Hnone. cbn [is_not_none].
    rewrite (Main_diff_leaf lv (VDict de) Hleaf).
    assert (Hkind : negb (kind_eqb (kind_of lv) (kind_of (VDict de))) = true)
      by (destruct lv; try discriminate; reflexivity).
    rewrite Hkind. cbn [orb].
    unfold main_py_put_out, MainProgram.output_generated, emit, and_then.
    rewrite Hnone, Hmap, Hseq, Hpath. cbn [andb orb negb].
    now rewrite <- !app_assoc.
  - rewrite (main_ordered_loaded set_iter w a _ _ Hhelm Hloads).
    unfold or_empty_map. rewrite Hnone. cbn [is_not_none].
    rewrite (MO_diff_leaf set_iter lv (VDict de) Hleaf).
    assert (Htype : negb (pytype_eqb (type_of lv) (type_of (VDict de))) = true)
      by (destruct lv; try discriminate; reflexivity).
    rewrite Htype. cbn [orb].
    unfold main_ordered_put_out, ret.
    rewrite Hnone, Hfalse, Hpath. reflexivity.
Qed.

Lemma X7_falsy_scalar_document_witness :
  MainOrderedProgram.main MainOrdered.insertion_order
    (example_world "a: 1" "0" (VDict [("a"%string, VInt 1)]) (VInt 0) true)
    (example_arguments None) []
  = Go tt
      [RunHelm ["helm"; "show"; "values"; "bitnami/nginx"; "--version"; "1.0.0"]%string;
       ReadFile "values.yaml"].
Proof.
  assert (Hhelm : forall (t : list event) (c : list string),
            helm_stdout
              (example_world "a: 1" "0" (VDict [("a"%string, VInt 1)])
                 (VInt 0) true) t c <> None)
    by discriminate.
  assert (Hloads : loads
            (example_world "a: 1" "0" (VDict [("a"%string, VInt 1)])
               (VInt 0) true)
            (example_arguments None)
            (VDict [("a"%string, VInt 1)]) (VInt 0)).
  { split; [exists "a: 1"%string|exists "0"%string]; split; reflexivity. }
  exact (proj2 (X7_falsy_scalar_document MainOrdered.insertion_order
                  (example_world "a: 1" "0" (VDict [("a"%string, VInt 1)])
                     (VInt 0) true)
                  (example_arguments None)
                  [("a"%string, VInt 1)] (VInt 0)
                  Hhelm Hloads eq_refl eq_refl eq_refl eq_refl)).
Defined.

Lemma front_stops_early (a : arguments) :
  stops_early a
    (map RunHelm (planned_commands a) ++ [ReadFile (local_values_file a)]).
Proof. now right. Qed.

(** X8 — with [--output] naming a file that cannot be opened for writing,
    neither program writes or prints anything: the trace of a run is that
    of a run that stops early, commands and at most the opening of the
    local file.  main-ordered.py never reaches the end of [main] then. *)
Theorem X8_unwritable_output (set_iter : MainOrdered.pyset -> list string)
    (w : world) (a : arguments) (path : string) :
  output_path a = Some path ->
  writable w path = false ->
  stops_early a (trace_of (MainProgram.main w a []))
  /\ stops_early a (trace_of (MainOrderedProgram.main set_iter w a []))
  /\ (forall u t, MainOrderedProgram.main set_iter w a [] <> Go u t).
Proof.
  intros Hpath Hw. repeat apply conj.
  - destruct (main_py_front w a) as (front & Hhalt & Hgo & Hmain).
    specialize (Hmain (output a)). rewrite with_output_same in Hmain.
    rewrite Hmain. destruct front as [d t|how t].
    + destruct (Hgo d t eq_refl) as [-> _].
      unfold main_py_put_out, write_file, sys_exit, ret.
      rewrite Hpath, Hw.
      destruct (negb (MainProgram.output_generated d));
        apply front_stops_early.
    + now apply (Hhalt how t).
  - destruct (main_ordered_front set_iter w a) as (front & Hhalt & Hgo & Hmain).
    specialize (Hmain (output a)). rewrite with_output_same in Hmain.
    rewrite Hmain. destruct front as [d t|how t].
    + destruct (Hgo d t eq_refl) as [-> _].
      unfold main_ordered_put_out, write_file, sys_exit.
      rewrite Hpath, Hw. cbv zeta.
      destruct (String.eqb _ EmptyString); apply front_stops_early.
    + now apply (Hhalt how t).
  - destruct (main_ordered_front set_iter w a) as (front & Hhalt & Hgo & Hmain).
    specialize (Hmain (output a)). rewrite with_output_same in Hmain.
    rewrite Hmain. destruct front as [d t|how t].
    + unfold main_ordered_put_out, write_file, sys_exit.
      rewrite Hpath, Hw. cbv zeta.
      now destruct (String.eqb _ EmptyString).
    + discriminate.
Qed.

Lemma X8_unwritable_output_witness :
  stops_early (example_arguments (Some "out.yaml"%string))
    (trace_of
       (MainProgram.main
          (example_world "a: 1" "a: 2" (VDict [("a"%string, VInt 1)])
             (VDict [("a"%string, VInt 2)]) false)
          (example_arguments (Some "out.yaml"%string)) [])).
Proof.
  exact (proj1 (X8_unwritable_output MainOrdered.insertion_order
                  (example_world "a: 1" "a: 2"
                     (VDict [("a"%string, VInt 1)])
                     (VDict [("a"%string, VInt 2)]) false)
                  (example_arguments (Some "out.yaml"%string))
                  "out.yaml"%string eq_refl eq_refl)).
Defined.

(** X9 — the empty output file that cannot be written: when nothing differs
    from the defaults because the local file is empty, and [--output] names
    a file that cannot be opened, main.py takes the failure for harmless
    and ends normally, while main-ordered.py ends with the exception of
    [open], which nothing catches. *)
Theorem X9_empty_file_not_written (set_iter : MainOrdered.pyset -> list string)
    (w : world) (a : arguments) (dv lv : value) (path : string) :
  (forall t c, helm_stdout w t c <> None) ->
  loads w a dv lv ->
  is_empty_document lv = true ->
  output_path a = Some path ->
  writable w path = false ->
  MainProgram.main w a []
  = Go tt (map RunHelm (planned_commands a) ++ [ReadFile (local_values_file a)])
  /\ MainOrderedProgram.main set_iter w a []
     = Halt Crash
         (map RunHelm (planned_commands a) ++ [ReadFile (local_values_file a)]).
Proof.
  intros Hhelm Hloads Hempty Hpath Hw. split.
  - rewrite (main_py_loaded w a _ _ Hhelm Hloads).
    unfold main_py_put_out, write_file.
    rewrite (Main_diff_of_empty lv (or_empty_map dv) Hempty).
    now rewrite Hpath, Hw.
  - rewrite (main_ordered_loaded set_iter w a _ _ Hhelm Hloads).
    unfold main_ordered_put_out, write_file.
    rewrite (MO_diff_of_empty set_iter lv (or_empty_map dv) Hempty).
    now rewrite Hpath, Hw.
Qed.

Lemma X9_empty_file_not_written_witness :
  MainOrderedProgram.main MainOrdered.insertion_order
    (example_world "a: 1" EmptyString (VDict [("a"%string, VInt 1)]) VNone false)
    (example_arguments (Some "out.yaml"%string)) []
  = Halt Crash
      [RunHelm ["helm"; "show"; "values"; "bitnami/nginx"; "--version"; "1.0.0"]%string;
       ReadFile "values.yaml"].
Proof.
  assert (Hhelm : forall (t : list event) (c : list string),
            helm_stdout
              (example_world "a: 1" EmptyString (VDict [("a"%string, VInt 1)])
                 VNone false) t c <> None)
    by discriminate.
  assert (Hloads : loads
            (example_world "a: 1" EmptyString (VDict [("a"%string, VInt 1)]) VNone false)
            (example_arguments (Some "out.yaml"%string))
            (VDict [("a"%string, VInt 1)]) VNone).
  { split; [exists "a: 1"%string|exists EmptyString]; split; reflexivity. }
  exact (proj2 (X9_empty_file_not_written MainOrdered.insertion_order
                  (example_world "a: 1" EmptyString (VDict [("a"%string, VInt 1)])
                     VNone false)
                  (example_arguments (Some "out.yaml"%string))
                  (VDict [("a"%string, VInt 1)]) VNone "out.yaml"%string
                  Hhelm Hloads eq_refl eq_refl eq_refl)).
Defined.

(* ================================================================== *)
(** ** The schema scripts *)

Lemma ascii_lower_char_idem (c : ascii) :
  ascii_lower_char (ascii_lower_char c) = ascii_lower_char c.
Proof. destruct c as [[] [] [] [] [] [] [] []]; reflexivity. Qed.

Lemma ascii_lower_idem (s : string) : ascii_lower (ascii_lower s) = ascii_lower s.
Proof.
  induction s as [|c s IH]; simpl; [reflexivity|].
  now rewrite ascii_lower_char_idem, IH.
Qed.

(** X10 — [suggest_optimized_type] never suggests [TINYINT]: the branch
    for an [int] column whose values have fewer than 3 characters comes
    after the branch for fewer than 5, which takes every such column and
    makes it a [SMALLINT]. *)
Theorem X10_tinyint_never_suggested (lower : string -> string)
    (c : schema_column) (m : option Z) :
  String.eqb (lower (data_type c)) "TINYINT" = false ->
  String.eqb (MariaDBSchemaOptimizer.suggest_optimized_type lower c m) "TINYINT"
  = false
  /\ forall n,
       lower (data_type c) = "int"%string -> m = Some n -> (n < 5)%Z ->
       MariaDBSchemaOptimizer.suggest_optimized_type lower c m = "SMALLINT"%string.
Proof.
  intros Hlow. split.
  - unfold MariaDBSchemaOptimizer.suggest_optimized_type. cbv zeta.
    destruct (String.eqb (lower (data_type c)) "varchar") eqn:Hvarchar.
    { apply String.eqb_eq in Hvarchar. rewrite Hvarchar. cbn [orb].
      destruct m as [n|].
      - destruct (n <=? 8)%Z; [reflexivity|]. cbn [andb].
        now repeat match goal with
                   | |- context [if ?b then _ else _] => destruct b
                   end.
      - reflexivity. }
    destruct (String.eqb (lower (data_type c)) "char") eqn:Hchar.
    { apply String.eqb_eq in Hchar. rewrite Hchar. cbn [orb andb].
      destruct m as [n|].
      - rewrite andb_false_r.
        now repeat match goal with
                   | |- context [if ?b then _ else _] => destruct b
                   end.
      - reflexivity. }
    cbn [orb].
    destruct (String.eqb (lower (data_type c)) "int"
              || String.eqb (lower (data_type c)) "bigint"
              || String.eqb (lower (data_type c)) "smallint"
              || String.eqb (lower (data_type c)) "tinyint").
    { destruct m as [n|]; [|exact Hlow].
      destruct (String.eqb (lower (data_type c)) "int"); cbn [andb].
      - destruct (n <? 5)%Z eqn:H5; [reflexivity|].
        assert (H3 : (n <? 3)%Z = false) by lia.
        rewrite H3.
        destruct (String.eqb (lower (data_type c)) "bigint" && (n <? 10)%Z);
          [reflexivity|exact Hlow].
      - destruct (String.eqb (lower (data_type c)) "bigint" && (n <? 10)%Z);
          [reflexivity|exact Hlow]. }
    destruct (String.eqb (lower (data_type c)) "decimal").
    { destruct (numeric_precision c) as [p|], (numeric_scale c) as [s|];
        try reflexivity.
      now destruct (negb (p =? 0)%Z && negb (s =? 0)%Z). }
    now destruct (String.eqb (lower (data_type c)) "datetime"
                  || String.eqb (lower (data_type c)) "timestamp").
  - intros n Hint -> Hn.
    unfold MariaDBSchemaOptimizer.suggest_optimized_type. cbv zeta.
    rewrite Hint. cbn [String.eqb Ascii.eqb Bool.eqb orb andb].
    assert (H5 : (n <? 5)%Z = true) by lia.
    now rewrite H5.
Qed.

Lemma X10_tinyint_never_suggested_witness :
  MariaDBSchemaOptimizer.suggest_optimized_type ascii_lower
    (example_column "INT" None (Some 10%Z) (Some 0%Z)) (Some 2%Z)
  = "SMALLINT"%string.
Proof.
  exact (proj2 (X10_tinyint_never_suggested ascii_lower
                  (example_column "INT" None (Some 10%Z) (Some 0%Z))
                  (Some 2%Z) eq_refl)
               2%Z eq_refl eq_refl eq_refl).
Defined.

(** X11 — for a [decimal] column the suggestion does not depend on the
    measured length, and a column without a precision or a scale, or with
    the scale 0 of whole numbers, is given [DECIMAL(10,2)] whatever its
    precision is. *)
Theorem X11_decimal_suggestion (lower : string -> string)
    (c : schema_column) (m : option Z) :
  lower (data_type c) = "decimal"%string ->
  MariaDBSchemaOptimizer.suggest_optimized_type lower c m
  = MariaDBSchemaOptimizer.suggest_optimized_type lower c None
  /\ (int_truthy (numeric_precision c) && int_truthy (numeric_scale c) = false ->
      MariaDBSchemaOptimizer.suggest_optimized_type lower c m
      = "DECIMAL(10,2)"%string).
Proof.
  intros Hdec.
  assert (Hm : forall m',
             MariaDBSchemaOptimizer.suggest_optimized_type lower c m'
             = match numeric_precision c, numeric_scale c with
               | Some p, Some s =>
                   if negb (p =? 0)%Z && negb (s =? 0)%Z
                   then ("DECIMAL(" ++ str_of_int p ++ "," ++ str_of_int s ++ ")")%string
                   else "DECIMAL(10,2)"%string
               | _, _ => "DECIMAL(10,2)"%string
               end).
  { intros m'. unfold MariaDBSchemaOptimizer.suggest_optimized_type.
    cbv zeta. rewrite Hdec. reflexivity. }
  split.
  - now rewrite (Hm m), (Hm None).
  - intros Hfalsy. rewrite (Hm m).
    destruct (numeric_precision c) as [p|], (numeric_scale c) as [s|];
      try reflexivity.
    cbn [int_truthy] in Hfalsy. now rewrite Hfalsy.
Qed.

Lemma X11_decimal_suggestion_witness :
  MariaDBSchemaOptimizer.suggest_optimized_type ascii_lower
    (example_column "decimal" None (Some 18%Z) (Some 0%Z)) (Some 12%Z)
  = "DECIMAL(10,2)"%string.
Proof.
  exact (proj2 (X11_decimal_suggestion ascii_lower
                  (example_column "decimal" None (Some 18%Z) (Some 0%Z))
                  (Some 12%Z) eq_refl)
               eq_refl).
Defined.

Lemma kept_suggestion (lower : string -> string) (c : schema_column)
    (m : option Z) :
  keeps_type lower c m ->
  MariaDBSchemaOptimizer.suggest_optimized_type lower c m = lower (data_type c).
Proof.
  intros (Hvarchar & Hchar & Hdec & Hnum).
  apply String.eqb_neq in Hvarchar, Hchar, Hdec.
  unfold MariaDBSchemaOptimizer.suggest_optimized_type. cbv zeta.
  rewrite Hvarchar, Hchar, Hdec. cbn [orb].
  destruct Hnum as [-> | [Hint Hbig]].
  - now repeat match goal with
               | |- context [if ?b then _ else _] => destruct b
               end.
  - apply String.eqb_neq in Hint, Hbig. rewrite Hint, Hbig. cbn [orb andb].
    destruct m; now repeat match goal with
                           | |- context [if ?b then _ else _] => destruct b
                           end.
Qed.

(** X12 — a column that is no text and no decimal, and no measured [int]
    or [bigint], is suggested its own type in small letters, and the
    summary does not count its entry among the optimizations: a report of
    such columns only counts none. *)
Theorem X12_kept_types_not_counted (lower : string -> string)
    (db tbl now : string) (columns : list (schema_column * option Z)) :
  (forall s, lower (lower s) = lower s) ->
  Forall (fun cm => keeps_type lower (fst cm) (snd cm)) columns ->
  Forall
    (fun cm =>
       MariaDBSchemaOptimizer.suggest_optimized_type lower (fst cm) (snd cm)
       = lower (data_type (fst cm)))
    columns
  /\ MariaDBSchemaOptimizer.optimizations lower
       (map
          (fun cm =>
             MariaDBSchemaOptimizer.schema_entry lower db tbl (fst cm) (snd cm) now)
          columns)
     = 0.
Proof.
  intros Hidem Hkept. split.
  - eapply Forall_impl; [|exact Hkept].
    intros cm. apply kept_suggestion.
  - unfold MariaDBSchemaOptimizer.optimizations.
    induction Hkept as [|cm columns Hcm _ IH]; [reflexivity|].
    cbn [map filter MariaDBSchemaOptimizer.schema_entry optimized_type
         current_type].
    rewrite (kept_suggestion lower _ _ Hcm), Hidem, String.eqb_refl.
    exact IH.
Qed.

Lemma X12_kept_types_not_counted_witness :
  MariaDBSchemaOptimizer.optimizations ascii_lower
    (map
       (fun cm =>
          MariaDBSchemaOptimizer.schema_entry ascii_lower "shop" "orders"
            (fst cm) (snd cm) "2024-01-01T00:00:00")
       [(example_column "INT" None (Some 10%Z) (Some 0%Z), None);
        (example_column "datetime" None None None, Some 19%Z)])
  = 0.
Proof.
  assert (Hkept : Forall
            (fun cm => keeps_type ascii_lower (fst cm) (snd cm))
            [(example_column "INT" None (Some 10%Z) (Some 0%Z), None);
             (example_column "datetime" None None None, Some 19%Z)]).
  { apply Forall_cons; [|apply Forall_cons; [|apply Forall_nil]];
      unfold keeps_type; cbn; repeat apply conj; try discriminate.
    - now left.
    - right. split; discriminate. }
  exact (proj2 (X12_kept_types_not_counted ascii_lower "shop" "orders"
                  "2024-01-01T00:00:00" _ ascii_lower_idem Hkept)).
Defined.

Lemma before_first_wildcard (p q : string) :
  has_char "%" p = false ->
  before_first "%" (p ++ String "%" q)%string = p /\ before_first "%" p = p.
Proof.
  intros Hp. unfold before_first.
  now rewrite split_at_first_app, split_at_first_None.
Qed.

(** X13 — in [tenant_db_pattern] only the text before the first [%]
    counts: [get_all_databases] takes it as a prefix and ignores what
    follows, so the patterns [p%q] and [p] select the same databases. *)
Theorem X13_pattern_suffix_ignored (central p q : string) (dbs : list string) :
  has_char "%" p = false ->
  MariaDBSchemaOptimizer.get_all_databases
    {| central_db := central; tenant_db_pattern := Some (p ++ String "%" q)%string |} dbs
  = MariaDBSchemaOptimizer.get_all_databases
      {| central_db := central; tenant_db_pattern := Some p |} dbs.
Proof.
  intros Hp. unfold MariaDBSchemaOptimizer.get_all_databases.
  cbn [tenant_db_pattern central_db].
  destruct (before_first_wildcard p q Hp) as [-> ->]. reflexivity.
Qed.

Lemma X13_pattern_suffix_ignored_witness :
  MariaDBSchemaOptimizer.get_all_databases
    {| central_db := "central";
       tenant_db_pattern := Some ("tenant_" ++ String "%" "_eu")%string |}
    ["central"; "mysql"; "tenant_7_us"; "other"]%string
  = MariaDBSchemaOptimizer.get_all_databases
      {| central_db := "central"; tenant_db_pattern := Some "tenant_"%string |}
      ["central"; "mysql"; "tenant_7_us"; "other"]%string.
Proof.
  exact (X13_pattern_suffix_ignored "central" "tenant_" "_eu"
           ["central"; "mysql"; "tenant_7_us"; "other"]%string eq_refl).
Defined.

Lemma prefix_empty (s : string) : String.prefix EmptyString s = true.
Proof. now destruct s. Qed.

(** X14 — a [tenant_db_pattern] that begins with [%], or is empty, selects
    every database but the four system schemas; and a system schema is
    never selected, not even as the central database. *)
Theorem X14_selected_databases (cfg : config) (dbs : list string) :
  (forall db,
      In db (MariaDBSchemaOptimizer.get_all_databases cfg dbs) ->
      In db dbs /\ ~ In db MariaDBSchemaOptimizer.excluded_dbs)
  /\ forall q,
       tenant_db_pattern cfg = Some (String "%" q)
       \/ tenant_db_pattern cfg = Some EmptyString ->
       MariaDBSchemaOptimizer.get_all_databases cfg dbs
       = filter
           (fun db =>
              negb (existsb (String.eqb db) MariaDBSchemaOptimizer.excluded_dbs))
           dbs.
Proof.
  split.
  - intros db Hin. unfold MariaDBSchemaOptimizer.get_all_databases in Hin.
    apply filter_In in Hin. destruct Hin as [Hin Hsel].
    split; [exact Hin|].
    apply andb_true_iff in Hsel. destruct Hsel as [Hexcl _].
    apply negb_true_iff in Hexcl. intros Hbad.
    assert (Hex : existsb (String.eqb db) MariaDBSchemaOptimizer.excluded_dbs
                  = true).
    { apply existsb_exists. exists db. split; [exact Hbad|].
      apply String.eqb_refl. }
    congruence.
  - intros q Hpat. unfold MariaDBSchemaOptimizer.get_all_databases.
    assert (Hprefix : before_first "%"
                        match tenant_db_pattern cfg with
                        | Some pattern => pattern
                        | None => "tenant_1"%string
                        end = EmptyString).
    { destruct Hpat as [-> | ->]; reflexivity. }
    rewrite Hprefix. apply filter_ext. intros db.
    now rewrite prefix_empty, orb_true_r, andb_true_r.
Qed.

Lemma X14_selected_databases_witness :
  MariaDBSchemaOptimizer.get_all_databases
    {| central_db := "central";
       tenant_db_pattern := Some (String "%" "_tenant") |}
    ["central"; "mysql"; "billing"; "sys"]%string
  = ["central"; "billing"]%string.
Proof.
  exact (proj2 (X14_selected_databases
                  {| central_db := "central";
                     tenant_db_pattern := Some (String "%" "_tenant") |}
                  ["central"; "mysql"; "billing"; "sys"]%string)
               "_tenant"%string (or_introl eq_refl)).
Defined.

Lemma fold_queries_app (strip : string -> string) (rows : list BuildSql.row)
    (queries : list string) :
  fold_left
    (fun queries r =>
       match BuildSql.row_query strip r with
       | inl alter_query => queries ++ [alter_query]
       | inr _ => queries
       end)
    rows queries
  = queries ++ BuildSql.generate_alter_queries strip rows.
Proof.
  unfold BuildSql.generate_alter_queries.
  revert queries. induction rows as [|r rows IH]; intros queries; simpl.
  - now rewrite app_nil_r.
  - destruct (BuildSql.row_query strip r) as [q|e].
    + rewrite IH, (IH [q]). now rewrite <- app_assoc.
    + apply IH.
Qed.

Lemma generate_cons (strip : string -> string) (r : BuildSql.row)
    (rows : list BuildSql.row) :
  BuildSql.generate_alter_queries strip (r :: rows)
  = match BuildSql.row_query strip r with
    | inl q => [q]
    | inr _ => []
    end ++ BuildSql.generate_alter_queries strip rows.
Proof.
  unfold BuildSql.generate_alter_queries at 1. simpl.
  rewrite fold_queries_app. now destruct (BuildSql.row_query strip r).
Qed.

Lemma row_query_complete (strip : string -> string) (r : BuildSql.row) :
  strip EmptyString = EmptyString ->
  if BuildSql.complete strip r
  then BuildSql.row_query strip r = inl (BuildSql.statement_of strip r)
  else exists e, BuildSql.row_query strip r = inr e.
Proof.
  intros Hstrip.
  unfold BuildSql.row_query, BuildSql.complete, BuildSql.statement_of,
    BuildSql.text_of, BuildSql.get_stripped, BuildSql.stripped, BuildSql.non_empty.
  cbn [forallb].
  destruct (BuildSql.row_lookup r "database") as [[db|]|];
    destruct (BuildSql.row_lookup r "table") as [[tbl|]|];
    destruct (BuildSql.row_lookup r "column") as [[col|]|];
    destruct (BuildSql.row_lookup r "current_type") as [[cur|]|];
    destruct (BuildSql.row_lookup r "optimized_type") as [[opt|]|];
    rewrite ?Hstrip; cbn [String.eqb negb andb];
    rewrite ?andb_false_r; cbn [negb andb]; eauto;
    rewrite ?andb_true_r;
    repeat match goal with
           | |- context [String.eqb (strip ?s) EmptyString] =>
               destruct (String.eqb (strip s) EmptyString)
           end; cbn [negb andb]; eauto.
Qed.

(** X15 — [generate_alter_queries] gives one statement for each row that
    has text, not blank, in all five fields, in the order of the rows, built
    from the stripped texts; every other row gives nothing, and a row is
    never dropped for having the suggested type it already has. *)
Theorem X15_one_statement_per_complete_row (strip : string -> string)
    (rows : list BuildSql.row) :
  strip EmptyString = EmptyString ->
  BuildSql.generate_alter_queries strip rows
  = map (BuildSql.statement_of strip) (filter (BuildSql.complete strip) rows).
Proof.
  intros Hstrip. induction rows as [|r rows IH]; [reflexivity|].
  rewrite generate_cons, IH. cbn [filter].
  pose proof (row_query_complete strip r Hstrip) as Hrow.
  destruct (BuildSql.complete strip r).
  - now rewrite Hrow.
  - destruct Hrow as [e ->]. reflexivity.
Qed.

Lemma X15_one_statement_per_complete_row_witness :
  BuildSql.generate_alter_queries (fun s => s)
    [[("database", Some "shop"); ("table", Some "orders");
      ("column", Some "note"); ("current_type", Some "varchar");
      ("optimized_type", Some "varchar")];
     [("database", Some "shop"); ("table", Some "orders");
      ("column", None); ("current_type", None);
      ("optimized_type", None)]]%string
  = [BuildSql.alter_query "shop" "orders" "note" "varchar" "varchar"].
Proof.
  exact (X15_one_statement_per_complete_row (fun s => s)
           [[("database", Some "shop"); ("table", Some "orders");
             ("column", Some "note"); ("current_type", Some "varchar");
             ("optimized_type", Some "varchar")];
            [("database", Some "shop"); ("table", Some "orders");
             ("column", None); ("current_type", None);
             ("optimized_type", None)]]%string
           eq_refl).
Defined.

(** X16 — the rows are handled one by one: the statements for two lists of
    rows put together are the statements for the first followed by those
    for the second, and there are never more statements than rows. *)
Theorem X16_rows_are_independent (strip : string -> string)
    (rows more : list BuildSql.row) :
  BuildSql.generate_alter_queries strip (rows ++ more)
  = BuildSql.generate_alter_queries strip rows
    ++ BuildSql.generate_alter_queries strip more
  /\ List.length (BuildSql.generate_alter_queries strip rows) <= List.length rows.
Proof.
  split.
  - unfold BuildSql.generate_alter_queries at 1.
    rewrite fold_left_app. fold (BuildSql.generate_alter_queries strip rows).
    apply fold_queries_app.
  - induction rows as [|r rows IH]; [apply Nat.le_refl|].
    rewrite generate_cons, length_app.
    destruct (BuildSql.row_query strip r); simpl; lia.
Qed.

(* ================================================================== *)
(** ** The stack of the interpreter *)

Lemma py_eq_lengths (xs ys : list value) :
  Nat.eqb (List.length xs) (List.length ys) = false ->
  py_eq (VList xs) (VList ys) = false.
Proof.
  intros Hlen. destruct (py_eq (VList xs) (VList ys)) eqn:E; [|reflexivity].
  apply py_eq_list, Forall2_length in E.
  apply Nat.eqb_neq in Hlen. contradiction.
Qed.

(** With frames for every level of the first tree, [==] returns, and
    returns what [py_eq] says. *)
Lemma py_eq_within_enough (py : interpreter) (a : value) :
  forall frames b,
    eq_frames py * S (height a) <= frames ->
    py_eq_within py frames a b = Returns (py_eq a b).
Proof.
  induction a as [a IH] using height_induction. intros frames b Hf.
  assert (Hlt : (frames <? eq_frames py) = false) by (apply Nat.ltb_ge; nia).
  assert (Hsub : forall x, height x < height a ->
            forall y, py_eq_within py (frames - eq_frames py) x y
                      = Returns (py_eq x y)).
  { intros x Hx y. apply IH; [exact Hx|]. nia. }
  clear IH Hf.
  destruct a as [| x | n | f | s | xs | m];
    try (destruct b; cbn [py_eq_within]; rewrite Hlt; reflexivity).
  - destruct b as [| | | | | ys |];
      try (cbn [py_eq_within]; rewrite Hlt; reflexivity).
    cbn [py_eq_within]. rewrite Hlt.
    destruct (Nat.eqb (List.length xs) (List.length ys)) eqn:Hlen; cbn [negb].
    2:{ now rewrite py_eq_lengths. }
    assert (Hitems : forall x, In x xs ->
              forall y, py_eq_within py (frames - eq_frames py) x y
                        = Returns (py_eq x y)).
    { intros x Hx. apply Hsub. now apply height_item. }
    clear Hsub Hlt. apply Nat.eqb_eq in Hlen. simpl py_eq.
    revert ys Hlen.
    induction xs as [|x xs IHxs]; intros [|y ys] Hlen; try discriminate Hlen;
      [reflexivity|].
    rewrite (Hitems x (or_introl eq_refl)). cbn [bind].
    destruct (py_eq x y); cbn [andb]; [|reflexivity].
    apply IHxs.
    + intros x' Hx'. apply Hitems. now right.
    + now injection Hlen.
  - destruct b as [| | | | | | m2];
      try (cbn [py_eq_within]; rewrite Hlt; reflexivity).
    cbn [py_eq_within]. rewrite Hlt, py_eq_dict.
    destruct (Nat.eqb (List.length m) (List.length m2)); cbn [negb andb];
      [|reflexivity].
    assert (Hent : forall k v, In (k, v) m ->
              forall w, py_eq_within py (frames - eq_frames py) v w
                        = Returns (py_eq v w)).
    { intros k v Hv. apply Hsub. eapply height_entry, Hv. }
    clear Hsub Hlt.
    induction m as [|[k v] m IHm]; [reflexivity|].
    cbn [forallb fst snd].
    destruct (dict_lookup m2 k) as [w|]; [|reflexivity].
    rewrite (Hent k v (or_introl eq_refl)). cbn [bind].
    destruct (py_eq v w); cbn [andb]; [|reflexivity].
    apply IHm. intros k' v' Hv'. apply (Hent k'). now right.
Qed.

Lemma py_ne_within_enough (py : interpreter) (a b : value) (frames : nat) :
  eq_frames py * S (height a) <= frames ->
  py_ne_within py frames a b = Returns (py_ne a b).
Proof.
  intros Hf. unfold py_ne_within. now rewrite py_eq_within_enough.
Qed.

(** With frames for every level of the tree, [copy.deepcopy] returns. *)
Lemma deepcopy_within_enough (py : interpreter) (v : value) :
  forall frames,
    copy_frames py * S (height v) <= frames ->
    deepcopy_within py frames v = Returns (deepcopy v).
Proof.
  induction v as [v IH] using height_induction. intros frames Hf.
  assert (Hlt : (frames <? copy_frames py) = false) by (apply Nat.ltb_ge; nia).
  assert (Hsub : forall x, height x < height v ->
            deepcopy_within py (frames - copy_frames py) x
            = Returns (deepcopy x)).
  { intros x Hx. apply IH; [exact Hx|]. nia. }
  assert (Hkey : forall x, height x < height v ->
            forall key, copy_key py (frames - copy_frames py) key = Returns key).
  { intros x Hx key. unfold copy_key.
    assert (Hk : (frames - copy_frames py <? copy_frames py) = false)
      by (apply Nat.ltb_ge; nia).
    now rewrite Hk. }
  clear IH Hf.
  destruct v as [| x | n | f | s | xs | m];
    try (cbn [deepcopy_within]; rewrite Hlt; reflexivity).
  - cbn [deepcopy_within]. rewrite Hlt.
    assert (Hitems : forall x, In x xs ->
              deepcopy_within py (frames - copy_frames py) x
              = Returns (deepcopy x)).
    { intros x Hx. apply Hsub. now apply height_item. }
    clear Hsub Hkey Hlt. cbn [deepcopy].
    assert (Hcopy :
      (fix copy_items (items : list value) : outcome (list value) :=
         match items with
         | [] => Returns []
         | a :: items' =>
             a' <- deepcopy_within py (frames - copy_frames py) a ;;
             y <- copy_items items' ;;
             Returns (a' :: y)
         end) xs = Returns (map deepcopy xs)).
    { induction xs as [|x xs IHxs]; [reflexivity|].
      rewrite (Hitems x (or_introl eq_refl)). cbn [bind].
      rewrite IHxs; [reflexivity|]. intros x' Hx'. apply Hitems. now right. }
    now rewrite Hcopy.
  - cbn [deepcopy_within]. rewrite Hlt.
    assert (Hent : forall k x, In (k, x) m ->
              deepcopy_within py (frames - copy_frames py) x
              = Returns (deepcopy x)
              /\ copy_key py (frames - copy_frames py) k = Returns k).
    { intros k x Hx. split.
      - apply Hsub. eapply height_entry, Hx.
      - apply (Hkey x). eapply height_entry, Hx. }
    clear Hsub Hkey Hlt. cbn [deepcopy].
    assert (Hcopy :
      (fix copy_entries (entries : dict) : outcome dict :=
         match entries with
         | [] => Returns []
         | (key, item) :: entries' =>
             item' <- deepcopy_within py (frames - copy_frames py) item ;;
             key' <- copy_key py (frames - copy_frames py) key ;;
             y <- copy_entries entries' ;;
             Returns ((key', item') :: y)
         end) m
      = Returns (map (fun kv => (fst kv, deepcopy (snd kv))) m)).
    { induction m as [|[k x] m IHm]; [reflexivity|].
      destruct (Hent k x (or_introl eq_refl)) as [-> ->]. cbn [bind].
      rewrite IHm; [reflexivity|]. intros k' x' Hx'. apply (Hent k'). now right. }
    now rewrite Hcopy.
Qed.

Lemma dict_get_height (m : dict) (k : string) :
  height (dict_get m k) <= height (VDict m).
Proof.
  unfold dict_get. destruct (dict_lookup m k) as [v|] eqn:E.
  - apply Nat.lt_le_incl. eapply dict_lookup_height, E.
  - apply Nat.le_0_l.
Qed.

(** The body run on the stack is the body, when the comparison it makes
    returns. *)
Lemma MainOnStack_body (py : interpreter) (frames : nat)
    (self : value -> value -> outcome value) (l d : value) :
  py_ne_within py frames l d = Returns (py_ne l d) ->
  MainOnStack.compare_and_extract_diff_body py frames self l d
  = Main.compare_and_extract_diff_body self l d.
Proof.
  intros Hne.
  unfold MainOnStack.compare_and_extract_diff_body,
    Main.compare_and_extract_diff_body.
  destruct (negb _ || negb _); [reflexivity|].
  destruct l; try reflexivity; now rewrite Hne.
Qed.

(** On a stack that is deep enough, main.py's function is the function. *)
Lemma MainOnStack_enough (py : interpreter) (l : value) :
  forall frames d,
    stack_bound py (height l) <= frames ->
    MainOnStack.compare_and_extract_diff py frames l d
    = Main.compare_and_extract_diff l d.
Proof.
  induction l as [l IH] using height_induction. intros frames d Hf.
  unfold stack_bound in Hf.
  destruct frames as [|rest]; [lia|].
  cbn [MainOnStack.compare_and_extract_diff].
  assert (Hlt : (rest <? body_frames py) = false) by (apply Nat.ltb_ge; nia).
  rewrite Hlt, Main_unfold, MainOnStack_body.
  - apply Main_body_ext. intros l' d' Hl'. apply IH; [exact Hl'|].
    unfold stack_bound. nia.
  - apply py_ne_within_enough. nia.
Qed.

Lemma MainOrderedOnStack_body (set_iter : MainOrdered.pyset -> list string)
    (py : interpreter) (frames : nat)
    (self : value -> value -> outcome value) (l d : value) :
  py_ne_within py frames l d = Returns (py_ne l d) ->
  (forall v, height v <= height l ->
     deepcopy_within py frames v = Returns (deepcopy v)) ->
  MainOrderedOnStack.compare_and_extract_diff_body set_iter py frames self l d
  = MainOrdered.compare_and_extract_diff_body set_iter self l d.
Proof.
  intros Hne Hcopy.
  unfold MainOrderedOnStack.compare_and_extract_diff_body,
    MainOrdered.compare_and_extract_diff_body.
  rewrite (Hcopy l (Nat.le_refl _)).
  destruct (negb _); [reflexivity|].
  destruct l as [| | | | | items | le];
    try (rewrite Hne; cbn [bind]; reflexivity).
  destruct (py_keys d) as [dks|]; cbn [bind]; [|reflexivity].
  f_equal. apply for_each_ext. intros acc k _.
  destruct (py_get d k) as [di|]; cbn [bind]; [|reflexivity].
  destruct (py_in k d) as [b|]; cbn [bind]; [|reflexivity].
  destruct (negb b); [|reflexivity].
  destruct (is_not_none (dict_get le k)); [|reflexivity].
  now rewrite (Hcopy _ (dict_get_height le k)).
Qed.

(** On a stack that is deep enough, main-ordered.py's function is the
    function. *)
Lemma MainOrderedOnStack_enough (set_iter : MainOrdered.pyset -> list string)
    (py : interpreter) (l : value) :
  forall frames d,
    stack_bound py (height l) <= frames ->
    MainOrderedOnStack.compare_and_extract_diff set_iter py frames l d
    = MainOrdered.compare_and_extract_diff set_iter l d.
Proof.
  induction l as [l IH] using height_induction. intros frames d Hf.
  unfold stack_bound in Hf.
  destruct frames as [|rest]; [lia|].
  cbn [MainOrderedOnStack.compare_and_extract_diff].
  assert (Hlt : (rest <? body_frames py) = false) by (apply Nat.ltb_ge; nia).
  rewrite Hlt, MO_unfold, MainOrderedOnStack_body.
  - apply MO_body_ext. intros l' d' Hl'. apply IH; [exact Hl'|].
    unfold stack_bound. nia.
  - apply py_ne_within_enough. nia.
  - intros v Hv. apply deepcopy_within_enough. nia.
Qed.

(** C8 — totality, as far as the stack goes: called with frames enough for
    the nesting depth of the local tree, both functions terminate and
    return a value, raising no exception: the value they return on a stack
    without a limit.  Read as an optional tree the result is either absent
    or a tree. *)
Theorem C8_total_within_stack (set_iter : MainOrdered.pyset -> list string)
    (py : interpreter) (frames : nat) (l d : value) :
  stack_bound py (height l) <= frames ->
  MainOnStack.compare_and_extract_diff py frames l d = Returns (Main.diff l d)
  /\ MainOnStack.extractOverrides py frames l d
     = Returns (option_of (Main.diff l d))
  /\ MainOrderedOnStack.compare_and_extract_diff set_iter py frames l d
     = Returns (MainOrdered.diff set_iter l d)
  /\ MainOrderedOnStack.extractOverrides set_iter py frames l d
     = Returns (option_of (MainOrdered.diff set_iter l d)).
Proof.
  intros Hf.
  assert (H1 : MainOnStack.compare_and_extract_diff py frames l d
               = Returns (Main.diff l d)).
  { rewrite MainOnStack_enough by exact Hf. apply Main_returns. }
  assert (H2 : MainOrderedOnStack.compare_and_extract_diff set_iter py frames l d
               = Returns (MainOrdered.diff set_iter l d)).
  { rewrite MainOrderedOnStack_enough by exact Hf. apply MO_returns. }
  repeat apply conj.
  - exact H1.
  - unfold MainOnStack.extractOverrides. now rewrite H1.
  - exact H2.
  - unfold MainOrderedOnStack.extractOverrides. now rewrite H2.
Qed.

Lemma C8_total_within_stack_witness :
  MainOrderedOnStack.extractOverrides MainOrdered.insertion_order cpython 1000
    (VDict [("a"%string, VDict [("b"%string, VList [VInt 1])])])
    (VDict [("a"%string, VDict [("b"%string, VList [VInt 2])])])
  = Returns (Some (VDict [("a"%string, VDict [("b"%string, VList [VInt 1])])])).
Proof.
  assert (Hf : stack_bound cpython
                 (height (VDict [("a"%string,
                                  VDict [("b"%string, VList [VInt 1])])]))
               <= 1000)
    by (apply Nat.leb_le; reflexivity).
  exact (proj2 (proj2 (proj2
           (C8_total_within_stack MainOrdered.insertion_order cpython 1000
              (VDict [("a"%string, VDict [("b"%string, VList [VInt 1])])])
              (VDict [("a"%string, VDict [("b"%string, VList [VInt 2])])])
              Hf)))).
Defined.

(** C8, as stated, fails: with the 1000 frames of the default recursion
    limit, main.py's function raises [RecursionError] on two mappings
    nested 1100 deep, and main-ordered.py's function already on a mapping
    nested 600 deep, which [copy.deepcopy] cannot copy. *)
Lemma C8_counterexample :
  MainOnStack.compare_and_extract_diff cpython 1000
    (nested 1100 (VInt 1)) (nested 1100 (VInt 2))
  = Raises RecursionError
  /\ MainOrderedOnStack.compare_and_extract_diff MainOrdered.insertion_order
       cpython 1000 (nested 600 (VInt 1)) VNone
     = Raises RecursionError.
Proof. split; vm_compute; reflexivity. Qed.

Lemma singleton_iter (set_iter : MainOrdered.pyset -> list string) (k : string) :
  (forall s, Permutation s (set_iter s)) -> set_iter [k] = [k].
Proof. intros Hperm. now apply Permutation_length_1_inv. Qed.

(** X17 — whatever the recursion limit is, there are finite trees on which
    both functions raise [RecursionError]: each nested mapping they compare
    takes a frame, so two chains of as many mappings as there are frames
    left cannot be compared. *)
Theorem X17_deep_trees_raise (set_iter : MainOrdered.pyset -> list string)
    (py : interpreter) (frames : nat) (x y : value) :
  (forall s, Permutation s (set_iter s)) ->
  MainOnStack.compare_and_extract_diff py frames
    (nested frames x) (nested frames y)
  = Raises RecursionError
  /\ MainOrderedOnStack.compare_and_extract_diff set_iter py frames
       (nested frames x) (nested frames y)
     = Raises RecursionError.
Proof.
  intros Hperm. split.
  - induction frames as [|rest IH]; [reflexivity|].
    cbn [MainOnStack.compare_and_extract_diff nested].
    destruct (rest <? body_frames py); [reflexivity|].
    unfold MainOnStack.compare_and_extract_diff_body.
    cbn [isinstance_map isinstance_seq Bool.eqb negb orb dict_keys map fst
         for_each].
    unfold dict_getitem, py_get, py_in, dict_get, dict_contains.
    cbn [dict_lookup]. rewrite String.eqb_refl. cbn [bind negb].
    now rewrite IH.
  - induction frames as [|rest IH]; [reflexivity|].
    cbn [MainOrderedOnStack.compare_and_extract_diff nested].
    destruct (rest <? body_frames py); [reflexivity|].
    unfold MainOrderedOnStack.compare_and_extract_diff_body.
    cbn [type_of pytype_eqb negb py_keys dict_keys map fst bind].
    assert (Hkeys : MainOrdered.set_union (MainOrdered.set_of ["a"%string])
                      (MainOrdered.set_of ["a"%string]) = ["a"%string])
      by reflexivity.
    rewrite Hkeys, (singleton_iter set_iter "a" Hperm).
    cbn [for_each].
    unfold py_get, py_in, dict_get, dict_contains.
    cbn [dict_lookup]. rewrite String.eqb_refl. cbn [bind negb].
    now rewrite IH.
Qed.

Lemma X17_deep_trees_raise_witness :
  MainOrderedOnStack.compare_and_extract_diff MainOrdered.insertion_order
    cpython 3 (nested 3 (VInt 1)) (nested 3 (VInt 2))
  = Raises RecursionError.
Proof.
  assert (Hperm : forall s, Permutation s (MainOrdered.insertion_order s))
    by (intros s; apply Permutation_refl).
  exact (proj2 (X17_deep_trees_raise MainOrdered.insertion_order cpython 3
                  (VInt 1) (VInt 2) Hperm)).
Defined.
